(** * Credit scoring service: sanitiser, scoring engine and the two tools

    A shallow embedding of [fast_mcp_customer_eval.py].

    - Python floats are IEEE 754 binary64 values, carried by the Standard
      Library's [spec_float].  Every arithmetic operation is the exact
      rational result rounded to the nearest representable value, ties to
      even; comparisons compare exact values.  The model is checked against
      the Standard Library's binary64 operations and against the machine's
      floats on the values of this program.
    - Python integers are unbounded ([Z]).
    - Exceptions are explicit in an error monad, so a failure that escapes
      a [try] is visible in the type of the result.
    - The [inputs] dict of a tool is a finite map from strings to JSON
      values; the dicts that the program builds with fixed keys are
      records. *)

From Stdlib Require Import ZArith QArith Qround Qabs Qpower Lia Lqa Bool String Ascii List.
From Stdlib Require Import Floats.SpecFloat.
From Stdlib Require PrimFloat FloatOps Uint63.
From stdpp Require Import base gmap strings.

Local Open Scope Z_scope.

(** ** Binary64 *)

(** The carrier is the Standard Library's [spec_float]: signed zeros,
    infinities, NaN, and finite values [(-1)^s * m * 2^e]. *)
Abbreviation float := spec_float.

Definition prec : Z := 53.
Definition emin : Z := -1074.

Definition pow2 (e : Z) : Q := (2 ^ e)%Q.

(** Exact value of a finite float (zero for the others). *)
Definition F2Q (x : float) : Q :=
  match x with
  | S754_finite s m e =>
      ((if s then inject_Z (Zneg m) else inject_Z (Zpos m)) * pow2 e)%Q
  | _ => 0%Q
  end.

(** Extended rationals: the order of IEEE comparisons. *)
Inductive xq : Type :=
| XNaN
| XNegInf
| XFin (q : Q)
| XPosInf.

Definition F2X (x : float) : xq :=
  match x with
  | S754_nan => XNaN
  | S754_infinity true => XNegInf
  | S754_infinity false => XPosInf
  | _ => XFin (F2Q x)
  end.

Definition Qltb (a b : Q) : bool :=
  match (a ?= b)%Q with Lt => true | _ => false end.

Definition xltb (a b : xq) : bool :=
  match a, b with
  | XNaN, _ | _, XNaN => false
  | XNegInf, XNegInf => false
  | XNegInf, _ => true
  | _, XNegInf => false
  | XPosInf, _ => false
  | XFin _, XPosInf => true
  | XFin p, XFin q => Qltb p q
  end.

Definition xleb (a b : xq) : bool :=
  match a, b with
  | XNaN, _ | _, XNaN => false
  | XNegInf, _ => true
  | _, XNegInf => false
  | _, XPosInf => true
  | XPosInf, XFin _ => false
  | XFin p, XFin q => Qle_bool p q
  end.

(** Python's [x < y], [x > y], [x <= y], [x >= y] on floats. *)
Definition flt (x y : float) : bool := xltb (F2X x) (F2X y).
Definition fgt (x y : float) : bool := flt y x.
Definition fle (x y : float) : bool := xleb (F2X x) (F2X y).
Definition fge (x y : float) : bool := fle y x.

(** Round half to even of a rational to an integer. *)
Definition rne (q : Q) : Z :=
  let f := Qfloor q in
  match (q - inject_Z f ?= 1 # 2)%Q with
  | Lt => f
  | Gt => f + 1
  | Eq => if Z.even f then f else f + 1
  end.

(** For [q > 0], the integer [k] with [2^(k-1) <= q < 2^k]. *)
Definition Qmag (q : Q) : Z :=
  let k0 := Z.log2 (Qnum q) - Z.log2 (Zpos (Qden q)) in
  if Qle_bool (pow2 k0) q then k0 + 1 else k0.

(** Exponent of the binary64 format at a positive rational. *)
Definition fexp (q : Q) : Z := Z.max (Qmag q - prec) emin.

(** Float of sign [s] and value [m * 2^e], for the mantissa [0 <= m <= 2^53]
    that comes out of the rounding: a value of [2^1024] or more is an
    overflow, and a mantissa that reached [2^53] moves to the next binade. *)
Definition SFpack (s : bool) (m e : Z) : float :=
  match m with
  | Zpos p =>
      if Qle_bool (pow2 1024) (inject_Z m * pow2 e) then S754_infinity s
      else if Pos.eqb p (2 ^ 53)%positive then S754_finite s (2 ^ 52)%positive (e + 1)
      else S754_finite s p e
  | _ => S754_zero s
  end.

(** Correct rounding of a rational to binary64, round to nearest even.
    [szero] is the sign given to an exact zero. *)
Definition round_Q (szero : bool) (q : Q) : float :=
  match Qnum q with
  | Z0 => S754_zero szero
  | Zpos _ => let e := fexp q in SFpack false (rne (q / pow2 e)) e
  | Zneg _ => let e := fexp (- q) in SFpack true (rne (- q / pow2 e)) e
  end.

Definition is_zero (x : float) : bool :=
  match x with S754_zero _ => true | _ => false end.

Definition fsign (x : float) : bool :=
  match x with
  | S754_zero s | S754_infinity s | S754_finite s _ _ => s
  | S754_nan => false
  end.

Definition fadd (x y : float) : float :=
  match x, y with
  | S754_nan, _ | _, S754_nan => S754_nan
  | S754_infinity s1, S754_infinity s2 =>
      if Bool.eqb s1 s2 then x else S754_nan
  | S754_infinity _, _ => x
  | _, S754_infinity _ => y
  | _, _ => round_Q (fsign x && fsign y) (F2Q x + F2Q y)
  end.

Definition fmul (x y : float) : float :=
  match x, y with
  | S754_nan, _ | _, S754_nan => S754_nan
  | S754_infinity _, S754_zero _ | S754_zero _, S754_infinity _ => S754_nan
  | S754_infinity _, _ | _, S754_infinity _ =>
      S754_infinity (xorb (fsign x) (fsign y))
  | _, _ => round_Q (xorb (fsign x) (fsign y)) (F2Q x * F2Q y)
  end.

(** IEEE quotient for a divisor that is not zero. *)
Definition fdiv_ieee (x y : float) : float :=
  match x, y with
  | S754_nan, _ | _, S754_nan => S754_nan
  | S754_infinity _, S754_infinity _ => S754_nan
  | S754_infinity _, _ => S754_infinity (xorb (fsign x) (fsign y))
  | _, S754_infinity _ => S754_zero (xorb (fsign x) (fsign y))
  | _, _ => round_Q (xorb (fsign x) (fsign y)) (F2Q x / F2Q y)
  end.

(** A literal denotes the float nearest to its decimal value. *)
Definition lit (q : Q) : float := round_Q false q.


(** ** Python values, exceptions and built-ins *)

(** The exceptions that the built-ins of this program raise, with the
    message [str(e)] gives.  Where CPython's message ends with a quotation
    of the offending value or with the name of its type, that ending is
    left out here. *)
Inductive exn : Type :=
| ValueError (msg : string)
| TypeError (msg : string)
| OverflowError (msg : string)
| ZeroDivisionError (msg : string).

(** [str(e)] *)
Definition exn_str (e : exn) : string :=
  match e with
  | ValueError m | TypeError m | OverflowError m | ZeroDivisionError m => m
  end.

Inductive result (A : Type) : Type :=
| Ok (a : A)
| Raise (e : exn).
Arguments Ok {A} a.
Arguments Raise {A} e.

Global Instance result_ret : MRet result := fun A a => Ok a.
Global Instance result_bind : MBind result := fun A B f m =>
  match m with
  | Ok a => f a
  | Raise e => Raise e
  end.

(** [try: body  except Exception as e: handler e] *)
Definition try_except {A} (body : result A) (handler : exn -> result A) : result A :=
  match body with
  | Ok a => Ok a
  | Raise e => handler e
  end.

(** Values that reach a tool as members of the [inputs] dict.  A [JFloat]
    holds any float, NaN and the infinities included. *)
Inductive json : Type :=
| JNull
| JBool (b : bool)
| JInt (z : Z)
| JFloat (f : float)
| JStr (s : string)
| JArray (l : list json)
| JObject (l : list (string * json)).

(** [float(n)] for an int: nearest float, [OverflowError] beyond the range. *)
Definition float_of_Z (z : Z) : result float :=
  match round_Q false (inject_Z z) with
  | S754_infinity _ => Raise (OverflowError "int too large to convert to float")
  | f => Ok f
  end.

(** [int(x)] for a float: truncation toward zero. *)
Definition Qtrunc (q : Q) : Z := Z.quot (Qnum q) (Zpos (Qden q)).

Definition int_of_float (x : float) : result Z :=
  match x with
  | S754_nan => Raise (ValueError "cannot convert float NaN to integer")
  | S754_infinity _ => Raise (OverflowError "cannot convert float infinity to integer")
  | _ => Ok (Qtrunc (F2Q x))
  end.

(** [round(x)] for a float: an int, ties to even. *)
Definition py_round (x : float) : result Z :=
  match x with
  | S754_nan => Raise (ValueError "cannot convert float NaN to integer")
  | S754_infinity _ => Raise (OverflowError "cannot convert float infinity to integer")
  | _ => Ok (rne (F2Q x))
  end.

(** [round(x, n)] for a float and a small [n >= 0]: the exact value is
    rounded (ties to even) to [n] decimal digits and the decimal result is
    read back as the nearest float. *)
Definition py_round_nd (x : float) (n : N) : float :=
  match x with
  | S754_finite s _ _ =>
      let p := inject_Z (10 ^ Z.of_N n) in
      round_Q s (inject_Z (rne (F2Q x * p)) / p)
  | _ => x
  end.

(** Two-argument [max] and [min]: the first argument is kept unless the
    second compares strictly greater (smaller). *)
Definition py_max (a b : float) : float := if fgt b a then b else a.
Definition py_min (a b : float) : float := if flt b a then b else a.
Definition py_max_int (a b : Z) : Z := if b >? a then b else a.

(** [x < n] with a float on the left and an int on the right. *)
Definition flt_int (x : float) (n : Z) : bool := xltb (F2X x) (XFin (inject_Z n)).

(** *** Parsing of numeric strings

    Strings are sequences of bytes.  The two parsers follow CPython's on
    ASCII text; a byte outside ASCII is a character that no number
    contains, so digits and spaces of other scripts are not recognised. *)

Definition is_space (c : ascii) : bool :=
  let n := N_of_ascii c in
  ((9 <=? n) && (n <=? 13) || (n =? 32))%N.

Definition digit_of (c : ascii) : option Z :=
  let n := N_of_ascii c in
  if ((48 <=? n) && (n <=? 57))%N then Some (Z.of_N n - 48) else None.

Fixpoint lstrip (s : string) : string :=
  match s with
  | String c s' => if is_space c then lstrip s' else s
  | EmptyString => s
  end.

Fixpoint rstrip (s : string) : string :=
  match s with
  | EmptyString => EmptyString
  | String c s' =>
      match rstrip s' with
      | EmptyString => if is_space c then EmptyString else String c EmptyString
      | r => String c r
      end
  end.

Definition strip (s : string) : string := lstrip (rstrip s).

(** Digits after the first one, with single underscores between digits:
    value so far, number of digits so far, and what is left. *)
Fixpoint digits_more (acc : Z) (n : nat) (s : string) : Z * nat * string :=
  match s with
  | String c s' =>
      match digit_of c with
      | Some d => digits_more (10 * acc + d) (S n) s'
      | None =>
          if Ascii.eqb c "_" then
            match s' with
            | String c2 s'' =>
                match digit_of c2 with
                | Some d => digits_more (10 * acc + d) (S n) s''
                | None => (acc, n, s)
                end
            | EmptyString => (acc, n, s)
            end
          else (acc, n, s)
      end
  | EmptyString => (acc, n, s)
  end.

(** A possibly empty digit part. *)
Definition digit_part (s : string) : Z * nat * string :=
  match s with
  | String c s' =>
      match digit_of c with
      | Some d => digits_more d 1 s'
      | None => (0, O, s)
      end
  | EmptyString => (0, O, s)
  end.

Definition split_sign (s : string) : bool * string :=
  match s with
  | String c s' =>
      if Ascii.eqb c "-" then (true, s')
      else if Ascii.eqb c "+" then (false, s')
      else (false, s)
  | EmptyString => (false, s)
  end.

(** The largest number of digits that [int] converts from a string
    (CPython's default). *)
Definition int_max_str_digits : nat := 4300.

(** [int(s)] for a string, base 10. *)
Definition int_of_string (s : string) : result Z :=
  let '(neg, body) := split_sign (strip s) in
  match digit_part body with
  | (v, S n, EmptyString) =>
      if (n <? int_max_str_digits)%nat then Ok (if neg then - v else v)
      else Raise (ValueError "Exceeds the limit (4300 digits) for integer string conversion")
  | _ => Raise (ValueError "invalid literal for int() with base 10")
  end.

Fixpoint lower (s : string) : string :=
  match s with
  | EmptyString => EmptyString
  | String c s' =>
      let n := N_of_ascii c in
      String (if ((65 <=? n) && (n <=? 90))%N then ascii_of_N (n + 32) else c) (lower s')
  end.

(** Optional exponent part: [None] when malformed. *)
Definition exponent_part (s : string) : option Z :=
  match s with
  | EmptyString => Some 0
  | String c s' =>
      if Ascii.eqb c "e" || Ascii.eqb c "E" then
        let '(neg, t) := split_sign s' in
        match digit_part t with
        | (v, S _, EmptyString) => Some (if neg then - v else v)
        | _ => None
        end
      else None
  end.

Definition Qpow10 (k : Z) : Q := (inject_Z 10 ^ k)%Q.

(** [float(s)] for a string. *)
Definition float_of_string (s : string) : result float :=
  let '(neg, body) := split_sign (strip s) in
  let bad := Raise (ValueError "could not convert string to float") in
  let l := lower body in
  if String.eqb l "inf" || String.eqb l "infinity" then Ok (S754_infinity neg)
  else if String.eqb l "nan" then Ok S754_nan
  else
    let '(iv, ni, r1) := digit_part body in
    let '(fv, nf, r2) :=
      match r1 with
      | String c r => if Ascii.eqb c "." then digit_part r else (0, O, r1)
      | EmptyString => (0, O, r1)
      end in
    match (ni + nf)%nat, exponent_part r2 with
    | S _, Some ex =>
        let m := iv * 10 ^ Z.of_nat nf + fv in
        let q := (inject_Z m * Qpow10 (ex - Z.of_nat nf))%Q in
        Ok (round_Q neg (if neg then - q else q)%Q)
    | _, _ => bad
    end.

(** [float(v)] *)
Definition py_float (v : json) : result float :=
  match v with
  | JFloat f => Ok f
  | JInt z => float_of_Z z
  | JBool b => Ok (if b then lit 1 else lit 0)
  | JStr s => float_of_string s
  | JNull | JArray _ | JObject _ =>
      Raise (TypeError "float() argument must be a string or a real number")
  end.

(** [int(v)] *)
Definition py_int (v : json) : result Z :=
  match v with
  | JInt z => Ok z
  | JBool b => Ok (if b then 1 else 0)
  | JFloat f => int_of_float f
  | JStr s => int_of_string s
  | JNull | JArray _ | JObject _ =>
      Raise (TypeError "int() argument must be a string, a bytes-like object or a real number")
  end.

(** [d.get(key, default)] *)
Definition dict_get (d : gmap string json) (key : string) (default : json) : json :=
  match d !! key with
  | Some v => v
  | None => default
  end.

(** ** The program *)

(** *** Configuration *)

Definition ASSET_CAP : float := lit 10000000000.
Definition SALARY_CAP : float := lit 200000000.
Definition EXP_CAP : float := lit 40.
Definition BASE_SCORE : float := lit 500.
Definition BONUS_POOL : float := lit 300.

(** [WEIGHTS], a dict read at its three literal keys. *)
Record Weights : Type := {
  w_asset : float;
  w_salary : float;
  w_experience : float
}.

Definition WEIGHTS : Weights :=
  {| w_asset := lit (5 # 10); w_salary := lit (3 # 10); w_experience := lit (2 # 10) |}.

Record CreditInputs : Type := {
  total_asset_value : float;
  monthly_salary : float;
  work_experiences : Z;
  age : Z
}.

(** [x / y] on floats: a zero divisor raises. *)
Definition fdiv (x y : float) : result float :=
  if is_zero y then Raise (ZeroDivisionError "float division by zero")
  else Ok (fdiv_ieee x y).

(** *** Sanitiser *)

Definition _sanitize_and_cast (inputs : gmap string json) : result CreditInputs :=
  conv ← try_except
    (asset ← py_float (dict_get inputs "total_asset_value" (JInt 0));
     salary ← py_float (dict_get inputs "monthly_salary" (JInt 0));
     exp ← py_int (dict_get inputs "work_experiences" (JInt 0));
     age ← py_int (dict_get inputs "age" (JInt 0));
     mret (asset, salary, exp, age))
    (fun e => Raise (ValueError ("Invalid input types: " +:+ exn_str e)));
  let '(asset, salary, exp, age) := conv in
  if flt_int asset 0 || flt_int salary 0 || (exp <? 0) || (age <? 0)
  then Raise (ValueError "Numeric inputs must be non-negative.")
  else Ok {| total_asset_value := asset; monthly_salary := salary;
             work_experiences := exp; age := age |}.

(** *** Scoring engine *)

Record Component : Type := {
  value : float;
  cap : float;
  norm : float;
  points : float
}.

Record Components : Type := {
  c_asset : Component;
  c_salary : Component;
  c_experience : Component
}.

Record ComputationResult : Type := {
  credit_score : Z;
  raw_score : float;
  classification : string;
  reason_class : string;
  components : Components;
  base : float;
  bonus_pool : float;
  weights : Weights
}.

(** The classification rule of the engine: label and rationale. *)
Definition classify (credit_score age : Z) : string * string :=
  if (credit_score >=? 720) && ((25 <=? age) && (age <=? 65)) then
    ("high-value",
     "Điểm cao và độ tuổi trong ngưỡng ổn định thu nhập/tiêu dùng.")
  else if (credit_score >=? 640) && ((21 <=? age) && (age <=? 70)) then
    ("standard",
     "Điểm khá và độ tuổi phù hợp, rủi ro trung bình.")
  else
    ("risk",
     "Điểm thấp hoặc độ tuổi ngoài ngưỡng ưu tiên, rủi ro cao hơn.").

Definition _compute_scores (ci : CreditInputs) : result ComputationResult :=
  let asset := py_max (lit 0) (total_asset_value ci) in
  let salary := py_max (lit 0) (monthly_salary ci) in
  exp_f ← float_of_Z (work_experiences ci);
  let exp := py_max (lit 0) exp_f in
  let age := py_max_int 0 (age ci) in

  asset_q ← fdiv asset ASSET_CAP;
  let asset_norm := py_min asset_q (lit 1) in
  salary_q ← fdiv salary SALARY_CAP;
  let salary_norm := py_min salary_q (lit 1) in
  exp_q ← fdiv exp EXP_CAP;
  let exp_norm := py_min exp_q (lit 1) in

  let asset_points := fmul BONUS_POOL (w_asset WEIGHTS) in
  let salary_points := fmul BONUS_POOL (w_salary WEIGHTS) in
  let exp_points := fmul BONUS_POOL (w_experience WEIGHTS) in

  let asset_score := fmul asset_norm asset_points in
  let salary_score := fmul salary_norm salary_points in
  let exp_score := fmul exp_norm exp_points in

  let raw_score := fadd (fadd (fadd BASE_SCORE asset_score) salary_score) exp_score in
  credit_score ←
    py_round (py_max BASE_SCORE (py_min raw_score (fadd BASE_SCORE BONUS_POOL)));

  let '(classification, reason_class) := classify credit_score age in

  mret {|
    credit_score := credit_score;
    raw_score := raw_score;
    classification := classification;
    reason_class := reason_class;
    components := {|
      c_asset := {| value := asset; cap := ASSET_CAP;
                    norm := py_round_nd asset_norm 6;
                    points := py_round_nd asset_score 2 |};
      c_salary := {| value := salary; cap := SALARY_CAP;
                     norm := py_round_nd salary_norm 6;
                     points := py_round_nd salary_score 2 |};
      c_experience := {| value := exp; cap := EXP_CAP;
                         norm := py_round_nd exp_norm 6;
                         points := py_round_nd exp_score 2 |}
    |};
    base := BASE_SCORE;
    bonus_pool := BONUS_POOL;
    weights := WEIGHTS
  |}.

(** *** The two tools *)

(** What a tool returns: the error shape or its own success shape. *)
Record ErrorResponse : Type := {
  error : string;
  details : string
}.

Inductive response (A : Type) : Type :=
| Failure (e : ErrorResponse)
| Success (a : A).
Arguments Failure {A} e.
Arguments Success {A} a.

Record ScoreComponents : Type := {
  asset_score : float;
  salary_score : float;
  experience_score : float
}.

Record Caps : Type := {
  asset_cap : float;
  salary_cap : float;
  experience_cap : float
}.

Record Normalization : Type := {
  asset_norm : float;
  salary_norm : float;
  experience_norm : float;
  caps : Caps
}.

Record CreditScoring : Type := {
  cs_base : float;
  cs_components : ScoreComponents;
  normalization : Normalization;
  cs_weights : Weights;
  explanation : string
}.

Record ClassificationReason : Type := {
  rule : string;
  cr_age : Z;
  reason : string
}.

Record Reasons : Type := {
  credit_scoring : CreditScoring;
  r_classification : ClassificationReason
}.

Record Classified : Type := {
  cl_credit_score : Z;
  cl_classification : string;
  reasons : Reasons
}.

Record Breakdown : Type := {
  bd_credit_score : Z;
  bd_raw_score : float;
  bd_components : Components;
  bd_weights : Weights;
  bd_base : float;
  bd_bonus_pool : float
}.

(** The text of the [explanation] f-string: its interpolated values are the
    constants [BASE_SCORE], [int(w * 100)] for each weight, and
    [BONUS_POOL]. *)
Definition explanation_text : string :=
  "Điểm = 500.0 + (tài sản 50% + lương 30% + kinh nghiệm 20%) của 300.0 điểm bonus.".

Definition classify_customer (inputs : gmap string json) : result (response Classified) :=
  match _sanitize_and_cast inputs with
  | Raise (ValueError msg) =>
      Ok (Failure {| error := "invalid_input"; details := msg |})
  | Raise e => Raise e
  | Ok ci =>
      calc ← _compute_scores ci;
      let reasons := {|
        credit_scoring := {|
          cs_base := BASE_SCORE;
          cs_components := {|
            asset_score := points (c_asset (components calc));
            salary_score := points (c_salary (components calc));
            experience_score := points (c_experience (components calc))
          |};
          normalization := {|
            asset_norm := norm (c_asset (components calc));
            salary_norm := norm (c_salary (components calc));
            experience_norm := norm (c_experience (components calc));
            caps := {| asset_cap := ASSET_CAP; salary_cap := SALARY_CAP;
                       experience_cap := EXP_CAP |}
          |};
          cs_weights := WEIGHTS;
          explanation := explanation_text
        |};
        r_classification := {|
          rule := "high-value nếu score ≥ 720 và 25–65; standard nếu score ≥ 640 và 21–70; else risk.";
          cr_age := age ci;
          reason := reason_class calc
        |}
      |} in
      mret (Success {|
        cl_credit_score := credit_score calc;
        cl_classification := classification calc;
        reasons := reasons
      |})
  end.

Definition score_breakdown (inputs : gmap string json) : result (response Breakdown) :=
  match _sanitize_and_cast inputs with
  | Raise (ValueError msg) =>
      Ok (Failure {| error := "invalid_input"; details := msg |})
  | Raise e => Raise e
  | Ok ci =>
      calc ← _compute_scores ci;
      mret (Success {|
        bd_credit_score := credit_score calc;
        bd_raw_score := raw_score calc;
        bd_components := components calc;
        bd_weights := weights calc;
        bd_base := base calc;
        bd_bonus_pool := bonus_pool calc
      |})
  end.

(** ** Notions used in the statements *)

(** Mantissa and value of the rounding of a positive rational, before the
    overflow test. *)
Definition rmant (q : Q) : Z := rne (q / pow2 (fexp q)).
Definition rval (q : Q) : Q := (inject_Z (rmant q) * pow2 (fexp q))%Q.

Definition is_finite (x : float) : bool :=
  match x with
  | S754_zero _ | S754_finite _ _ _ => true
  | _ => false
  end.

(** The order of IEEE comparisons, as a proposition. *)
Definition xle (a b : xq) : Prop := xleb a b = true.

(** Not NaN and not below zero: a non-negative finite float or [+inf]. *)
Definition NN (x : float) : Prop := xle (XFin 0) (F2X x).

(** A finite float above zero, such as the three caps. *)
Definition positive_finite (c : float) : Prop :=
  is_finite c = true /\ fsign c = false /\ (0 < F2Q c)%Q.

(** The clamp of step 5, before the rounding to an integer. *)
Definition clamp_score (raw : float) : float :=
  py_max BASE_SCORE (py_min raw (fadd BASE_SCORE BONUS_POOL)).

(** Unrounded normalised ratio and factor score. *)
Definition norm_of (v c : float) : float := py_min (fdiv_ieee v c) (lit 1).
Definition score_of (v c w : float) : float := fmul (norm_of v c) (fmul BONUS_POOL w).

Definition raw_of (asset salary exp : float) : float :=
  fadd (fadd (fadd BASE_SCORE (score_of asset ASSET_CAP (w_asset WEIGHTS)))
             (score_of salary SALARY_CAP (w_salary WEIGHTS)))
       (score_of exp EXP_CAP (w_experience WEIGHTS)).

Definition component_of (v c w : float) : Component :=
  {| value := v; cap := c;
     norm := py_round_nd (norm_of v c) 6;
     points := py_round_nd (score_of v c w) 2 |}.

(** The result of the engine for the clamped values of the four fields. *)
Definition scores_from (asset salary exp : float) (age : Z) : ComputationResult :=
  let raw := raw_of asset salary exp in
  let cs := rne (F2Q (clamp_score raw)) in
  {| credit_score := cs;
     raw_score := raw;
     classification := fst (classify cs age);
     reason_class := snd (classify cs age);
     components := {|
       c_asset := component_of asset ASSET_CAP (w_asset WEIGHTS);
       c_salary := component_of salary SALARY_CAP (w_salary WEIGHTS);
       c_experience := component_of exp EXP_CAP (w_experience WEIGHTS) |};
     base := BASE_SCORE;
     bonus_pool := BONUS_POOL;
     weights := WEIGHTS |}.

(** The least int that [float] refuses: halfway between the largest float
    and [2^1024]. *)
Definition float_int_limit : Z := 2 ^ 1024 - 2 ^ 970.

(** The success shapes, as functions of the validated record and of the
    engine's result. *)
Definition classified_of (ci : CreditInputs) (calc : ComputationResult) : Classified :=
  {| cl_credit_score := credit_score calc;
     cl_classification := classification calc;
     reasons := {|
       credit_scoring := {|
         cs_base := BASE_SCORE;
         cs_components := {|
           asset_score := points (c_asset (components calc));
           salary_score := points (c_salary (components calc));
           experience_score := points (c_experience (components calc)) |};
         normalization := {|
           asset_norm := norm (c_asset (components calc));
           salary_norm := norm (c_salary (components calc));
           experience_norm := norm (c_experience (components calc));
           caps := {| asset_cap := ASSET_CAP; salary_cap := SALARY_CAP;
                      experience_cap := EXP_CAP |} |};
         cs_weights := WEIGHTS;
         explanation := explanation_text |};
       r_classification := {|
         rule := "high-value nếu score ≥ 720 và 25–65; standard nếu score ≥ 640 và 21–70; else risk.";
         cr_age := age ci;
         reason := reason_class calc |} |} |}.

Definition breakdown_of (calc : ComputationResult) : Breakdown :=
  {| bd_credit_score := credit_score calc;
     bd_raw_score := raw_score calc;
     bd_components := components calc;
     bd_weights := weights calc;
     bd_base := base calc;
     bd_bonus_pool := bonus_pool calc |}.

Definition invalid_input (msg : string) : ErrorResponse :=
  {| error := "invalid_input"; details := msg |}.

(** What a tool does, by the outcome of the sanitiser and of the engine. *)
Inductive tool_run (inputs : gmap string json) : Prop :=
| run_invalid msg :
    _sanitize_and_cast inputs = Raise (ValueError msg) ->
    classify_customer inputs = Ok (Failure (invalid_input msg)) ->
    score_breakdown inputs = Ok (Failure (invalid_input msg)) ->
    tool_run inputs
| run_scored ci calc :
    _sanitize_and_cast inputs = Ok ci ->
    _compute_scores ci = Ok calc ->
    classify_customer inputs = Ok (Success (classified_of ci calc)) ->
    score_breakdown inputs = Ok (Success (breakdown_of calc)) ->
    tool_run inputs
| run_crashed ci e :
    _sanitize_and_cast inputs = Ok ci ->
    _compute_scores ci = Raise e ->
    classify_customer inputs = Raise e ->
    score_breakdown inputs = Raise e ->
    tool_run inputs.

(** A record is validated when the sanitiser returns it for some input. *)
Definition validated (ci : CreditInputs) : Prop :=
  exists inputs, _sanitize_and_cast inputs = Ok ci.

(** The record the sanitiser returns when every field is zero or missing. *)
Definition zero_inputs : CreditInputs :=
  {| total_asset_value := lit 0; monthly_salary := lit 0;
     work_experiences := 0; age := 0 |}.

Definition in_score_range (cs : Z) : Prop :=
  500 <= cs <= 800 /\
  (F2Q BASE_SCORE <= inject_Z cs <= F2Q (fadd BASE_SCORE BONUS_POOL))%Q.

(** The three labels. *)
Definition is_label (l : string) : Prop :=
  l = "high-value" \/ l = "standard" \/ l = "risk".

(** The rule of the specification, read top-down on a score and an age. *)
Definition follows_rule (cs a : Z) (l : string) : Prop :=
  (cs >= 720 /\ 25 <= a <= 65 -> l = "high-value") /\
  (~ (cs >= 720 /\ 25 <= a <= 65) -> cs >= 640 /\ 21 <= a <= 70 -> l = "standard") /\
  (~ (cs >= 720 /\ 25 <= a <= 65) -> ~ (cs >= 640 /\ 21 <= a <= 70) -> l = "risk").

(** What a caller reads in a response of [classify_customer]: score and
    label. *)
Definition classify_summary (inputs : gmap string json) : option (Z * string) :=
  match classify_customer inputs with
  | Ok (Success r) => Some (cl_credit_score r, cl_classification r)
  | _ => None
  end.

Definition breakdown_score (inputs : gmap string json) : option Z :=
  match score_breakdown inputs with
  | Ok (Success r) => Some (bd_credit_score r)
  | _ => None
  end.

Definition all_zero_age_30 : gmap string json :=
  {[ "total_asset_value" := JInt 0; "monthly_salary" := JInt 0;
     "work_experiences" := JInt 0; "age" := JInt 30 ]}.

Definition all_at_cap_age_30 : gmap string json :=
  {[ "total_asset_value" := JFloat (lit 10000000000);
     "monthly_salary" := JFloat (lit 200000000);
     "work_experiences" := JInt 40; "age" := JInt 30 ]}.

(** An int of 401 digits, as a JSON number and as a string of digits. *)
Definition huge_int : Z := 10 ^ 400.
Definition huge_int_string : string :=
  String "1" (string_of_list_ascii (repeat "0"%char 400)).

(** The share of the bonus pool that a weight gives: finite and not below
    zero. *)
Definition share_ok (w : float) : Prop :=
  is_finite (fmul BONUS_POOL w) = true /\ (0 <= F2Q (fmul BONUS_POOL w))%Q.

(** One of the three scorable factors. *)
Inductive factor : Type := Asset | Salary | Experience.

(** [raised f ci ci']: the record [ci'] is [ci] with factor [f] raised (or
    equal) and the other three fields unchanged. *)
Definition raised (f : factor) (ci ci' : CreditInputs) : Prop :=
  age ci' = age ci /\
  match f with
  | Asset =>
      fle (total_asset_value ci) (total_asset_value ci') = true /\
      monthly_salary ci' = monthly_salary ci /\
      work_experiences ci' = work_experiences ci
  | Salary =>
      fle (monthly_salary ci) (monthly_salary ci') = true /\
      total_asset_value ci' = total_asset_value ci /\
      work_experiences ci' = work_experiences ci
  | Experience =>
      work_experiences ci <= work_experiences ci' /\
      total_asset_value ci' = total_asset_value ci /\
      monthly_salary ci' = monthly_salary ci
  end.

(** A record with half the asset cap and nothing else. *)
Definition half_asset_inputs : CreditInputs :=
  {| total_asset_value := lit 5000000000; monthly_salary := lit 0;
     work_experiences := 0; age := 0 |}.

(** [at_cap f ci]: the value of factor [f] has reached its cap. *)
Definition at_cap (f : factor) (ci : CreditInputs) : Prop :=
  match f with
  | Asset => fge (total_asset_value ci) ASSET_CAP = true
  | Salary => fge (monthly_salary ci) SALARY_CAP = true
  | Experience => (F2Q EXP_CAP <= inject_Z (work_experiences ci))%Q
  end.

(** The entry of factor [f] in the breakdown. *)
Definition component (f : factor) (calc : ComputationResult) : Component :=
  match f with
  | Asset => c_asset (components calc)
  | Salary => c_salary (components calc)
  | Experience => c_experience (components calc)
  end.

Definition asset_at_cap_inputs : CreditInputs :=
  {| total_asset_value := lit 10000000000; monthly_salary := lit 0;
     work_experiences := 0; age := 0 |}.

Definition asset_twice_cap_inputs : CreditInputs :=
  {| total_asset_value := lit 20000000000; monthly_salary := lit 0;
     work_experiences := 0; age := 0 |}.

(** The raw score that the displayed points, or the displayed ratios, would
    give. *)
Definition raw_from_points (calc : ComputationResult) : float :=
  fadd (fadd (fadd BASE_SCORE (points (c_asset (components calc))))
             (points (c_salary (components calc))))
       (points (c_experience (components calc))).

Definition raw_from_norms (calc : ComputationResult) : float :=
  fadd (fadd (fadd BASE_SCORE
                   (fmul (norm (c_asset (components calc)))
                         (fmul BONUS_POOL (w_asset WEIGHTS))))
             (fmul (norm (c_salary (components calc)))
                   (fmul BONUS_POOL (w_salary WEIGHTS))))
       (fmul (norm (c_experience (components calc)))
             (fmul BONUS_POOL (w_experience WEIGHTS))).

(** An asset of 33,334,000: ratio 0.0033334, points 0.50001. *)
Definition small_asset_inputs : CreditInputs :=
  {| total_asset_value := lit 33334000; monthly_salary := lit 0;
     work_experiences := 0; age := 0 |}.

Fixpoint has_char (c : ascii) (s : string) : bool :=
  match s with
  | EmptyString => false
  | String d s' => Ascii.eqb c d || has_char c s'
  end.

(** A character that no integer literal contains. *)
Definition foreign_char (c : ascii) : Prop :=
  is_space c = false /\ digit_of c = None /\
  Ascii.eqb c "_" = false /\ Ascii.eqb c "+" = false /\ Ascii.eqb c "-" = false.

(** The two fields that the sanitiser converts with [int]. *)
Inductive int_key : Type := KExperience | KAge.

Definition key_name (k : int_key) : string :=
  match k with
  | KExperience => "work_experiences"
  | KAge => "age"
  end.

Definition int_field (k : int_key) (ci : CreditInputs) : Z :=
  match k with
  | KExperience => work_experiences ci
  | KAge => age ci
  end.

(** The arithmetic of the engine on the machine's binary64 numbers. *)
Definition hw_of_Z (z : Z) : PrimFloat.float := PrimFloat.of_uint63 (Uint63.of_Z z).

Definition hw_min (a b : PrimFloat.float) : PrimFloat.float :=
  if PrimFloat.ltb b a then b else a.

Definition hw_raw_score (asset salary exp : PrimFloat.float) : PrimFloat.float :=
  let norm v c := hw_min (PrimFloat.div v c) (hw_of_Z 1) in
  let weight n := PrimFloat.div (hw_of_Z n) (hw_of_Z 10) in
  let share n := PrimFloat.mul (hw_of_Z 300) (weight n) in
  PrimFloat.add
    (PrimFloat.add
       (PrimFloat.add (hw_of_Z 500)
          (PrimFloat.mul (norm asset (hw_of_Z 10000000000)) (share 5)))
       (PrimFloat.mul (norm salary (hw_of_Z 200000000)) (share 3)))
    (PrimFloat.mul (norm exp (hw_of_Z 40)) (share 2)).

(** ** Notions used in the further properties *)

(** The four keys that the sanitiser reads. *)
Definition field_names : list string :=
  ["total_asset_value"; "monthly_salary"; "work_experiences"; "age"].

(** Two input dicts that hold the same thing under each of the four keys. *)
Definition same_fields (d d' : gmap string json) : Prop :=
  forall k, k ∈ field_names -> d !! k = d' !! k.

(** The four fields of the input, and the key of each. *)
Inductive field : Type := FAsset | FSalary | FExperience | FAge.

Definition field_name (fld : field) : string :=
  match fld with
  | FAsset => "total_asset_value"
  | FSalary => "monthly_salary"
  | FExperience => "work_experiences"
  | FAge => "age"
  end.

(** [conversion_fails fld inputs e]: the conversion that the sanitiser
    applies to field [fld] of [inputs] raises [e]. *)
Definition conversion_fails (fld : field) (inputs : gmap string json) (e : exn) : Prop :=
  match fld with
  | FAsset | FSalary => py_float (dict_get inputs (field_name fld) (JInt 0)) = Raise e
  | FExperience | FAge => py_int (dict_get inputs (field_name fld) (JInt 0)) = Raise e
  end.

(** A JSON value that is no number, no boolean and no string. *)
Definition not_a_number (v : json) : Prop :=
  match v with
  | JNull | JArray _ | JObject _ => True
  | _ => False
  end.

(** A JSON number below zero: an int below 0 in any field, a float below 0
    as asset or salary, a float of -1 or less as experience or age. *)
Definition below_zero (fld : field) (v : json) : Prop :=
  match v, fld with
  | JInt z, _ => z < 0
  | JFloat x, (FAsset | FSalary) => flt_int x 0 = true
  | JFloat x, (FExperience | FAge) => fle x (lit (-1)) = true
  | _, _ => False
  end.

(** Cap, weight and largest number of points of each factor. *)
Definition cap_of (f : factor) : float :=
  match f with
  | Asset => ASSET_CAP
  | Salary => SALARY_CAP
  | Experience => EXP_CAP
  end.

Definition weight_of (f : factor) : float :=
  match f with
  | Asset => w_asset WEIGHTS
  | Salary => w_salary WEIGHTS
  | Experience => w_experience WEIGHTS
  end.

Definition max_points (f : factor) : Z :=
  match f with
  | Asset => 150
  | Salary => 90
  | Experience => 60
  end.

(** The three labels, from worst to best; any other string ranks lowest. *)
Definition label_rank (l : string) : nat :=
  if String.eqb l "high-value" then 2
  else if String.eqb l "standard" then 1
  else 0.

(** [factor_absent f ci]: the record earns nothing for factor [f], its
    value being zero (or, for asset and salary, not above zero). *)
Definition factor_absent (f : factor) (ci : CreditInputs) : Prop :=
  match f with
  | Asset => fgt (total_asset_value ci) (lit 0) = false
  | Salary => fgt (monthly_salary ci) (lit 0) = false
  | Experience => work_experiences ci = 0
  end.

(** A record with no asset and everything else at its cap, age 30. *)
Definition no_asset_inputs : CreditInputs :=
  {| total_asset_value := lit 0; monthly_salary := lit 200000000;
     work_experiences := 40; age := 30 |}.

(** A record with the asset at its cap and nothing else, age 30. *)
Definition asset_only_inputs : CreditInputs :=
  {| total_asset_value := lit 10000000000; monthly_salary := lit 0;
     work_experiences := 0; age := 30 |}.

(** The character of a decimal digit, the string of a list of digits and
    its decimal value (most significant digit first). *)
Definition digit_char (d : Z) : ascii := ascii_of_N (Z.to_N (48 + d)).

Fixpoint digits_string (ds : list Z) : string :=
  match ds with
  | [] => EmptyString
  | d :: r => String (digit_char d) (digits_string r)
  end.

Definition digits_value (ds : list Z) : Z :=
  fold_left (fun acc d => 10 * acc + d) ds 0.

Definition is_digit (d : Z) : Prop := 0 <= d <= 9.

(** A string of ASCII whitespace. *)
Fixpoint all_space (s : string) : bool :=
  match s with
  | EmptyString => true
  | String c r => is_space c && all_space r
  end.

(** An optional sign in front of a number. *)
Inductive sign_mark : Type := NoSign | PlusSign | MinusSign.

Definition sign_string (m : sign_mark) : string :=
  match m with
  | NoSign => EmptyString
  | PlusSign => "+"
  | MinusSign => "-"
  end.

Definition signed (m : sign_mark) (v : Z) : Z :=
  match m with
  | MinusSign => - v
  | _ => v
  end.

(** The scoring formula on exact rationals: [min(x, 1)] and the raw score
    of step 4, with the constants of the configuration as they are
    written. *)
Definition Qcap1 (x : Q) : Q := if Qltb 1 x then 1 else x.

Definition ideal_raw_score (asset salary exp : Q) : Q :=
  (500 + Qcap1 (asset / 10000000000) * (300 * (5 # 10))
       + Qcap1 (salary / 200000000) * (300 * (3 # 10))
       + Qcap1 (exp / 40) * (300 * (2 # 10)))%Q.

(** A record with a third of the asset cap, a salary of 12,345,678 and 7
    years of experience, age 30. *)
Definition sample_inputs : CreditInputs :=
  {| total_asset_value := lit 3333333333; monthly_salary := lit 12345678;
     work_experiences := 7; age := 30 |}.

(** The cap of each factor as a rational. *)
Definition cap_value (f : factor) : Q :=
  match f with
  | Asset => 10000000000
  | Salary => 200000000
  | Experience => 40
  end.

(** A plain value of a field: an int from 0 up to the largest that [float]
    converts, or, for asset and salary, a float that is not negative and
    not NaN. *)
Definition plain_value (fld : field) (v : json) : Prop :=
  match v with
  | JInt z => 0 <= z < float_int_limit
  | JFloat x => (fld = FAsset \/ fld = FSalary) /\ NN x
  | _ => False
  end.

(** A validated record written back as an input dict. *)
Definition record_as_inputs (ci : CreditInputs) : gmap string json :=
  {[ "total_asset_value" := JFloat (total_asset_value ci);
     "monthly_salary" := JFloat (monthly_salary ci);
     "work_experiences" := JInt (work_experiences ci);
     "age" := JInt (age ci) ]}.

(** * Theory *)

(** ** Powers of two *)

Lemma pow2_pos e : (0 < pow2 e)%Q.
Proof. apply Qpower_0_lt. reflexivity. Qed.

Lemma pow2_add a b : (pow2 (a + b) == pow2 a * pow2 b)%Q.
Proof. apply Qpower_plus. discriminate. Qed.

Lemma pow2_le a b : a <= b -> (pow2 a <= pow2 b)%Q.
Proof. intros H. apply Qpower_le_compat_l; [exact H | discriminate]. Qed.

Lemma pow2_lt a b : a < b -> (pow2 a < pow2 b)%Q.
Proof. intros H. apply Qpower_lt_compat_l; [exact H | reflexivity]. Qed.

Lemma pow2_lt_inv a b : (pow2 a < pow2 b)%Q -> a < b.
Proof.
  intros H. destruct (Z_lt_le_dec a b) as [|Hle]; [assumption|].
  apply pow2_le in Hle. lra.
Qed.

Lemma pow2_inject n : 0 <= n -> (inject_Z (2 ^ n) == pow2 n)%Q.
Proof. intros H. unfold pow2. rewrite Zpower_Qpower by exact H. reflexivity. Qed.

Lemma pow2_succ a : (pow2 (a + 1) == 2 * pow2 a)%Q.
Proof. rewrite pow2_add. change (pow2 1) with 2%Q. ring. Qed.

Lemma Qdiv_pow2_le q e k :
  (q <= pow2 (e + k))%Q <-> (q / pow2 e <= pow2 k)%Q.
Proof.
  pose proof (pow2_pos e) as He. rewrite pow2_add.
  split; intros H.
  - apply Qle_shift_div_r; [exact He|]. lra.
  - apply (Qmult_le_r _ _ (pow2 e)) in H; [|exact He].
    unfold Qdiv in H. rewrite <- Qmult_assoc, (Qmult_comm (/ pow2 e)), Qmult_inv_r, Qmult_1_r in H by lra.
    lra.
Qed.

(** ** Rounding a rational to an integer *)

Lemma rne_floor q : Qfloor q <= rne q <= Qfloor q + 1.
Proof.
  unfold rne. destruct (_ ?= _)%Q; [destruct (Z.even _)| |]; lia.
Qed.

Lemma rne_ge_Z q z : (inject_Z z <= q)%Q -> z <= rne q.
Proof.
  intros H. apply Qfloor_resp_le in H. rewrite Qfloor_Z in H.
  pose proof (rne_floor q). lia.
Qed.

Lemma rne_le_Z q z : (q <= inject_Z z)%Q -> rne q <= z.
Proof.
  intros H. pose proof (Qfloor_le q) as Hf. pose proof (rne_floor q) as Hr.
  assert (Hfz : Qfloor q <= z) by (rewrite Zle_Qle; lra).
  destruct (Z.eq_dec (Qfloor q) z) as [E|NE]; [|lia].
  unfold rne. destruct (Qcompare_spec (q - inject_Z (Qfloor q)) (1 # 2)) as [Hc|Hc|Hc];
    [ | lia | ]; rewrite E in Hc; lra.
Qed.

Lemma rne_Z z : rne (inject_Z z) = z.
Proof.
  apply Z.le_antisymm; [apply rne_le_Z | apply rne_ge_Z]; lra.
Qed.

Lemma rne_mono p q : (p <= q)%Q -> rne p <= rne q.
Proof.
  intros H. pose proof (Qfloor_resp_le _ _ H) as Hf.
  pose proof (rne_floor p) as Hp. pose proof (rne_floor q) as Hq.
  destruct (Z.eq_dec (Qfloor p) (Qfloor q)) as [E|NE]; [|lia].
  unfold rne. rewrite E.
  destruct (Qcompare_spec (p - inject_Z (Qfloor q)) (1 # 2)) as [H1|H1|H1];
    destruct (Qcompare_spec (q - inject_Z (Qfloor q)) (1 # 2)) as [H2|H2|H2];
    try destruct (Z.even _); try lia; lra.
Qed.

Global Instance rne_comp : Proper (Qeq ==> eq) rne.
Proof.
  intros p q H. apply Z.le_antisymm; apply rne_mono; rewrite H; apply Qle_refl.
Qed.

(** ** Magnitude of a positive rational *)

Lemma Zlog2_pow2_Q n :
  0 < n -> (pow2 (Z.log2 n) <= inject_Z n < pow2 (Z.log2 n + 1))%Q.
Proof.
  intros H. pose proof (Z.log2_spec n H) as [H1 H2]. pose proof (Z.log2_nonneg n) as Hn.
  rewrite <- !pow2_inject by lia. split.
  - rewrite <- Zle_Qle. exact H1.
  - rewrite <- Zlt_Qlt. replace (Z.log2 n + 1) with (Z.succ (Z.log2 n)) by lia. exact H2.
Qed.

Lemma Qmag_spec q :
  (0 < q)%Q -> (pow2 (Qmag q - 1) <= q < pow2 (Qmag q))%Q.
Proof.
  intros Hq. destruct q as [n d]. unfold Qmag. cbn [Qnum Qden].
  assert (Hn : 0 < n) by (unfold Qlt in Hq; cbn in Hq; lia).
  pose proof (Zlog2_pow2_Q n Hn) as [Hn1 Hn2].
  pose proof (Zlog2_pow2_Q (Zpos d) eq_refl) as [Hd1 Hd2].
  set (a := Z.log2 n) in *. set (b := Z.log2 (Zpos d)) in *.
  assert (Hnd : (n # d == inject_Z n / inject_Z (Zpos d))%Q) by apply Qmake_Qdiv.
  assert (Hdpos : (0 < inject_Z (Zpos d))%Q) by (rewrite <- (Zlt_Qlt 0); lia).
  (* n = q * d *)
  assert (Hmul : (inject_Z n == (n # d) * inject_Z (Zpos d))%Q).
  { rewrite Hnd. field. lra. }
  pose proof (pow2_pos (a - b)) as Hab. pose proof (pow2_pos b) as Hb.
  assert (Ea : (pow2 a == pow2 (a - b) * pow2 b)%Q).
  { rewrite <- pow2_add. replace (a - b + b) with a by lia. reflexivity. }
  assert (Ea1 : (pow2 (a + 1) == pow2 (a - b + 1) * pow2 b)%Q).
  { rewrite <- pow2_add. replace (a - b + 1 + b) with (a + 1) by lia. reflexivity. }
  assert (Eb1 : (pow2 (b + 1) == 2 * pow2 b)%Q) by apply pow2_succ.
  assert (Eab1 : (pow2 (a - b + 1) == 2 * pow2 (a - b))%Q) by apply pow2_succ.
  assert (Eab0 : (pow2 (a - b) == 2 * pow2 (a - b - 1))%Q).
  { rewrite <- pow2_succ. replace (a - b - 1 + 1) with (a - b) by lia. reflexivity. }
  destruct (Qle_bool (pow2 (a - b)) (n # d)) eqn:Hc.
  - apply Qle_bool_iff in Hc. replace (a - b + 1 - 1) with (a - b) by lia.
    split; [exact Hc|].
    destruct (Qlt_le_dec (n # d) (pow2 (a - b + 1))) as [|Hge]; [assumption|].
    exfalso. assert ((pow2 (a - b + 1) * pow2 b <= (n # d) * inject_Z (Zpos d))%Q); [|lra].
    apply Qmult_le_compat_nonneg; split; lra.
  - assert (Hlt : (n # d < pow2 (a - b))%Q).
    { destruct (Qlt_le_dec (n # d) (pow2 (a - b))) as [|Hge]; [assumption|].
      apply Qle_bool_iff in Hge. congruence. }
    split; [|exact Hlt].
    destruct (Qlt_le_dec (n # d) (pow2 (a - b - 1))) as [Hl|]; [|assumption].
    exfalso. assert (((n # d) * inject_Z (Zpos d) <= pow2 (a - b - 1) * pow2 (b + 1))%Q).
    { apply Qmult_le_compat_nonneg; split; lra. }
    nra.
Qed.

Lemma Qmag_mono p q : (0 < p)%Q -> (p <= q)%Q -> Qmag p <= Qmag q.
Proof.
  intros Hp Hpq.
  pose proof (Qmag_spec p Hp) as [H1 _].
  assert (Hq : (0 < q)%Q) by lra.
  pose proof (Qmag_spec q Hq) as [_ H2].
  assert (H : Qmag p - 1 < Qmag q) by (apply pow2_lt_inv; lra).
  lia.
Qed.

Lemma Qmag_comp p q : (0 < p)%Q -> (p == q)%Q -> Qmag p = Qmag q.
Proof.
  intros Hp E. apply Z.le_antisymm; apply Qmag_mono; lra.
Qed.

Lemma fexp_mono p q : (0 < p)%Q -> (p <= q)%Q -> fexp p <= fexp q.
Proof.
  intros Hp Hpq. unfold fexp. pose proof (Qmag_mono p q Hp Hpq). lia.
Qed.

(** ** Rounding a rational to binary64 *)

Lemma Qdiv_pow2_mono p q e : (p <= q)%Q -> (p / pow2 e <= q / pow2 e)%Q.
Proof.
  intros H. pose proof (pow2_pos e) as He. unfold Qdiv.
  apply Qmult_le_compat_r; [exact H|]. apply Qlt_le_weak, Qinv_lt_0_compat, He.
Qed.

Lemma Qdiv_pow2_ge q e k :
  (pow2 (e + k) <= q)%Q -> (pow2 k <= q / pow2 e)%Q.
Proof.
  pose proof (pow2_pos e) as He. rewrite pow2_add. intros H.
  apply Qle_shift_div_l; [exact He|]. lra.
Qed.

Lemma rmant_nonneg q : (0 < q)%Q -> 0 <= rmant q.
Proof.
  intros Hq. apply rne_ge_Z. pose proof (pow2_pos (fexp q)) as He.
  apply Qle_shift_div_l; [exact He|]. change (inject_Z 0) with 0%Q. lra.
Qed.

Lemma rmant_upper q : (0 < q)%Q -> rmant q <= 2 ^ 53.
Proof.
  intros Hq. apply rne_le_Z. rewrite pow2_inject by lia.
  apply Qdiv_pow2_le. pose proof (Qmag_spec q Hq) as [_ H].
  assert (Hle : Qmag q <= fexp q + 53) by (unfold fexp, prec; lia).
  apply pow2_le in Hle. lra.
Qed.

Lemma rmant_lower q : (0 < q)%Q -> emin < fexp q -> 2 ^ 52 <= rmant q.
Proof.
  intros Hq He. apply rne_ge_Z. rewrite pow2_inject by lia.
  apply Qdiv_pow2_ge. pose proof (Qmag_spec q Hq) as [H _].
  replace (fexp q + 52) with (Qmag q - 1) by (unfold fexp, prec in *; lia).
  exact H.
Qed.

Lemma rval_mono p q : (0 < p)%Q -> (p <= q)%Q -> (rval p <= rval q)%Q.
Proof.
  intros Hp Hpq. assert (Hq : (0 < q)%Q) by lra.
  pose proof (fexp_mono p q Hp Hpq) as He.
  unfold rval.
  destruct (Z.eq_dec (fexp p) (fexp q)) as [E|NE].
  - unfold rmant. rewrite E.
    apply Qmult_le_compat_r; [|apply Qlt_le_weak, pow2_pos].
    rewrite <- Zle_Qle. apply rne_mono, Qdiv_pow2_mono, Hpq.
  - assert (Hlt : fexp p < fexp q) by lia.
    pose proof (rmant_upper p Hp) as Hu.
    assert (Hl : 2 ^ 52 <= rmant q).
    { apply rmant_lower; [exact Hq|]. unfold fexp in *. lia. }
    rewrite Zle_Qle in Hu, Hl. rewrite pow2_inject in Hu, Hl by lia.
    pose proof (pow2_pos (fexp p)) as Hpp. pose proof (pow2_pos (fexp q)) as Hpq'.
    apply Qle_trans with (pow2 (fexp p + 53)).
    + rewrite Z.add_comm, pow2_add. apply Qmult_le_compat_r; lra.
    + apply Qle_trans with (pow2 (52 + fexp q)).
      * apply pow2_le. lia.
      * rewrite pow2_add. apply Qmult_le_compat_r; lra.
Qed.

Lemma F2X_finite x : is_finite x = true -> F2X x = XFin (F2Q x).
Proof. destruct x; try discriminate; reflexivity. Qed.

Lemma SFpack_overflow s m e :
  0 < m -> (pow2 1024 <= inject_Z m * pow2 e)%Q -> SFpack s m e = S754_infinity s.
Proof.
  intros Hm H. destruct m as [|p|p]; try lia. unfold SFpack.
  apply Qle_bool_iff in H. rewrite H. reflexivity.
Qed.

Lemma SFpack_finite s m e :
  0 <= m -> (inject_Z m * pow2 e < pow2 1024)%Q ->
  is_finite (SFpack s m e) = true /\
  (F2Q (SFpack false m e) == inject_Z m * pow2 e)%Q.
Proof.
  intros Hm H. destruct m as [|p|p]; try lia.
  - split; [reflexivity|]. cbn. ring.
  - unfold SFpack.
    destruct (Qle_bool _ _) eqn:Hc; [apply Qle_bool_iff in Hc; lra|].
    destruct (Pos.eqb_spec p (2 ^ 53)%positive) as [E|NE].
    + split; [reflexivity|]. subst p. cbn [F2Q]. rewrite pow2_succ.
      change (inject_Z (Z.pos (2 ^ 53))) with (2 * inject_Z (Z.pos (2 ^ 52)))%Q. ring.
    + split; reflexivity.
Qed.

Lemma round_Q_pos s q :
  (0 < q)%Q -> round_Q s q = SFpack false (rmant q) (fexp q).
Proof.
  intros Hq. unfold round_Q. destruct q as [[|n|n] d]; cbn [Qnum];
    try (unfold Qlt in Hq; cbn in Hq; lia). reflexivity.
Qed.

Lemma round_Q_zero s q : (q == 0)%Q -> round_Q s q = S754_zero s.
Proof.
  intros Hq. unfold round_Q. destruct q as [[|n|n] d]; cbn [Qnum];
    try (unfold Qeq in Hq; cbn in Hq; lia). reflexivity.
Qed.

Lemma xle_fin p q : xle (XFin p) (XFin q) <-> (p <= q)%Q.
Proof. unfold xle. cbn. apply Qle_bool_iff. Qed.

Lemma xle_trans a b c : xle a b -> xle b c -> xle a c.
Proof.
  unfold xle. destruct a, b, c; cbn; try congruence; try reflexivity.
  rewrite !Qle_bool_iff. apply Qle_trans.
Qed.

(** The rounding of a positive rational: either an overflow, or a finite
    float whose value is [rval q]. *)
Lemma round_Q_pos_cases s q :
  (0 < q)%Q ->
  ((pow2 1024 <= rval q)%Q /\ round_Q s q = S754_infinity false) \/
  ((rval q < pow2 1024)%Q /\ is_finite (round_Q s q) = true /\
   (F2Q (round_Q s q) == rval q)%Q).
Proof.
  intros Hq. rewrite round_Q_pos by exact Hq.
  pose proof (rmant_nonneg q Hq) as Hm.
  destruct (Qlt_le_dec (rval q) (pow2 1024)) as [H|H].
  - right. split; [exact H|]. apply SFpack_finite; assumption.
  - left. split; [exact H|]. apply SFpack_overflow; [|exact H].
    destruct (Z.eq_dec (rmant q) 0) as [E|NE]; [|lia].
    unfold rval in H. rewrite E in H. pose proof (pow2_pos 1024).
    change (inject_Z 0) with 0%Q in H. lra.
Qed.

Lemma rval_nonneg q : (0 < q)%Q -> (0 <= rval q)%Q.
Proof.
  intros Hq. unfold rval. apply Qmult_le_0_compat.
  - change 0%Q with (inject_Z 0). rewrite <- Zle_Qle. apply rmant_nonneg, Hq.
  - apply Qlt_le_weak, pow2_pos.
Qed.

Lemma round_Q_nonneg s q : (0 <= q)%Q -> xle (XFin 0) (F2X (round_Q s q)).
Proof.
  intros Hq. destruct (Qeq_dec q 0) as [E|NE].
  - rewrite round_Q_zero by exact E. apply xle_fin. cbn. lra.
  - assert (Hpos : (0 < q)%Q) by lra.
    destruct (round_Q_pos_cases s q Hpos) as [[_ E]|(_ & Hf & Hv)].
    + rewrite E. reflexivity.
    + rewrite F2X_finite by exact Hf. apply xle_fin. rewrite Hv. apply rval_nonneg, Hpos.
Qed.

Lemma round_Q_mono s t p q :
  (0 <= p)%Q -> (p <= q)%Q -> xle (F2X (round_Q s p)) (F2X (round_Q t q)).
Proof.
  intros Hp Hpq. destruct (Qeq_dec p 0) as [E|NE].
  - rewrite (round_Q_zero s p) by exact E. apply round_Q_nonneg. lra.
  - assert (Hp' : (0 < p)%Q) by lra. assert (Hq' : (0 < q)%Q) by lra.
    pose proof (rval_mono p q Hp' Hpq) as Hm.
    destruct (round_Q_pos_cases t q Hq') as [[_ E]|(Hlt & Hf & Hv)].
    + rewrite E. destruct (round_Q_pos_cases s p Hp') as [[_ E']|(_ & Hf' & _)].
      * rewrite E'. reflexivity.
      * rewrite (F2X_finite _ Hf'). reflexivity.
    + destruct (round_Q_pos_cases s p Hp') as [[Hge _]|(_ & Hf' & Hv')]; [lra|].
      rewrite (F2X_finite _ Hf), (F2X_finite _ Hf'). apply xle_fin. lra.
Qed.

Lemma round_Q_comp s p q : (p == q)%Q -> round_Q s p = round_Q s q.
Proof.
  intros E. destruct (Qlt_le_dec 0 p) as [Hp|Hp].
  - rewrite !round_Q_pos by lra. unfold rmant, fexp.
    rewrite (Qmag_comp p q Hp E). f_equal. apply rne_comp. rewrite E. reflexivity.
  - destruct (Qeq_dec p 0) as [Hz|Hnz].
    + rewrite !round_Q_zero by lra. reflexivity.
    + assert (Hn : (0 < - p)%Q) by lra.
      unfold round_Q. destruct p as [[|n|n] d], q as [[|n'|n'] d']; cbn [Qnum];
        try (unfold Qeq, Qlt, Qle, Qopp in *; cbn in *; lia).
      unfold fexp. rewrite (Qmag_comp _ (- (Z.neg n' # d')) Hn) by (rewrite E; reflexivity).
      f_equal. apply rne_comp. rewrite E. reflexivity.
Qed.

(** ** The order of comparisons *)

Lemma Qltb_true p q : Qltb p q = true <-> (p < q)%Q.
Proof.
  unfold Qltb. rewrite Qlt_alt. destruct (p ?= q)%Q; split; congruence.
Qed.

Lemma Qltb_false p q : Qltb p q = false <-> (q <= p)%Q.
Proof.
  unfold Qltb. destruct (Qcompare_spec p q) as [H|H|H]; split; intros; try congruence; lra.
Qed.

Lemma xle_not_nan a b : xle a b -> a <> XNaN /\ b <> XNaN.
Proof. unfold xle. destruct a, b; cbn; intros H; split; congruence. Qed.

Lemma xle_refl a : a <> XNaN -> xle a a.
Proof.
  unfold xle. destruct a; cbn; intros H; try congruence.
  apply Qle_bool_iff. apply Qle_refl.
Qed.

Lemma xle_posinf a : a <> XNaN -> xle a XPosInf.
Proof. unfold xle. destruct a; cbn; congruence. Qed.

Lemma xle_posinf_inv a : xle XPosInf a -> a = XPosInf.
Proof. unfold xle. destruct a; cbn; congruence. Qed.

Lemma xltb_true_xle a b : xltb a b = true -> xle a b.
Proof.
  unfold xle. destruct a, b; cbn; try congruence.
  rewrite Qltb_true, Qle_bool_iff. apply Qlt_le_weak.
Qed.

Lemma xltb_false_xle a b :
  xltb a b = false -> a <> XNaN -> b <> XNaN -> xle b a.
Proof.
  unfold xle. destruct a, b; cbn; try congruence.
  rewrite Qltb_false, Qle_bool_iff. auto.
Qed.

Lemma xltb_xle_false a b : xle a b -> xltb b a = false.
Proof.
  unfold xle. destruct a, b; cbn; try congruence.
  rewrite Qltb_false, Qle_bool_iff. auto.
Qed.

(** ** [max] and [min] are monotone *)

Lemma py_max_mono c x x' :
  F2X c <> XNaN -> xle (F2X x) (F2X x') ->
  xle (F2X (py_max c x)) (F2X (py_max c x')).
Proof.
  intros Hc H. destruct (xle_not_nan _ _ H) as [Hx Hx'].
  unfold py_max, fgt, flt.
  destruct (xltb (F2X c) (F2X x)) eqn:E; destruct (xltb (F2X c) (F2X x')) eqn:E'.
  - exact H.
  - eapply xle_trans; [exact H|]. apply xltb_false_xle; assumption.
  - apply xltb_true_xle, E'.
  - apply xle_refl, Hc.
Qed.

Lemma py_max_lower c x : F2X c <> XNaN -> xle (F2X c) (F2X (py_max c x)).
Proof.
  intros Hc. unfold py_max, fgt, flt.
  destruct (xltb (F2X c) (F2X x)) eqn:E.
  - apply xltb_true_xle, E.
  - apply xle_refl, Hc.
Qed.

Lemma py_min_mono c x x' :
  F2X c <> XNaN -> xle (F2X x) (F2X x') ->
  xle (F2X (py_min x c)) (F2X (py_min x' c)).
Proof.
  intros Hc H. destruct (xle_not_nan _ _ H) as [Hx Hx'].
  unfold py_min, flt.
  destruct (xltb (F2X c) (F2X x)) eqn:E; destruct (xltb (F2X c) (F2X x')) eqn:E'.
  - apply xle_refl, Hc.
  - eapply xle_trans; [apply xltb_true_xle, E | exact H].
  - apply xltb_false_xle; assumption.
  - exact H.
Qed.

(** ** Arithmetic on non-negative floats is monotone *)

Lemma NN_cases x :
  NN x -> x = S754_infinity false \/ (is_finite x = true /\ (0 <= F2Q x)%Q).
Proof.
  unfold NN, xle. destruct x as [s|[|]| |s m e]; cbn; try congruence; auto.
  - intros _. right. split; [reflexivity|]. lra.
  - intros H. right. split; [reflexivity|]. apply Qle_bool_iff, H.
Qed.

Lemma NN_finite x : is_finite x = true -> (0 <= F2Q x)%Q -> NN x.
Proof.
  intros Hf H. unfold NN. rewrite F2X_finite by exact Hf. apply xle_fin, H.
Qed.

Lemma NN_not_nan x : NN x -> F2X x <> XNaN.
Proof. intros H. apply (xle_not_nan _ _ H). Qed.

Lemma F2X_posinf_inv x : F2X x = XPosInf -> x = S754_infinity false.
Proof. destruct x as [s|[|]| |s m e]; cbn; congruence. Qed.

Lemma xle_cases x x' :
  NN x -> xle (F2X x) (F2X x') ->
  x' = S754_infinity false \/
  (is_finite x = true /\ is_finite x' = true /\ (0 <= F2Q x)%Q /\ (F2Q x <= F2Q x')%Q).
Proof.
  intros Hx H. assert (Hx' : NN x') by exact (xle_trans _ _ _ Hx H).
  destruct (NN_cases x' Hx') as [E|[Hf' H0']]; [left; exact E|].
  destruct (NN_cases x Hx) as [E|[Hf H0]].
  - subst x. apply xle_posinf_inv, F2X_posinf_inv in H. left. exact H.
  - right. repeat split; try assumption.
    rewrite (F2X_finite _ Hf), (F2X_finite _ Hf') in H. apply xle_fin, H.
Qed.

Lemma fadd_finite x y :
  is_finite x = true -> is_finite y = true ->
  fadd x y = round_Q (fsign x && fsign y) (F2Q x + F2Q y).
Proof. destruct x, y; try discriminate; reflexivity. Qed.

Lemma fmul_finite x y :
  is_finite x = true -> is_finite y = true ->
  fmul x y = round_Q (xorb (fsign x) (fsign y)) (F2Q x * F2Q y).
Proof. destruct x, y; try discriminate; reflexivity. Qed.

Lemma fdiv_ieee_finite x y :
  is_finite x = true -> is_finite y = true ->
  fdiv_ieee x y = round_Q (xorb (fsign x) (fsign y)) (F2Q x / F2Q y).
Proof. destruct x, y; try discriminate; reflexivity. Qed.

Lemma fadd_posinf_l y : NN y -> fadd (S754_infinity false) y = S754_infinity false.
Proof.
  intros H. destruct (NN_cases y H) as [E|[Hf _]]; [rewrite E; reflexivity|].
  destruct y; try discriminate; reflexivity.
Qed.

Lemma fadd_posinf_r x : NN x -> fadd x (S754_infinity false) = S754_infinity false.
Proof.
  intros H. destruct (NN_cases x H) as [E|[Hf _]]; [rewrite E; reflexivity|].
  destruct x; try discriminate; reflexivity.
Qed.

Lemma NN_posinf : NN (S754_infinity false).
Proof. reflexivity. Qed.

Lemma fadd_NN x y : NN x -> NN y -> NN (fadd x y).
Proof.
  intros Hx Hy.
  destruct (NN_cases x Hx) as [E|[Hfx H0x]]; [subst; rewrite fadd_posinf_l by exact Hy; exact NN_posinf|].
  destruct (NN_cases y Hy) as [E|[Hfy H0y]]; [subst; rewrite fadd_posinf_r by exact Hx; exact NN_posinf|].
  rewrite fadd_finite by assumption. apply round_Q_nonneg. lra.
Qed.

Lemma fadd_mono x x' y y' :
  NN x -> NN y -> xle (F2X x) (F2X x') -> xle (F2X y) (F2X y') ->
  xle (F2X (fadd x y)) (F2X (fadd x' y')).
Proof.
  intros Hx Hy Hxx Hyy.
  assert (Hx' : NN x') by exact (xle_trans _ _ _ Hx Hxx).
  assert (Hy' : NN y') by exact (xle_trans _ _ _ Hy Hyy).
  pose proof (NN_not_nan _ (fadd_NN x y Hx Hy)) as Hnn.
  destruct (xle_cases x x' Hx Hxx) as [E|(Hfx & Hfx' & H0x & Hlx)].
  { subst x'. rewrite fadd_posinf_l by exact Hy'. apply xle_posinf, Hnn. }
  destruct (xle_cases y y' Hy Hyy) as [E|(Hfy & Hfy' & H0y & Hly)].
  { subst y'. rewrite fadd_posinf_r by exact Hx'. apply xle_posinf, Hnn. }
  rewrite !fadd_finite by assumption. apply round_Q_mono; lra.
Qed.

Lemma fmul_NN x c :
  is_finite x = true -> is_finite c = true -> (0 <= F2Q x)%Q -> (0 <= F2Q c)%Q ->
  NN (fmul x c).
Proof.
  intros Hfx Hfc Hx Hc. rewrite fmul_finite by assumption.
  apply round_Q_nonneg. apply Qmult_le_0_compat; assumption.
Qed.

Lemma fmul_mono x x' c :
  is_finite x = true -> is_finite x' = true -> is_finite c = true ->
  (0 <= F2Q x)%Q -> (F2Q x <= F2Q x')%Q -> (0 <= F2Q c)%Q ->
  xle (F2X (fmul x c)) (F2X (fmul x' c)).
Proof.
  intros Hfx Hfx' Hfc H0 Hle Hc. rewrite !fmul_finite by assumption.
  apply round_Q_mono.
  - apply Qmult_le_0_compat; assumption.
  - apply Qmult_le_compat_r; assumption.
Qed.

Lemma fdiv_ieee_posinf c :
  positive_finite c -> fdiv_ieee (S754_infinity false) c = S754_infinity false.
Proof.
  intros (Hf & Hs & _). destruct c; try discriminate; cbn in *; rewrite Hs; reflexivity.
Qed.

Lemma fdiv_ieee_NN x c : NN x -> positive_finite c -> NN (fdiv_ieee x c).
Proof.
  intros Hx Hc. destruct (NN_cases x Hx) as [E|[Hfx H0x]].
  - subst. rewrite fdiv_ieee_posinf by exact Hc. exact NN_posinf.
  - destruct Hc as (Hf & Hs & Hpos). rewrite fdiv_ieee_finite by assumption.
    apply round_Q_nonneg. apply Qle_shift_div_l; [exact Hpos|]. lra.
Qed.

Lemma fdiv_ieee_mono x x' c :
  NN x -> xle (F2X x) (F2X x') -> positive_finite c ->
  xle (F2X (fdiv_ieee x c)) (F2X (fdiv_ieee x' c)).
Proof.
  intros Hx Hxx Hc.
  pose proof (NN_not_nan _ (fdiv_ieee_NN x c Hx Hc)) as Hnn.
  destruct (xle_cases x x' Hx Hxx) as [E|(Hfx & Hfx' & H0x & Hlx)].
  { subst x'. rewrite fdiv_ieee_posinf by exact Hc. apply xle_posinf, Hnn. }
  destruct Hc as (Hf & Hs & Hpos). rewrite !fdiv_ieee_finite by assumption.
  apply round_Q_mono.
  - apply Qle_shift_div_l; [exact Hpos|]. lra.
  - unfold Qdiv. apply Qmult_le_compat_r; [exact Hlx|].
    apply Qlt_le_weak, Qinv_lt_0_compat, Hpos.
Qed.

(** ** The engine after its conversions *)

Lemma F2X_fin_inv x r : F2X x = XFin r -> is_finite x = true /\ r = F2Q x.
Proof. destruct x as [s|[|]| |s m e]; cbn; intros H; inversion H; auto. Qed.

Lemma BASE_SCORE_val : is_finite BASE_SCORE = true /\ (F2Q BASE_SCORE == 500)%Q.
Proof. split; vm_compute; reflexivity. Qed.

Lemma TOP_SCORE_val :
  is_finite (fadd BASE_SCORE BONUS_POOL) = true /\
  (F2Q (fadd BASE_SCORE BONUS_POOL) == 800)%Q.
Proof. split; vm_compute; reflexivity. Qed.

(** A clamp between two finite bounds is finite and within them, whatever
    is clamped. *)
Lemma clamp_bounds b t raw :
  is_finite b = true -> is_finite t = true -> (F2Q b <= F2Q t)%Q ->
  is_finite (py_max b (py_min raw t)) = true /\
  (F2Q b <= F2Q (py_max b (py_min raw t)) <= F2Q t)%Q.
Proof.
  intros Hfb Hft Hbt. unfold py_max, py_min, fgt, flt.
  rewrite (F2X_finite _ Hfb), (F2X_finite _ Hft).
  destruct (xltb (XFin (F2Q t)) (F2X raw)) eqn:E1.
  - rewrite (F2X_finite _ Hft).
    destruct (xltb (XFin (F2Q b)) (XFin (F2Q t))); (split; [assumption|lra]).
  - destruct (xltb (XFin (F2Q b)) (F2X raw)) eqn:E2.
    + destruct (F2X raw) as [| |r|] eqn:Er; unfold xltb in E1, E2; try discriminate.
      apply F2X_fin_inv in Er. destruct Er as [Hfr ->].
      apply Qltb_true in E2. apply Qltb_false in E1. split; [exact Hfr|]. lra.
    + split; [exact Hfb|]. lra.
Qed.

(** Whatever the raw score, the clamp is a finite float in [[500, 800]]. *)
Lemma clamp_score_bounds raw :
  is_finite (clamp_score raw) = true /\
  (500 <= F2Q (clamp_score raw) <= 800)%Q.
Proof.
  destruct BASE_SCORE_val as [Hfb Hb]. destruct TOP_SCORE_val as [Hft Ht].
  unfold clamp_score.
  destruct (clamp_bounds BASE_SCORE (fadd BASE_SCORE BONUS_POOL) raw Hfb Hft) as [Hf H].
  - rewrite Hb, Ht. discriminate.
  - split; [exact Hf|]. rewrite <- Hb, <- Ht. exact H.
Qed.

Lemma py_round_finite x : is_finite x = true -> py_round x = Ok (rne (F2Q x)).
Proof. destruct x; try discriminate; reflexivity. Qed.

Lemma fdiv_ok x c : is_zero c = false -> fdiv x c = Ok (fdiv_ieee x c).
Proof. intros H. unfold fdiv. rewrite H. reflexivity. Qed.

Lemma py_round_clamp raw :
  py_round (py_max BASE_SCORE (py_min raw (fadd BASE_SCORE BONUS_POOL))) =
  Ok (rne (F2Q (clamp_score raw))).
Proof.
  change (py_max BASE_SCORE (py_min raw (fadd BASE_SCORE BONUS_POOL)))
    with (clamp_score raw).
  apply py_round_finite. apply (proj1 (clamp_score_bounds raw)).
Qed.

Lemma is_zero_caps :
  is_zero ASSET_CAP = false /\ is_zero SALARY_CAP = false /\ is_zero EXP_CAP = false.
Proof. vm_compute. auto. Qed.

Lemma compute_scores_unfold ci :
  _compute_scores ci =
  match float_of_Z (work_experiences ci) with
  | Ok exp_f =>
      Ok (scores_from (py_max (lit 0) (total_asset_value ci))
                      (py_max (lit 0) (monthly_salary ci))
                      (py_max (lit 0) exp_f)
                      (py_max_int 0 (age ci)))
  | Raise e => Raise e
  end.
Proof.
  destruct is_zero_caps as (Za & Zs & Ze).
  unfold _compute_scores. destruct (float_of_Z _) as [f|e]; [|reflexivity].
  unfold mbind, result_bind, mret, result_ret. cbv beta iota zeta.
  rewrite (fdiv_ok _ _ Za), (fdiv_ok _ _ Zs), (fdiv_ok _ _ Ze). cbv beta iota.
  rewrite py_round_clamp.
  unfold scores_from, raw_of, component_of, score_of, norm_of. cbv zeta.
  destruct (classify _ _) as [c r]. cbv beta iota delta [fst snd].
  lazymatch goal with |- ?a = ?a => reflexivity end.
Qed.

(** ** Conversion of an int to a float *)

Lemma float_of_Z_overflow z :
  float_int_limit <= z ->
  float_of_Z z = Raise (OverflowError "int too large to convert to float").
Proof.
  intros H. unfold float_of_Z.
  assert (Hm : xle (F2X (round_Q false (inject_Z float_int_limit)))
                   (F2X (round_Q false (inject_Z z)))).
  { apply round_Q_mono.
    - change 0%Q with (inject_Z 0). rewrite <- Zle_Qle. vm_compute. discriminate.
    - rewrite <- Zle_Qle. exact H. }
  replace (round_Q false (inject_Z float_int_limit)) with (S754_infinity false) in Hm
    by (vm_compute; reflexivity).
  apply xle_posinf_inv, F2X_posinf_inv in Hm. rewrite Hm. reflexivity.
Qed.

Lemma float_of_Z_nonneg z f :
  0 <= z -> float_of_Z z = Ok f -> is_finite f = true /\ (0 <= F2Q f)%Q.
Proof.
  intros Hz. unfold float_of_Z.
  assert (Hq : (0 <= inject_Z z)%Q) by (change 0%Q with (inject_Z 0); rewrite <- Zle_Qle; exact Hz).
  pose proof (round_Q_nonneg false _ Hq) as Hn.
  destruct (NN_cases _ Hn) as [E|[Hf H0]].
  - rewrite E. discriminate.
  - destruct (round_Q false (inject_Z z)) eqn:E; try discriminate;
      intros H; inversion H; subst; auto.
Qed.

Lemma float_of_Z_ok z :
  0 <= z < float_int_limit -> exists f, float_of_Z z = Ok f.
Proof.
  intros [Hz Hlt]. unfold float_of_Z.
  assert (Hm : xle (F2X (round_Q false (inject_Z z)))
                   (F2X (round_Q false (inject_Z (float_int_limit - 1))))).
  { apply round_Q_mono.
    - change 0%Q with (inject_Z 0). rewrite <- Zle_Qle. exact Hz.
    - rewrite <- Zle_Qle. lia. }
  replace (round_Q false (inject_Z (float_int_limit - 1)))
    with (S754_finite false 9007199254740991 971) in Hm by (vm_compute; reflexivity).
  destruct (round_Q false (inject_Z z)) as [s|[|]| |s m e] eqn:E; eauto.
  - assert (Hq : (0 <= inject_Z z)%Q) by (change 0%Q with (inject_Z 0); rewrite <- Zle_Qle; exact Hz).
    pose proof (round_Q_nonneg false _ Hq) as Hn. rewrite E in Hn. discriminate.
  - discriminate.
Qed.

Lemma float_of_Z_mono z z' f f' :
  0 <= z <= z' -> float_of_Z z = Ok f -> float_of_Z z' = Ok f' ->
  xle (F2X f) (F2X f').
Proof.
  intros [Hz Hle] H H'.
  assert (Hm : xle (F2X (round_Q false (inject_Z z)))
                   (F2X (round_Q false (inject_Z z')))).
  { apply round_Q_mono.
    - change 0%Q with (inject_Z 0). rewrite <- Zle_Qle. exact Hz.
    - rewrite <- Zle_Qle. exact Hle. }
  unfold float_of_Z in H, H'.
  destruct (round_Q false (inject_Z z)); try discriminate;
    destruct (round_Q false (inject_Z z')); try discriminate;
    inversion H; inversion H'; subst; exact Hm.
Qed.

(** ** The sanitiser *)

Lemma sanitize_ok_inv inputs ci :
  _sanitize_and_cast inputs = Ok ci ->
  py_float (dict_get inputs "total_asset_value" (JInt 0)) = Ok (total_asset_value ci) /\
  py_float (dict_get inputs "monthly_salary" (JInt 0)) = Ok (monthly_salary ci) /\
  py_int (dict_get inputs "work_experiences" (JInt 0)) = Ok (work_experiences ci) /\
  py_int (dict_get inputs "age" (JInt 0)) = Ok (age ci) /\
  flt_int (total_asset_value ci) 0 = false /\
  flt_int (monthly_salary ci) 0 = false /\
  0 <= work_experiences ci /\ 0 <= age ci.
Proof.
  unfold _sanitize_and_cast, try_except, mbind, result_bind, mret, result_ret.
  destruct (py_float (dict_get inputs "total_asset_value" (JInt 0))) as [a|e]; [|discriminate].
  destruct (py_float (dict_get inputs "monthly_salary" (JInt 0))) as [s|e]; [|discriminate].
  destruct (py_int (dict_get inputs "work_experiences" (JInt 0))) as [x|e]; [|discriminate].
  destruct (py_int (dict_get inputs "age" (JInt 0))) as [g|e]; [|discriminate].
  destruct (flt_int a 0) eqn:Ea; [discriminate|].
  destruct (flt_int s 0) eqn:Es; [discriminate|].
  destruct (Z.ltb_spec x 0) as [Hx|Hx]; [discriminate|].
  destruct (Z.ltb_spec g 0) as [Hg|Hg]; [discriminate|].
  cbv beta iota. intros H. inversion H. subst ci. cbn. repeat split; auto.
Qed.

(** Every exception that leaves the sanitiser is a [ValueError]. *)
Lemma sanitize_raise_inv inputs e :
  _sanitize_and_cast inputs = Raise e -> exists msg, e = ValueError msg.
Proof.
  unfold _sanitize_and_cast, try_except, mbind, result_bind, mret, result_ret.
  destruct (py_float (dict_get inputs "total_asset_value" (JInt 0))) as [a|e1];
    [|intros H; inversion H; eauto].
  destruct (py_float (dict_get inputs "monthly_salary" (JInt 0))) as [s|e1];
    [|intros H; inversion H; eauto].
  destruct (py_int (dict_get inputs "work_experiences" (JInt 0))) as [x|e1];
    [|intros H; inversion H; eauto].
  destruct (py_int (dict_get inputs "age" (JInt 0))) as [g|e1];
    [|intros H; inversion H; eauto].
  cbv beta iota.
  destruct (_ || _ || _ || _); intros H; inversion H; eauto.
Qed.

(** ** The two tools *)

Lemma tool_run_total inputs : tool_run inputs.
Proof.
  destruct (_sanitize_and_cast inputs) as [ci|e] eqn:Es.
  - destruct (_compute_scores ci) as [calc|e] eqn:Ec.
    + apply (run_scored inputs ci calc); try assumption;
        unfold classify_customer, score_breakdown; rewrite Es, Ec; reflexivity.
    + apply (run_crashed inputs ci e); try assumption;
        unfold classify_customer, score_breakdown; rewrite Es, Ec; reflexivity.
  - destruct (sanitize_raise_inv inputs e Es) as [msg ->].
    apply (run_invalid inputs msg); try assumption;
      unfold classify_customer, score_breakdown; rewrite Es; reflexivity.
Qed.

(** The engine fails exactly on an [int] too large for a float. *)
Lemma compute_scores_ok ci :
  0 <= work_experiences ci < float_int_limit -> exists calc, _compute_scores ci = Ok calc.
Proof.
  intros H. rewrite compute_scores_unfold.
  destruct (float_of_Z_ok _ H) as [f ->]. eauto.
Qed.

Lemma compute_scores_overflow ci :
  float_int_limit <= work_experiences ci ->
  _compute_scores ci = Raise (OverflowError "int too large to convert to float").
Proof.
  intros H. rewrite compute_scores_unfold, float_of_Z_overflow by exact H. reflexivity.
Qed.

Lemma compute_scores_inv ci calc :
  _compute_scores ci = Ok calc ->
  exists exp_f,
    float_of_Z (work_experiences ci) = Ok exp_f /\
    calc = scores_from (py_max (lit 0) (total_asset_value ci))
                       (py_max (lit 0) (monthly_salary ci))
                       (py_max (lit 0) exp_f)
                       (py_max_int 0 (age ci)).
Proof.
  rewrite compute_scores_unfold. destruct (float_of_Z _) as [f|e]; [|discriminate].
  intros H. inversion H. eauto.
Qed.

(** * Properties of the service *)

Lemma engine_score_in_range ci calc :
  _compute_scores ci = Ok calc -> in_score_range (credit_score calc).
Proof.
  intros H. destruct (compute_scores_inv ci calc H) as (f & _ & ->).
  unfold scores_from. cbv zeta. cbn [credit_score].
  destruct (clamp_score_bounds
    (raw_of (py_max (lit 0) (total_asset_value ci))
            (py_max (lit 0) (monthly_salary ci)) (py_max (lit 0) f))) as [_ [Hlo Hhi]].
  set (c := clamp_score _) in *.
  assert (H1 : 500 <= rne (F2Q c)) by (apply rne_ge_Z; exact Hlo).
  assert (H2 : rne (F2Q c) <= 800) by (apply rne_le_Z; exact Hhi).
  split; [lia|].
  destruct BASE_SCORE_val as [_ ->]. destruct TOP_SCORE_val as [_ ->].
  rewrite Zle_Qle in H1, H2. split; assumption.
Qed.

(** C1. For every input that passes sanitisation, the credit score that
    [classify_customer] and [score_breakdown] return lies between the base
    score and the base score plus the bonus pool, that is in [[500, 800]];
    and both tools do return a score as long as [work_experiences] is an
    int that [float] accepts. *)
Theorem credit_score_in_range (inputs : gmap string json) (ci : CreditInputs) :
  _sanitize_and_cast inputs = Ok ci ->
  (forall r, classify_customer inputs = Ok (Success r) ->
             in_score_range (cl_credit_score r)) /\
  (forall r, score_breakdown inputs = Ok (Success r) ->
             in_score_range (bd_credit_score r)) /\
  (work_experiences ci < float_int_limit ->
   exists a b, classify_customer inputs = Ok (Success a) /\
               score_breakdown inputs = Ok (Success b)).
Proof.
  intros Hs.
  destruct (tool_run_total inputs) as [msg Hs' _ _|ci' calc Hs' Hc Hcl Hbd|ci' e Hs' Hc Hcl Hbd];
    rewrite Hs in Hs'; inversion Hs'; subst ci'.
  - pose proof (engine_score_in_range ci calc Hc) as Hr.
    rewrite Hcl, Hbd. split; [|split].
    + intros r Hr'. inversion Hr'. exact Hr.
    + intros r Hr'. inversion Hr'. exact Hr.
    + intros _. eauto.
  - rewrite Hcl, Hbd. split; [|split]; try (intros r Hr'; discriminate).
    intros Hlt. destruct (sanitize_ok_inv inputs ci Hs) as (_ & _ & _ & _ & _ & _ & Hx & _).
    destruct (compute_scores_ok ci (conj Hx Hlt)) as [calc Hcalc]. congruence.
Qed.

Lemma credit_score_in_range_witness :
  _sanitize_and_cast ∅ = Ok zero_inputs /\
  ((forall r, classify_customer ∅ = Ok (Success r) ->
              in_score_range (cl_credit_score r)) /\
   (forall r, score_breakdown ∅ = Ok (Success r) ->
              in_score_range (bd_credit_score r)) /\
   (work_experiences zero_inputs < float_int_limit ->
    exists a b, classify_customer ∅ = Ok (Success a) /\
                score_breakdown ∅ = Ok (Success b))).
Proof.
  split; [vm_compute; reflexivity|].
  apply (credit_score_in_range ∅ zero_inputs). vm_compute. reflexivity.
Defined.

Lemma classify_follows_rule cs a :
  follows_rule cs a (fst (classify cs a)) /\ is_label (fst (classify cs a)).
Proof.
  unfold classify, follows_rule, is_label.
  destruct (Z.geb_spec cs 720), (Z.leb_spec 25 a), (Z.leb_spec a 65);
    destruct (Z.geb_spec cs 640), (Z.leb_spec 21 a), (Z.leb_spec a 70);
    cbn [andb fst]; repeat split; auto; intros; try lia; try reflexivity;
    exfalso; lia.
Qed.

(** The engine scores every validated record whose experience is an int
    that [float] accepts. *)
Lemma validated_record_scored (ci : CreditInputs) :
  validated ci -> work_experiences ci < float_int_limit ->
  exists calc, _compute_scores ci = Ok calc.
Proof.
  intros [inputs Hs] Hlt.
  destruct (sanitize_ok_inv inputs ci Hs) as (_ & _ & _ & _ & _ & _ & Hx & _).
  apply compute_scores_ok. lia.
Qed.

(** C3. For every validated input the label that the engine returns is the
    one the top-down rule gives for the pair (credit score, age):
    "high-value" when the score is at least 720 and the age in [[25, 65]],
    otherwise "standard" when the score is at least 640 and the age in
    [[21, 70]], otherwise "risk"; and it is one of these three labels.  A
    result exists whenever the experience is an int that [float] accepts. *)
Theorem classification_rule (ci : CreditInputs) :
  validated ci ->
  (forall calc, _compute_scores ci = Ok calc ->
     classification calc = fst (classify (credit_score calc) (age ci)) /\
     follows_rule (credit_score calc) (age ci) (classification calc) /\
     is_label (classification calc)) /\
  (work_experiences ci < float_int_limit -> exists calc, _compute_scores ci = Ok calc).
Proof.
  intros Hv. split; [|apply validated_record_scored, Hv].
  destruct Hv as [inputs Hs]. intros calc Hc.
  destruct (sanitize_ok_inv inputs ci Hs) as (_ & _ & _ & _ & _ & _ & _ & Hage).
  destruct (compute_scores_inv ci calc Hc) as (f & _ & ->).
  unfold scores_from. cbv zeta. cbn [classification credit_score].
  assert (Ea : py_max_int 0 (age ci) = age ci).
  { unfold py_max_int. destruct (Z.gtb_spec (age ci) 0); lia. }
  rewrite Ea. split; [reflexivity|]. apply classify_follows_rule.
Qed.

Lemma classification_rule_witness :
  validated zero_inputs /\
  ((forall calc, _compute_scores zero_inputs = Ok calc ->
      classification calc = fst (classify (credit_score calc) (age zero_inputs)) /\
      follows_rule (credit_score calc) (age zero_inputs) (classification calc) /\
      is_label (classification calc)) /\
   (work_experiences zero_inputs < float_int_limit ->
    exists calc, _compute_scores zero_inputs = Ok calc)).
Proof.
  assert (Hv : validated zero_inputs) by (exists ∅; vm_compute; reflexivity).
  split; [exact Hv|]. exact (classification_rule zero_inputs Hv).
Defined.

(** C5. On every input the two tools behave alike: either both return a
    score, and it is the same score; or both return the same
    [invalid_input] error; or both raise the same exception. *)
Theorem tools_agree (inputs : gmap string json) :
  match classify_customer inputs, score_breakdown inputs with
  | Ok (Success a), Ok (Success b) => cl_credit_score a = bd_credit_score b
  | Ok (Failure e1), Ok (Failure e2) => e1 = e2 /\ error e1 = "invalid_input"
  | Raise e1, Raise e2 => e1 = e2
  | _, _ => False
  end.
Proof.
  destruct (tool_run_total inputs) as [msg _ Hcl Hbd|ci calc _ _ Hcl Hbd|ci e _ _ Hcl Hbd];
    rewrite Hcl, Hbd.
  - split; reflexivity.
  - reflexivity.
  - reflexivity.
Qed.

(** C8. The empty input has every field default to zero and gives the
    base score 500 with the label "risk"; so does the input whose three
    factors are zero and whose age is 30. *)
Theorem empty_and_zero_input :
  _sanitize_and_cast ∅ = Ok zero_inputs /\
  classify_summary ∅ = Some (500, "risk") /\
  breakdown_score ∅ = Some 500 /\
  (inject_Z 500 == F2Q BASE_SCORE)%Q /\
  classify_summary all_zero_age_30 = Some (500, "risk") /\
  breakdown_score all_zero_age_30 = Some 500.
Proof. repeat split; vm_compute; reflexivity. Qed.

(** C9. With every factor exactly at its cap and age 30 the score is 800
    and the label is "high-value". *)
Theorem all_caps_input :
  classify_summary all_at_cap_age_30 = Some (800, "high-value") /\
  breakdown_score all_at_cap_age_30 = Some 800.
Proof. split; vm_compute; reflexivity. Qed.

(** C4, at the input where it fails. An int too large for a float passes
    the sanitiser as [work_experiences], and the conversion to a float in
    the engine then raises [OverflowError] out of both tools; the same int
    as [total_asset_value] is converted inside the sanitiser's [try] and
    gives the [invalid_input] error. *)
Theorem overflow_escapes_the_tools :
  (exists ci, _sanitize_and_cast {[ "work_experiences" := JInt huge_int ]} = Ok ci) /\
  classify_customer {[ "work_experiences" := JInt huge_int ]}
    = Raise (OverflowError "int too large to convert to float") /\
  score_breakdown {[ "work_experiences" := JInt huge_int ]}
    = Raise (OverflowError "int too large to convert to float") /\
  classify_customer {[ "work_experiences" := JStr huge_int_string ]}
    = Raise (OverflowError "int too large to convert to float") /\
  classify_customer {[ "total_asset_value" := JInt huge_int ]}
    = Ok (Failure (invalid_input "Invalid input types: int too large to convert to float")) /\
  score_breakdown {[ "total_asset_value" := JInt huge_int ]}
    = Ok (Failure (invalid_input "Invalid input types: int too large to convert to float")).
Proof.
  split; [eexists; vm_compute; reflexivity|].
  repeat split; vm_compute; reflexivity.
Qed.

(** ** Monotonicity of the score *)

Lemma lit_0 : lit 0 = S754_zero false.
Proof. reflexivity. Qed.

Lemma py_max_zero_NN x : NN (py_max (lit 0) x).
Proof.
  rewrite lit_0. apply (py_max_lower (S754_zero false) x). discriminate.
Qed.

Lemma py_max_zero_mono x x' :
  xle (F2X x) (F2X x') ->
  xle (F2X (py_max (lit 0) x)) (F2X (py_max (lit 0) x')).
Proof. intros H. apply py_max_mono; [rewrite lit_0; discriminate | exact H]. Qed.

Lemma py_max_ge_right c x :
  F2X c <> XNaN -> F2X x <> XNaN -> xle (F2X x) (F2X (py_max c x)).
Proof.
  intros Hc Hx. unfold py_max, fgt, flt.
  destruct (xltb (F2X c) (F2X x)) eqn:E.
  - apply xle_refl, Hx.
  - apply xltb_false_xle; assumption.
Qed.

Lemma finite_not_nan x : is_finite x = true -> F2X x <> XNaN.
Proof. intros H. rewrite (F2X_finite _ H). discriminate. Qed.

(** A ratio capped by a finite non-negative bound is finite and within
    [[0, bound]]. *)
Lemma py_min_cap_range q one :
  NN q -> is_finite one = true -> (0 <= F2Q one)%Q ->
  is_finite (py_min q one) = true /\ (0 <= F2Q (py_min q one) <= F2Q one)%Q.
Proof.
  intros Hq Hf H1. unfold py_min, flt.
  destruct (xltb (F2X one) (F2X q)) eqn:E.
  - split; [exact Hf|]. lra.
  - apply xltb_false_xle in E; [|apply finite_not_nan, Hf|apply NN_not_nan, Hq].
    destruct (NN_cases q Hq) as [Eq|[Hfq H0]].
    + subst q. rewrite (F2X_finite _ Hf) in E. discriminate.
    + rewrite (F2X_finite _ Hfq), (F2X_finite _ Hf) in E. apply xle_fin in E.
      split; [exact Hfq|]. lra.
Qed.

Lemma lit_1_val : is_finite (lit 1) = true /\ (F2Q (lit 1) == 1)%Q.
Proof. split; vm_compute; reflexivity. Qed.

Lemma norm_of_range v c :
  NN v -> positive_finite c ->
  is_finite (norm_of v c) = true /\ (0 <= F2Q (norm_of v c) <= 1)%Q.
Proof.
  intros Hv Hc. destruct lit_1_val as [Hf1 H1]. unfold norm_of.
  destruct (py_min_cap_range (fdiv_ieee v c) (lit 1)) as [Hf H].
  - apply fdiv_ieee_NN; assumption.
  - exact Hf1.
  - lra.
  - split; [exact Hf|]. unfold norm_of. lra.
Qed.

Lemma norm_of_mono v v' c :
  NN v -> xle (F2X v) (F2X v') -> positive_finite c ->
  (F2Q (norm_of v c) <= F2Q (norm_of v' c))%Q.
Proof.
  intros Hv Hvv Hc.
  assert (Hv' : NN v') by exact (xle_trans _ _ _ Hv Hvv).
  destruct (norm_of_range v c Hv Hc) as [Hf _].
  destruct (norm_of_range v' c Hv' Hc) as [Hf' _].
  assert (H : xle (F2X (norm_of v c)) (F2X (norm_of v' c))).
  { unfold norm_of. apply py_min_mono.
    - apply finite_not_nan, lit_1_val.
    - apply fdiv_ieee_mono; assumption. }
  rewrite (F2X_finite _ Hf), (F2X_finite _ Hf') in H. apply xle_fin, H.
Qed.

Lemma score_of_NN v c w :
  NN v -> positive_finite c -> share_ok w -> NN (score_of v c w).
Proof.
  intros Hv Hc [Hfw Hw]. destruct (norm_of_range v c Hv Hc) as [Hf [H0 _]].
  unfold score_of. apply fmul_NN; assumption.
Qed.

Lemma score_of_mono v v' c w :
  NN v -> xle (F2X v) (F2X v') -> positive_finite c -> share_ok w ->
  xle (F2X (score_of v c w)) (F2X (score_of v' c w)).
Proof.
  intros Hv Hvv Hc [Hfw Hw].
  assert (Hv' : NN v') by exact (xle_trans _ _ _ Hv Hvv).
  destruct (norm_of_range v c Hv Hc) as [Hf [H0 _]].
  destruct (norm_of_range v' c Hv' Hc) as [Hf' _].
  unfold score_of. apply fmul_mono; try assumption.
  apply norm_of_mono; assumption.
Qed.

Lemma caps_positive :
  positive_finite ASSET_CAP /\ positive_finite SALARY_CAP /\ positive_finite EXP_CAP.
Proof. unfold positive_finite. repeat split; vm_compute; reflexivity. Qed.

Lemma shares_ok :
  share_ok (w_asset WEIGHTS) /\ share_ok (w_salary WEIGHTS) /\
  share_ok (w_experience WEIGHTS).
Proof.
  unfold share_ok. repeat split; try (vm_compute; reflexivity);
    apply Qle_bool_iff; vm_compute; reflexivity.
Qed.

Lemma BASE_SCORE_NN : NN BASE_SCORE.
Proof.
  destruct BASE_SCORE_val as [Hf H]. apply NN_finite; [exact Hf|]. rewrite H. discriminate.
Qed.

Lemma raw_of_mono a a' s s' e e' :
  NN a -> NN s -> NN e ->
  xle (F2X a) (F2X a') -> xle (F2X s) (F2X s') -> xle (F2X e) (F2X e') ->
  xle (F2X (raw_of a s e)) (F2X (raw_of a' s' e')).
Proof.
  intros Ha Hs He Haa Hss Hee.
  destruct caps_positive as (Ca & Cs & Ce). destruct shares_ok as (Wa & Ws & We).
  unfold raw_of.
  apply fadd_mono; [| |apply fadd_mono; [| |apply fadd_mono|]|].
  - apply fadd_NN; [apply fadd_NN; [apply BASE_SCORE_NN|]|]; apply score_of_NN; assumption.
  - apply score_of_NN; assumption.
  - apply fadd_NN; [apply BASE_SCORE_NN | apply score_of_NN; assumption].
  - apply score_of_NN; assumption.
  - apply BASE_SCORE_NN.
  - apply score_of_NN; assumption.
  - apply xle_refl, NN_not_nan, BASE_SCORE_NN.
  - apply score_of_mono; assumption.
  - apply score_of_mono; assumption.
  - apply score_of_mono; assumption.
Qed.

Lemma clamp_rne_mono raw raw' :
  xle (F2X raw) (F2X raw') ->
  rne (F2Q (clamp_score raw)) <= rne (F2Q (clamp_score raw')).
Proof.
  intros H. destruct (clamp_score_bounds raw) as [Hf _].
  destruct (clamp_score_bounds raw') as [Hf' _].
  assert (Hc : xle (F2X (clamp_score raw)) (F2X (clamp_score raw'))).
  { unfold clamp_score. apply py_max_mono.
    - apply finite_not_nan, BASE_SCORE_val.
    - apply py_min_mono; [apply finite_not_nan, TOP_SCORE_val | exact H]. }
  rewrite (F2X_finite _ Hf), (F2X_finite _ Hf') in Hc. apply xle_fin in Hc.
  apply rne_mono, Hc.
Qed.

(** The engine scores both records of a raise whenever the raised record's
    experience is an int that [float] accepts. *)
Lemma raised_records_scored (f : factor) (ci ci' : CreditInputs) :
  validated ci -> raised f ci ci' ->
  work_experiences ci' < float_int_limit ->
  exists calc calc', _compute_scores ci = Ok calc /\ _compute_scores ci' = Ok calc'.
Proof.
  intros [inputs Hs] [_ Hf] Hlt.
  destruct (sanitize_ok_inv inputs ci Hs) as (_ & _ & _ & _ & _ & _ & Hx & _).
  assert (Hxx : work_experiences ci <= work_experiences ci').
  { destruct f; destruct Hf as (H1 & H2 & H3); try rewrite H3; lia. }
  destruct (compute_scores_ok ci) as [calc Hc]; [lia|].
  destruct (compute_scores_ok ci') as [calc' Hc']; [lia|].
  eauto.
Qed.

Lemma monotone_on_scored_records (f : factor) (ci ci' : CreditInputs)
    (calc calc' : ComputationResult) :
  validated ci ->
  raised f ci ci' ->
  _compute_scores ci = Ok calc ->
  _compute_scores ci' = Ok calc' ->
  credit_score calc <= credit_score calc'.
Proof.
  intros [inputs Hs] [Hage Hf] Hc Hc'.
  destruct (sanitize_ok_inv inputs ci Hs) as (_ & _ & _ & _ & _ & _ & Hx & _).
  destruct (compute_scores_inv ci calc Hc) as (e & He & ->).
  destruct (compute_scores_inv ci' calc' Hc') as (e' & He' & ->).
  unfold scores_from. cbv zeta. cbn [credit_score].
  apply clamp_rne_mono. apply raw_of_mono; try apply py_max_zero_NN.
  - destruct f; destruct Hf as (H1 & H2 & H3).
    + apply py_max_zero_mono, H1.
    + rewrite H2. apply xle_refl, NN_not_nan, py_max_zero_NN.
    + rewrite H2. apply xle_refl, NN_not_nan, py_max_zero_NN.
  - destruct f; destruct Hf as (H1 & H2 & H3).
    + rewrite H2. apply xle_refl, NN_not_nan, py_max_zero_NN.
    + apply py_max_zero_mono, H1.
    + rewrite H3. apply xle_refl, NN_not_nan, py_max_zero_NN.
  - apply py_max_zero_mono.
    destruct f; destruct Hf as (H1 & H2 & H3).
    + rewrite H3 in He'. rewrite He in He'. inversion He'. subst.
      destruct (float_of_Z_nonneg _ _ Hx He) as [Hfe _].
      apply xle_refl, finite_not_nan, Hfe.
    + rewrite H3 in He'. rewrite He in He'. inversion He'. subst.
      destruct (float_of_Z_nonneg _ _ Hx He) as [Hfe _].
      apply xle_refl, finite_not_nan, Hfe.
    + apply (float_of_Z_mono (work_experiences ci) (work_experiences ci')); auto.
Qed.

(** C2. For every validated record and each factor among asset, salary and
    experience: raising that factor with the other fields fixed gives a
    credit score that is not lower; and both scores exist whenever the
    raised record's experience is an int that [float] accepts. *)
Theorem score_monotone (f : factor) (ci ci' : CreditInputs) :
  validated ci ->
  raised f ci ci' ->
  (forall calc calc',
     _compute_scores ci = Ok calc -> _compute_scores ci' = Ok calc' ->
     credit_score calc <= credit_score calc') /\
  (work_experiences ci' < float_int_limit ->
   exists calc calc',
     _compute_scores ci = Ok calc /\ _compute_scores ci' = Ok calc' /\
     credit_score calc <= credit_score calc').
Proof.
  intros Hv Hr. split.
  - intros calc calc'. apply (monotone_on_scored_records f); assumption.
  - intros Hlt. destruct (raised_records_scored f ci ci' Hv Hr Hlt) as (calc & calc' & Hc & Hc').
    exists calc, calc'. split; [exact Hc|]. split; [exact Hc'|].
    apply (monotone_on_scored_records f ci ci'); assumption.
Qed.

Lemma zero_inputs_validated : validated zero_inputs.
Proof. exists ∅. vm_compute. reflexivity. Qed.

Lemma score_monotone_witness :
  validated zero_inputs /\
  raised Asset zero_inputs half_asset_inputs /\
  ((forall calc calc',
      _compute_scores zero_inputs = Ok calc ->
      _compute_scores half_asset_inputs = Ok calc' ->
      credit_score calc <= credit_score calc') /\
   (work_experiences half_asset_inputs < float_int_limit ->
    exists calc calc',
      _compute_scores zero_inputs = Ok calc /\
      _compute_scores half_asset_inputs = Ok calc' /\
      credit_score calc <= credit_score calc')).
Proof.
  assert (Hv : validated zero_inputs) by exact zero_inputs_validated.
  assert (Hr : raised Asset zero_inputs half_asset_inputs)
    by (repeat split; vm_compute; reflexivity).
  split; [exact Hv|]. split; [exact Hr|].
  exact (score_monotone Asset zero_inputs half_asset_inputs Hv Hr).
Defined.

(** ** Saturation at the cap *)

(** A rounding of a rational of at least one that does not exceed the float
    [1.0] is the float [1.0]. *)
Lemma round_Q_ge_one s r :
  (1 <= r)%Q -> xltb (F2X (lit 1)) (F2X (round_Q s r)) = false ->
  round_Q s r = lit 1.
Proof.
  intros H1 H. assert (Hr : (0 < r)%Q) by lra.
  destruct lit_1_val as [Hf1 Hv1].
  rewrite (F2X_finite _ Hf1) in H.
  destruct (round_Q_pos_cases s r Hr) as [[_ E]|(_ & Hf & Hv)].
  { rewrite E in H. discriminate. }
  rewrite (F2X_finite _ Hf) in H. unfold xltb in H. apply Qltb_false in H.
  rewrite Hv, Hv1 in H. unfold rval in H.
  assert (Hmag : 1 <= Qmag r).
  { change 1 with (Qmag 1) at 1. apply Qmag_mono; [reflexivity | exact H1]. }
  assert (He : emin < fexp r) by (unfold fexp, prec, emin; lia).
  pose proof (rmant_lower r Hr He) as Hm.
  rewrite Zle_Qle in Hm.
  pose proof (pow2_pos (fexp r)) as Hp.
  assert (Hexp : fexp r = -52).
  { destruct (Z_le_gt_dec (fexp r) (-52)) as [Hle|Hgt];
      [unfold fexp, prec, emin in *; lia|].
    exfalso.
    assert (Hp51 : (pow2 (-51) <= pow2 (fexp r))%Q) by (apply pow2_le; lia).
    assert (H2 : (inject_Z (2 ^ 52) * pow2 (-51) == 2)%Q) by (vm_compute; reflexivity).
    assert (Hb : (0 < pow2 (-51))%Q) by apply pow2_pos.
    assert (Ha : (0 < inject_Z (2 ^ 52))%Q) by (vm_compute; reflexivity).
    assert (Hprod : (inject_Z (2 ^ 52) * pow2 (-51)
                     <= inject_Z (rmant r) * pow2 (fexp r))%Q).
    { apply Qmult_le_compat_nonneg; split; lra. }
    lra. }
  assert (Hmant : rmant r = 2 ^ 52).
  { apply Z.le_antisymm; [|rewrite Zle_Qle; exact Hm].
    rewrite Hexp in H.
    assert (H2 : (inject_Z (2 ^ 52) * pow2 (-52) == 1)%Q) by (vm_compute; reflexivity).
    rewrite <- H2 in H. rewrite Zle_Qle.
    apply (Qmult_le_r _ _ (pow2 (-52))); [apply pow2_pos | exact H]. }
  rewrite round_Q_pos by exact Hr. rewrite Hexp, Hmant. vm_compute. reflexivity.
Qed.

Lemma norm_saturates v c :
  positive_finite c -> xle (F2X c) (F2X v) -> norm_of v c = lit 1.
Proof.
  intros Hc Hcv. destruct lit_1_val as [Hf1 Hv1].
  assert (Hnc : NN c).
  { destruct Hc as (Hf & _ & Hpos). apply NN_finite; [exact Hf | lra]. }
  destruct (xle_cases c v Hnc Hcv) as [E|(Hfc & Hfv & H0 & Hle)].
  - subst v. unfold norm_of. rewrite fdiv_ieee_posinf by exact Hc.
    unfold py_min, flt. rewrite (F2X_finite _ Hf1). reflexivity.
  - destruct Hc as (_ & _ & Hpos).
    unfold norm_of. rewrite fdiv_ieee_finite by assumption.
    unfold py_min, flt.
    destruct (xltb (F2X (lit 1)) (F2X (round_Q _ (F2Q v / F2Q c)))) eqn:E; [reflexivity|].
    apply round_Q_ge_one; [|exact E].
    apply Qle_shift_div_l; [exact Hpos | lra].
Qed.

Lemma capped_clamp c x :
  positive_finite c -> xle (F2X c) (F2X x) -> xle (F2X c) (F2X (py_max (lit 0) x)).
Proof.
  intros Hc H. eapply xle_trans; [exact H|].
  apply py_max_ge_right; [rewrite lit_0; discriminate | apply (xle_not_nan _ _ H)].
Qed.

Lemma exp_at_cap z f :
  (F2Q EXP_CAP <= inject_Z z)%Q -> float_of_Z z = Ok f -> xle (F2X EXP_CAP) (F2X f).
Proof.
  intros H Hf.
  assert (H40 : (F2Q EXP_CAP == inject_Z 40)%Q) by (vm_compute; reflexivity).
  rewrite H40, <- Zle_Qle in H.
  apply (float_of_Z_mono 40 z); [lia | vm_compute; reflexivity | exact Hf].
Qed.

Lemma round_one_6 : py_round_nd (lit 1) 6 = lit 1.
Proof. vm_compute. reflexivity. Qed.

Lemma saturated_on_scored_records (f : factor) (ci ci' : CreditInputs)
    (calc calc' : ComputationResult) :
  validated ci ->
  at_cap f ci ->
  raised f ci ci' ->
  _compute_scores ci = Ok calc ->
  _compute_scores ci' = Ok calc' ->
  norm (component f calc) = lit 1 /\
  norm (component f calc') = norm (component f calc) /\
  points (component f calc') = points (component f calc) /\
  raw_score calc' = raw_score calc /\
  credit_score calc' = credit_score calc.
Proof.
  intros [inputs Hs] Hcap [Hage Hf] Hc Hc'.
  destruct (sanitize_ok_inv inputs ci Hs) as (_ & _ & _ & _ & _ & _ & Hx & _).
  destruct (compute_scores_inv ci calc Hc) as (e & He & ->).
  destruct (compute_scores_inv ci' calc' Hc') as (e' & He' & ->).
  destruct caps_positive as (Ca & Cs & Ce).
  unfold scores_from, raw_of, component_of, score_of. cbv zeta.
  destruct f; destruct Hf as (H1 & H2 & H3);
    cbn [component components c_asset c_salary c_experience norm points
         raw_score credit_score].
  - rewrite H2, H3 in *. rewrite He in He'. inversion He'. subst e'.
    unfold at_cap, fge, fle in Hcap. unfold fle in H1.
    rewrite (norm_saturates (py_max (lit 0) (total_asset_value ci)) ASSET_CAP),
            (norm_saturates (py_max (lit 0) (total_asset_value ci')) ASSET_CAP);
      try assumption;
      [ | apply capped_clamp; [assumption | eapply xle_trans; eassumption]
        | apply capped_clamp; assumption ].
    rewrite round_one_6. repeat split; reflexivity.
  - rewrite H2, H3 in *. rewrite He in He'. inversion He'. subst e'.
    unfold at_cap, fge, fle in Hcap. unfold fle in H1.
    rewrite (norm_saturates (py_max (lit 0) (monthly_salary ci)) SALARY_CAP),
            (norm_saturates (py_max (lit 0) (monthly_salary ci')) SALARY_CAP);
      try assumption;
      [ | apply capped_clamp; [assumption | eapply xle_trans; eassumption]
        | apply capped_clamp; assumption ].
    rewrite round_one_6. repeat split; reflexivity.
  - rewrite H2, H3 in *. unfold at_cap in Hcap.
    assert (Hcap' : (F2Q EXP_CAP <= inject_Z (work_experiences ci'))%Q).
    { eapply Qle_trans; [exact Hcap|]. rewrite <- Zle_Qle. exact H1. }
    rewrite (norm_saturates (py_max (lit 0) e) EXP_CAP),
            (norm_saturates (py_max (lit 0) e') EXP_CAP);
      try assumption;
      [ | apply capped_clamp; [assumption | exact (exp_at_cap _ e' Hcap' He')]
        | apply capped_clamp; [assumption | exact (exp_at_cap _ e Hcap He)] ].
    rewrite round_one_6. repeat split; reflexivity.
Qed.

(** C6. For each factor: once its value has reached its cap, raising it
    further (the other fields fixed) leaves its normalised ratio, which is
    1.0, its earned points, the raw score and the credit score unchanged;
    and both results exist whenever the raised record's experience is an
    int that [float] accepts. *)
Theorem saturation (f : factor) (ci ci' : CreditInputs) :
  validated ci ->
  at_cap f ci ->
  raised f ci ci' ->
  (forall calc calc',
     _compute_scores ci = Ok calc -> _compute_scores ci' = Ok calc' ->
     norm (component f calc) = lit 1 /\
     norm (component f calc') = norm (component f calc) /\
     points (component f calc') = points (component f calc) /\
     raw_score calc' = raw_score calc /\
     credit_score calc' = credit_score calc) /\
  (work_experiences ci' < float_int_limit ->
   exists calc calc', _compute_scores ci = Ok calc /\ _compute_scores ci' = Ok calc').
Proof.
  intros Hv Hcap Hr. split.
  - intros calc calc'. apply (saturated_on_scored_records f ci ci'); assumption.
  - apply (raised_records_scored f); assumption.
Qed.

Lemma saturation_witness :
  validated asset_at_cap_inputs /\
  at_cap Asset asset_at_cap_inputs /\
  raised Asset asset_at_cap_inputs asset_twice_cap_inputs /\
  ((forall calc calc',
      _compute_scores asset_at_cap_inputs = Ok calc ->
      _compute_scores asset_twice_cap_inputs = Ok calc' ->
      norm (component Asset calc) = lit 1 /\
      norm (component Asset calc') = norm (component Asset calc) /\
      points (component Asset calc') = points (component Asset calc) /\
      raw_score calc' = raw_score calc /\
      credit_score calc' = credit_score calc) /\
   (work_experiences asset_twice_cap_inputs < float_int_limit ->
    exists calc calc',
      _compute_scores asset_at_cap_inputs = Ok calc /\
      _compute_scores asset_twice_cap_inputs = Ok calc')).
Proof.
  assert (Hv : validated asset_at_cap_inputs).
  { exists {[ "total_asset_value" := JFloat (lit 10000000000) ]}. vm_compute. reflexivity. }
  assert (Hcap : at_cap Asset asset_at_cap_inputs) by (vm_compute; reflexivity).
  assert (Hr : raised Asset asset_at_cap_inputs asset_twice_cap_inputs)
    by (repeat split; vm_compute; reflexivity).
  split; [exact Hv|]. split; [exact Hcap|]. split; [exact Hr|].
  exact (saturation Asset asset_at_cap_inputs asset_twice_cap_inputs Hv Hcap Hr).
Defined.

(** ** Rounding for display *)



(** The rounding of the breakdown is not applied to the score: here the
    score is 501, and the rounded ratio or the rounded points would give
    500. *)
Example rounded_values_would_change_the_score :
  exists calc,
    _compute_scores small_asset_inputs = Ok calc /\
    credit_score calc = 501 /\
    rne (F2Q (clamp_score (raw_from_points calc))) = 500 /\
    rne (F2Q (clamp_score (raw_from_norms calc))) = 500.
Proof.
  eexists. split; [vm_compute; reflexivity|]. repeat split; vm_compute; reflexivity.
Qed.

(** ** Integers given as numbers and as strings *)

Lemma Qtrunc_nonneg q : (0 <= q)%Q -> Qtrunc q = Qfloor q.
Proof.
  destruct q as [n d]. unfold Qle, Qtrunc, Qfloor. cbn. intros H.
  apply Z.quot_div_nonneg; lia.
Qed.

Lemma Qtrunc_nonpos q : (q <= 0)%Q -> Qtrunc q = Qceiling q.
Proof.
  destruct q as [n d]. unfold Qle, Qtrunc, Qceiling, Qfloor. cbn. intros H.
  rewrite <- (Z.opp_involutive n) at 1. rewrite Z.quot_opp_l by lia.
  f_equal. apply Z.quot_div_nonneg; lia.
Qed.

Lemma eqb_space_false c a : is_space c = false -> is_space a = true -> Ascii.eqb c a = false.
Proof.
  intros Hc Ha. destruct (Ascii.eqb_spec c a) as [->|]; [congruence | reflexivity].
Qed.

Lemma eqb_digit_false c a d : digit_of c = None -> digit_of a = Some d -> Ascii.eqb c a = false.
Proof.
  intros Hc Ha. destruct (Ascii.eqb_spec c a) as [->|]; [congruence | reflexivity].
Qed.

Lemma lstrip_has_char c s : is_space c = false -> has_char c (lstrip s) = has_char c s.
Proof.
  intros Hc. induction s as [|a s IH]; [reflexivity|].
  cbn [lstrip]. destruct (is_space a) eqn:Ha; [|reflexivity].
  cbn [has_char]. rewrite (eqb_space_false c a Hc Ha). exact IH.
Qed.

Lemma rstrip_has_char c s : is_space c = false -> has_char c (rstrip s) = has_char c s.
Proof.
  intros Hc. induction s as [|a s IH]; [reflexivity|].
  cbn [rstrip]. destruct (rstrip s) as [|b r] eqn:E.
  - cbn [has_char] in IH. destruct (is_space a) eqn:Ha.
    + cbn [has_char]. rewrite <- IH, (eqb_space_false c a Hc Ha). reflexivity.
    + cbn [has_char]. rewrite <- IH. reflexivity.
  - cbn [has_char] in *. rewrite IH. reflexivity.
Qed.

Lemma digits_more_has_char c :
  digit_of c = None -> Ascii.eqb c "_" = false ->
  forall k s acc n, (String.length s <= k)%nat ->
    has_char c (snd (digits_more acc n s)) = has_char c s.
Proof.
  intros Hd Hu. induction k as [|k IH]; intros s acc n Hlen.
  - destruct s; [reflexivity | cbn in Hlen; lia].
  - destruct s as [|a s]; [reflexivity|]. cbn [String.length] in Hlen.
    cbn [digits_more]. destruct (digit_of a) as [d|] eqn:Ha.
    + rewrite IH by lia. cbn [has_char]. rewrite (eqb_digit_false c a d Hd Ha). reflexivity.
    + destruct (Ascii.eqb_spec a "_") as [->|Hne]; [|reflexivity].
      destruct s as [|b s]; [reflexivity|].
      destruct (digit_of b) as [d|] eqn:Hb; [|reflexivity].
      cbn [String.length] in Hlen. rewrite IH by lia.
      cbn [has_char]. rewrite Hu, (eqb_digit_false c b d Hd Hb). reflexivity.
Qed.

Lemma digit_part_has_char c s :
  digit_of c = None -> Ascii.eqb c "_" = false ->
  has_char c (snd (digit_part s)) = has_char c s.
Proof.
  intros Hd Hu. destruct s as [|a s]; [reflexivity|].
  cbn [digit_part]. destruct (digit_of a) as [d|] eqn:Ha; [|reflexivity].
  rewrite (digits_more_has_char c Hd Hu (String.length s)) by lia.
  cbn [has_char]. rewrite (eqb_digit_false c a d Hd Ha). reflexivity.
Qed.

Lemma split_sign_has_char c s :
  Ascii.eqb c "+" = false -> Ascii.eqb c "-" = false ->
  has_char c (snd (split_sign s)) = has_char c s.
Proof.
  intros Hp Hm. destruct s as [|a s]; [reflexivity|]. cbn [split_sign].
  destruct (Ascii.eqb_spec a "-") as [->|]; [cbn [snd has_char]; rewrite Hm; reflexivity|].
  destruct (Ascii.eqb_spec a "+") as [->|]; [cbn [snd has_char]; rewrite Hp; reflexivity|].
  reflexivity.
Qed.

(** [int(s)] raises [ValueError] on every string that holds a character
    foreign to integer literals. *)
Lemma int_of_string_foreign c s :
  foreign_char c -> has_char c s = true ->
  int_of_string s = Raise (ValueError "invalid literal for int() with base 10").
Proof.
  intros (Hs & Hd & Hu & Hp & Hm) H. unfold int_of_string.
  destruct (split_sign (strip s)) as [neg body] eqn:E.
  assert (Hb : has_char c body = true).
  { replace body with (snd (split_sign (strip s))) by (rewrite E; reflexivity).
    rewrite split_sign_has_char by assumption. unfold strip.
    rewrite lstrip_has_char, rstrip_has_char by assumption. exact H. }
  pose proof (digit_part_has_char c body Hd Hu) as Hp'. rewrite Hb in Hp'.
  destruct (digit_part body) as [[v n] r]. cbn [snd] in Hp'.
  destruct n; [reflexivity|]. destruct r; [discriminate | reflexivity].
Qed.

Lemma dot_is_foreign : foreign_char ".".
Proof. repeat split. Qed.

Lemma int_key_lookup k (inputs : gmap string json) v :
  dict_get (<[key_name k := v]> inputs) (key_name k) (JInt 0) = v.
Proof. unfold dict_get. rewrite lookup_insert_eq. reflexivity. Qed.

Lemma sanitize_int_field k inputs ci :
  _sanitize_and_cast inputs = Ok ci ->
  py_int (dict_get inputs (key_name k) (JInt 0)) = Ok (int_field k ci).
Proof.
  intros H. destruct (sanitize_ok_inv inputs ci H) as (_ & _ & Hx & Ha & _).
  destruct k; assumption.
Qed.

Lemma py_float_default : py_float (JInt 0) = Ok (S754_zero false).
Proof. reflexivity. Qed.

Lemma py_int_default : py_int (JInt 0) = Ok 0.
Proof. reflexivity. Qed.

Lemma sanitize_singleton k f :
  is_finite f = true -> 0 <= Qtrunc (F2Q f) ->
  exists ci, _sanitize_and_cast {[ key_name k := JFloat f ]} = Ok ci.
Proof.
  intros Hf Hz.
  assert (Hi : py_int (JFloat f) = Ok (Qtrunc (F2Q f))).
  { cbn [py_int]. destruct f; try discriminate; reflexivity. }
  assert (Hneg : (Qtrunc (F2Q f) <? 0) = false) by (apply Z.ltb_ge; exact Hz).
  unfold _sanitize_and_cast, try_except, mbind, result_bind, mret, result_ret, dict_get.
  destruct k; cbn [key_name].
  - rewrite lookup_singleton_eq, !lookup_singleton_ne by discriminate.
    repeat (progress (rewrite ?py_float_default, ?py_int_default, ?Hi; cbv beta iota)).
    replace (flt_int (S754_zero false) 0) with false by reflexivity.
    rewrite Hneg. cbn [orb Z.ltb Z.compare]. eauto.
  - rewrite lookup_singleton_eq, !lookup_singleton_ne by discriminate.
    repeat (progress (rewrite ?py_float_default, ?py_int_default, ?Hi; cbv beta iota)).
    replace (flt_int (S754_zero false) 0) with false by reflexivity.
    rewrite Hneg. cbn [orb Z.ltb Z.compare]. eauto.
Qed.

(** C10. For [work_experiences] and [age]: a finite number is accepted by
    the integer conversion and truncated toward zero, so the sanitiser
    stores the truncated value (and succeeds on it when it is not negative
    and the other fields are absent); the same value written as a string
    with a decimal point fails the conversion, and both tools return the
    [invalid_input] error. *)
Theorem number_truncated_string_rejected
    (k : int_key) (inputs : gmap string json) (f : float) (s : string) :
  is_finite f = true ->
  has_char "." s = true ->
  py_int (JFloat f) = Ok (Qtrunc (F2Q f)) /\
  (forall ci, _sanitize_and_cast (<[key_name k := JFloat f]> inputs) = Ok ci ->
              int_field k ci = Qtrunc (F2Q f)) /\
  (0 <= Qtrunc (F2Q f) ->
   exists ci, _sanitize_and_cast {[ key_name k := JFloat f ]} = Ok ci) /\
  (exists msg,
     classify_customer (<[key_name k := JStr s]> inputs)
       = Ok (Failure (invalid_input msg)) /\
     score_breakdown (<[key_name k := JStr s]> inputs)
       = Ok (Failure (invalid_input msg))).
Proof.
  intros Hf Hs.
  assert (Hi : py_int (JFloat f) = Ok (Qtrunc (F2Q f))).
  { cbn [py_int]. destruct f; try discriminate; reflexivity. }
  split; [exact Hi|]. split; [|split].
  - intros ci Hci. pose proof (sanitize_int_field k _ ci Hci) as H.
    rewrite int_key_lookup, Hi in H. congruence.
  - apply sanitize_singleton, Hf.
  - pose proof (int_of_string_foreign "." s dot_is_foreign Hs) as Hbad.
    destruct (tool_run_total (<[key_name k := JStr s]> inputs))
      as [msg _ Hcl Hbd|ci calc Hsan _ _ _|ci e Hsan _ _ _].
    + exists msg. split; assumption.
    + pose proof (sanitize_int_field k _ ci Hsan) as H.
      rewrite int_key_lookup in H. cbn [py_int] in H. rewrite Hbad in H. discriminate.
    + pose proof (sanitize_int_field k _ ci Hsan) as H.
      rewrite int_key_lookup in H. cbn [py_int] in H. rewrite Hbad in H. discriminate.
Qed.

Lemma number_truncated_string_rejected_witness :
  is_finite (lit (29 # 10)) = true /\
  has_char "." "2.9" = true /\
  Qtrunc (F2Q (lit (29 # 10))) = 2 /\
  (py_int (JFloat (lit (29 # 10))) = Ok (Qtrunc (F2Q (lit (29 # 10)))) /\
   (forall ci, _sanitize_and_cast (<[key_name KExperience := JFloat (lit (29 # 10))]> ∅) = Ok ci ->
               int_field KExperience ci = Qtrunc (F2Q (lit (29 # 10)))) /\
   (0 <= Qtrunc (F2Q (lit (29 # 10))) ->
    exists ci, _sanitize_and_cast {[ key_name KExperience := JFloat (lit (29 # 10)) ]} = Ok ci) /\
   (exists msg,
      classify_customer (<[key_name KExperience := JStr "2.9"]> ∅)
        = Ok (Failure (invalid_input msg)) /\
      score_breakdown (<[key_name KExperience := JStr "2.9"]> ∅)
        = Ok (Failure (invalid_input msg)))).
Proof.
  split; [vm_compute; reflexivity|]. split; [vm_compute; reflexivity|].
  split; [vm_compute; reflexivity|].
  apply (number_truncated_string_rejected KExperience ∅ (lit (29 # 10)) "2.9");
    vm_compute; reflexivity.
Defined.

(** ** The sanitiser's rejections *)

(** Whatever makes the sanitiser fail, both tools answer with the
    [invalid_input] error and the engine is not run. *)
Lemma rejected_inputs_get_invalid_input inputs e :
  _sanitize_and_cast inputs = Raise e ->
  exists msg,
    e = ValueError msg /\
    classify_customer inputs = Ok (Failure (invalid_input msg)) /\
    score_breakdown inputs = Ok (Failure (invalid_input msg)).
Proof.
  intros H. destruct (sanitize_raise_inv inputs e H) as [msg ->].
  exists msg. split; [reflexivity|].
  unfold classify_customer, score_breakdown. rewrite H. split; reflexivity.
Qed.

(** A negative field or a failed conversion makes the sanitiser fail. *)
Lemma sanitize_rejects inputs :
  (exists e, py_float (dict_get inputs "total_asset_value" (JInt 0)) = Raise e) \/
  (exists e, py_float (dict_get inputs "monthly_salary" (JInt 0)) = Raise e) \/
  (exists e, py_int (dict_get inputs "work_experiences" (JInt 0)) = Raise e) \/
  (exists e, py_int (dict_get inputs "age" (JInt 0)) = Raise e) \/
  (exists x, py_float (dict_get inputs "total_asset_value" (JInt 0)) = Ok x /\
             flt_int x 0 = true) \/
  (exists x, py_float (dict_get inputs "monthly_salary" (JInt 0)) = Ok x /\
             flt_int x 0 = true) \/
  (exists z, py_int (dict_get inputs "work_experiences" (JInt 0)) = Ok z /\ z < 0) \/
  (exists z, py_int (dict_get inputs "age" (JInt 0)) = Ok z /\ z < 0) ->
  exists e, _sanitize_and_cast inputs = Raise e.
Proof.
  intros H. destruct (_sanitize_and_cast inputs) as [ci|e] eqn:Es; [|eauto].
  exfalso. destruct (sanitize_ok_inv inputs ci Es) as (Ha & Hs & Hx & Hg & Na & Ns & Nx & Ng).
  destruct H as [[e H]|[[e H]|[[e H]|[[e H]|[[x [H N]]|[[x [H N]]|[[z [H N]]|[z [H N]]]]]]]]].
  - congruence.
  - congruence.
  - congruence.
  - congruence.
  - assert (x = total_asset_value ci) by congruence. congruence.
  - assert (x = monthly_salary ci) by congruence. congruence.
  - assert (z = work_experiences ci) by congruence. lia.
  - assert (z = age ci) by congruence. lia.
Qed.

(** * Further properties of the service *)

(** ** What the tools read of their input *)

Lemma sanitize_reads_four_keys (d d' : gmap string json) :
  (forall k, k ∈ field_names -> dict_get d k (JInt 0) = dict_get d' k (JInt 0)) ->
  _sanitize_and_cast d = _sanitize_and_cast d'.
Proof.
  intros H. unfold _sanitize_and_cast.
  rewrite (H "total_asset_value"), (H "monthly_salary"),
          (H "work_experiences"), (H "age");
    [reflexivity | | | |]; unfold field_names; repeat constructor.
Qed.

Lemma tools_after_sanitiser (d d' : gmap string json) :
  _sanitize_and_cast d = _sanitize_and_cast d' ->
  classify_customer d = classify_customer d' /\
  score_breakdown d = score_breakdown d'.
Proof.
  intros H. unfold classify_customer, score_breakdown. rewrite H. split; reflexivity.
Qed.

(** X1. The sanitiser and both tools read the input dict at the four keys
    [total_asset_value], [monthly_salary], [work_experiences] and [age]
    only: two dicts that agree on these keys get the same validated record
    or the same error, and the same answer from each tool, whatever else
    they hold. *)
Theorem only_four_fields_read (d d' : gmap string json) :
  same_fields d d' ->
  _sanitize_and_cast d = _sanitize_and_cast d' /\
  classify_customer d = classify_customer d' /\
  score_breakdown d = score_breakdown d'.
Proof.
  intros H.
  assert (Hs : _sanitize_and_cast d = _sanitize_and_cast d').
  { apply sanitize_reads_four_keys. intros k Hk. unfold dict_get. rewrite (H k Hk). reflexivity. }
  split; [exact Hs | apply tools_after_sanitiser, Hs].
Qed.

Lemma only_four_fields_read_witness :
  same_fields ∅ {[ "customer_name" := JStr "Lan" ]} /\
  _sanitize_and_cast ∅ = _sanitize_and_cast {[ "customer_name" := JStr "Lan" ]} /\
  classify_customer ∅ = classify_customer {[ "customer_name" := JStr "Lan" ]} /\
  score_breakdown ∅ = score_breakdown {[ "customer_name" := JStr "Lan" ]}.
Proof.
  assert (H : same_fields ∅ {[ "customer_name" := JStr "Lan" ]}).
  { intros k Hk. unfold field_names in Hk.
    repeat (apply elem_of_cons in Hk as [->|Hk]); try reflexivity.
    apply elem_of_nil in Hk. destruct Hk. }
  split; [exact H|]. apply (only_four_fields_read _ _ H).
Defined.

(** X2. A field that is missing counts as the integer 0: adding the key
    with the value 0 to a dict that lacks it changes neither the
    sanitiser's result nor the answer of either tool. *)
Theorem missing_field_is_zero (d : gmap string json) (k : string) :
  k ∈ field_names -> d !! k = None ->
  _sanitize_and_cast (<[k := JInt 0]> d) = _sanitize_and_cast d /\
  classify_customer (<[k := JInt 0]> d) = classify_customer d /\
  score_breakdown (<[k := JInt 0]> d) = score_breakdown d.
Proof.
  intros Hk Hnone.
  assert (Hs : _sanitize_and_cast (<[k := JInt 0]> d) = _sanitize_and_cast d).
  { apply sanitize_reads_four_keys. intros k' _. unfold dict_get.
    destruct (decide (k = k')) as [<-|Hne].
    - rewrite lookup_insert_eq, Hnone. reflexivity.
    - rewrite lookup_insert_ne by exact Hne. reflexivity. }
  split; [exact Hs | apply tools_after_sanitiser, Hs].
Qed.

Lemma missing_field_is_zero_witness :
  "age" ∈ field_names /\
  ({[ "monthly_salary" := JInt 5 ]} : gmap string json) !! "age" = None /\
  _sanitize_and_cast (<["age" := JInt 0]> {[ "monthly_salary" := JInt 5 ]})
    = _sanitize_and_cast {[ "monthly_salary" := JInt 5 ]} /\
  classify_customer (<["age" := JInt 0]> {[ "monthly_salary" := JInt 5 ]})
    = classify_customer {[ "monthly_salary" := JInt 5 ]} /\
  score_breakdown (<["age" := JInt 0]> {[ "monthly_salary" := JInt 5 ]})
    = score_breakdown {[ "monthly_salary" := JInt 5 ]}.
Proof.
  assert (Hk : "age" ∈ field_names) by (unfold field_names; repeat constructor).
  assert (Hn : ({[ "monthly_salary" := JInt 5 ]} : gmap string json) !! "age" = None)
    by (apply lookup_singleton_ne; discriminate).
  split; [exact Hk|]. split; [exact Hn|].
  apply (missing_field_is_zero _ _ Hk Hn).
Defined.

(** ** Rejected inputs *)

Lemma sanitize_raise_cases inputs e :
  _sanitize_and_cast inputs = Raise e ->
  (e = ValueError "Numeric inputs must be non-negative." /\
   forall fld e', ~ conversion_fails fld inputs e') \/
  (exists fld e', conversion_fails fld inputs e' /\
     e = ValueError ("Invalid input types: " +:+ exn_str e')).
Proof.
  unfold _sanitize_and_cast, try_except, mbind, result_bind, mret, result_ret.
  destruct (py_float (dict_get inputs "total_asset_value" (JInt 0))) as [a|e1] eqn:Ea;
    [|intros H; inversion H; right; exists FAsset, e1; split; [exact Ea | reflexivity]].
  destruct (py_float (dict_get inputs "monthly_salary" (JInt 0))) as [s|e1] eqn:Es;
    [|intros H; inversion H; right; exists FSalary, e1; split; [exact Es | reflexivity]].
  destruct (py_int (dict_get inputs "work_experiences" (JInt 0))) as [x|e1] eqn:Ex;
    [|intros H; inversion H; right; exists FExperience, e1; split; [exact Ex | reflexivity]].
  destruct (py_int (dict_get inputs "age" (JInt 0))) as [g|e1] eqn:Eg;
    [|intros H; inversion H; right; exists FAge, e1; split; [exact Eg | reflexivity]].
  cbv beta iota.
  destruct (_ || _ || _ || _); intros H; inversion H.
  left. split; [reflexivity|].
  intros fld e' Hf. destruct fld; unfold conversion_fails, field_name in Hf; congruence.
Qed.

Lemma conversion_failure_rejected fld inputs e :
  conversion_fails fld inputs e ->
  exists e', _sanitize_and_cast inputs = Raise (ValueError ("Invalid input types: " +:+ exn_str e')).
Proof.
  intros Hf. destruct (_sanitize_and_cast inputs) as [ci|e0] eqn:Es.
  - exfalso. destruct (sanitize_ok_inv inputs ci Es) as (Ha & Hs & Hx & Hg & _).
    destruct fld; unfold conversion_fails, field_name in Hf; congruence.
  - destruct (sanitize_raise_cases inputs e0 Es) as [[_ Hno]|(fld' & e' & _ & ->)].
    + exfalso. exact (Hno fld e Hf).
    + eauto.
Qed.

Lemma field_lookup fld (inputs : gmap string json) v :
  inputs !! field_name fld = Some v -> dict_get inputs (field_name fld) (JInt 0) = v.
Proof. intros H. unfold dict_get. rewrite H. reflexivity. Qed.

(** X3. A field that holds null, an array or an object is rejected: both
    tools answer [invalid_input], and the details start with
    "Invalid input types: ". *)
Theorem wrong_type_rejected (fld : field) (inputs : gmap string json) (v : json) :
  inputs !! field_name fld = Some v ->
  not_a_number v ->
  exists m,
    classify_customer inputs
      = Ok (Failure (invalid_input ("Invalid input types: " +:+ m))) /\
    score_breakdown inputs
      = Ok (Failure (invalid_input ("Invalid input types: " +:+ m))).
Proof.
  intros Hv Hn. apply field_lookup in Hv.
  assert (Hf : exists e, conversion_fails fld inputs e).
  { destruct fld; unfold conversion_fails; rewrite Hv;
      destruct v; try destruct Hn; cbn [py_float py_int]; eauto. }
  destruct Hf as [e Hf].
  destruct (conversion_failure_rejected fld inputs e Hf) as [e' Hs].
  exists (exn_str e'). unfold classify_customer, score_breakdown. rewrite Hs.
  split; reflexivity.
Qed.

Lemma wrong_type_rejected_witness :
  ({[ "age" := JNull ]} : gmap string json) !! field_name FAge = Some JNull /\
  not_a_number JNull /\
  exists m,
    classify_customer {[ "age" := JNull ]}
      = Ok (Failure (invalid_input ("Invalid input types: " +:+ m))) /\
    score_breakdown {[ "age" := JNull ]}
      = Ok (Failure (invalid_input ("Invalid input types: " +:+ m))).
Proof.
  split; [reflexivity|]. split; [exact I|].
  apply (wrong_type_rejected FAge {[ "age" := JNull ]} JNull); [reflexivity | exact I].
Defined.

(** A negative int is converted to a float below zero, when it is
    converted at all. *)
Lemma float_of_Z_negative z f : z < 0 -> float_of_Z z = Ok f -> flt_int f 0 = true.
Proof.
  intros Hz. destruct z as [|p|p]; try lia. unfold float_of_Z, round_Q.
  change (Qnum (inject_Z (Z.neg p))) with (Z.neg p). cbv beta iota zeta.
  change (- inject_Z (Z.neg p))%Q with (inject_Z (Z.pos p)).
  set (q := inject_Z (Z.pos p)).
  assert (Hq1 : (1 <= q)%Q).
  { unfold q. change 1%Q with (inject_Z 1). rewrite <- Zle_Qle. lia. }
  assert (Hq : (0 < q)%Q) by lra.
  assert (Hmag : 1 <= Qmag q).
  { change 1 with (Qmag 1) at 1. apply Qmag_mono; [reflexivity | exact Hq1]. }
  assert (He : emin < fexp q) by (unfold fexp, prec, emin; lia).
  pose proof (rmant_lower q Hq He) as Hm. unfold rmant in Hm.
  destruct (rne (q / pow2 (fexp q))) as [|m|m] eqn:Em; try lia.
  unfold SFpack. destruct (Qle_bool _ _); [discriminate|].
  pose proof (pow2_pos (fexp q)) as Hp. pose proof (pow2_pos (fexp q + 1)) as Hp1.
  destruct (Pos.eqb _ _); intros H; inversion H; subst f;
    unfold flt_int, F2X, F2Q, xltb; apply Qltb_true.
  - assert (Hn : (inject_Z (Z.neg (2 ^ 52)) < 0)%Q) by reflexivity.
    change (inject_Z 0) with 0%Q. nra.
  - assert (Hn : (inject_Z (Z.neg m) < 0)%Q) by reflexivity.
    change (inject_Z 0) with 0%Q. nra.
Qed.

Lemma Qtrunc_le_minus_one q : (q <= -1)%Q -> Qtrunc q < 0.
Proof.
  intros H. rewrite Qtrunc_nonpos by lra. unfold Qceiling.
  assert (H1 : 1 <= Qfloor (- q)).
  { change 1 with (Qfloor 1). apply Qfloor_resp_le. lra. }
  lia.
Qed.

(** X4. A number below zero is rejected by both tools with the
    [invalid_input] error: an int below 0 in any of the four fields, a
    float below 0 as asset or salary, a float of -1 or less as experience
    or age. *)
Theorem negative_number_rejected (fld : field) (inputs : gmap string json) (v : json) :
  inputs !! field_name fld = Some v ->
  below_zero fld v ->
  exists msg,
    classify_customer inputs = Ok (Failure (invalid_input msg)) /\
    score_breakdown inputs = Ok (Failure (invalid_input msg)).
Proof.
  intros Hv Hneg. apply field_lookup in Hv.
  assert (Hr : exists e, _sanitize_and_cast inputs = Raise e).
  { apply sanitize_rejects.
    destruct v as [|b|z|x|s|l|l]; try (exfalso; destruct fld; exact Hneg).
    - (* an int *)
      assert (Hz : z < 0) by (destruct fld; exact Hneg).
      destruct fld; cbn [field_name] in Hv.
      + destruct (float_of_Z z) as [f|e] eqn:Ef.
        * right. right. right. right. left. exists f. rewrite Hv. cbn [py_float].
          split; [exact Ef | exact (float_of_Z_negative z f Hz Ef)].
        * left. exists e. rewrite Hv. exact Ef.
      + destruct (float_of_Z z) as [f|e] eqn:Ef.
        * do 5 right. left. exists f. rewrite Hv. cbn [py_float].
          split; [exact Ef | exact (float_of_Z_negative z f Hz Ef)].
        * right. left. exists e. rewrite Hv. exact Ef.
      + do 6 right. left. exists z. rewrite Hv. split; [reflexivity | exact Hz].
      + do 7 right. exists z. rewrite Hv. split; [reflexivity | exact Hz].
    - (* a float *)
      destruct fld; cbn [field_name] in Hv; cbn [below_zero] in Hneg.
      + do 4 right. left. exists x. rewrite Hv. split; [reflexivity | exact Hneg].
      + do 5 right. left. exists x. rewrite Hv. split; [reflexivity | exact Hneg].
      + destruct x as [s|s| |s m e]; try discriminate.
        * do 2 right. left. rewrite Hv. cbn [py_int int_of_float]. eauto.
        * do 6 right. left. rewrite Hv. cbn [py_int int_of_float]. eexists. split; [reflexivity|].
          apply Qtrunc_le_minus_one. unfold fle in Hneg.
          change (F2X (lit (-1))) with (XFin (F2Q (lit (-1)))) in Hneg.
          cbn [F2X] in Hneg. apply xle_fin in Hneg.
          assert (Hl : (F2Q (lit (-1)) == -1)%Q) by (vm_compute; reflexivity).
          rewrite Hl in Hneg.
          exact Hneg.
      + destruct x as [s|s| |s m e]; try discriminate.
        * do 3 right. left. rewrite Hv. cbn [py_int int_of_float]. eauto.
        * do 7 right. rewrite Hv. cbn [py_int int_of_float]. eexists. split; [reflexivity|].
          apply Qtrunc_le_minus_one. unfold fle in Hneg.
          change (F2X (lit (-1))) with (XFin (F2Q (lit (-1)))) in Hneg.
          cbn [F2X] in Hneg. apply xle_fin in Hneg.
          assert (Hl : (F2Q (lit (-1)) == -1)%Q) by (vm_compute; reflexivity).
          rewrite Hl in Hneg.
          exact Hneg. }
  destruct Hr as [e Hr].
  destruct (rejected_inputs_get_invalid_input inputs e Hr) as (msg & _ & Hc & Hb).
  exists msg. split; assumption.
Qed.

Lemma negative_number_rejected_witness :
  ({[ "monthly_salary" := JInt (-1) ]} : gmap string json) !! field_name FSalary
    = Some (JInt (-1)) /\
  below_zero FSalary (JInt (-1)) /\
  exists msg,
    classify_customer {[ "monthly_salary" := JInt (-1) ]} = Ok (Failure (invalid_input msg)) /\
    score_breakdown {[ "monthly_salary" := JInt (-1) ]} = Ok (Failure (invalid_input msg)).
Proof.
  split; [reflexivity|]. split; [reflexivity|].
  apply (negative_number_rejected FSalary {[ "monthly_salary" := JInt (-1) ]} (JInt (-1)));
    reflexivity.
Defined.

(** X5. The error answers of the tools: the error is always
    [invalid_input]; the details are either the sentence about negative
    inputs, and then every conversion had succeeded, or
    "Invalid input types: " followed by the message of an exception that
    the conversion of one of the four fields raised. *)
Theorem error_details (inputs : gmap string json) (er : ErrorResponse) :
  classify_customer inputs = Ok (Failure er) \/ score_breakdown inputs = Ok (Failure er) ->
  error er = "invalid_input" /\
  ((details er = "Numeric inputs must be non-negative." /\
    forall fld e, ~ conversion_fails fld inputs e) \/
   (exists fld e, conversion_fails fld inputs e /\
      details er = "Invalid input types: " +:+ exn_str e)).
Proof.
  intros H.
  destruct (tool_run_total inputs) as [msg Hs Hcl Hbd|ci calc _ _ Hcl Hbd|ci e _ _ Hcl Hbd];
    rewrite Hcl, Hbd in H; try (destruct H; discriminate).
  assert (E : er = invalid_input msg) by (destruct H as [H|H]; inversion H; reflexivity).
  subst er. split; [reflexivity|]. cbn [invalid_input details].
  destruct (sanitize_raise_cases inputs _ Hs) as [[Hm Hno]|(fld & e' & Hf & Hm)];
    inversion Hm; subst msg.
  - left. split; [reflexivity | exact Hno].
  - right. exists fld, e'. split; [exact Hf | reflexivity].
Qed.

Lemma error_details_witness :
  (classify_customer {[ "age" := JInt (-1) ]}
     = Ok (Failure (invalid_input "Numeric inputs must be non-negative.")) \/
   score_breakdown {[ "age" := JInt (-1) ]}
     = Ok (Failure (invalid_input "Numeric inputs must be non-negative."))) /\
  error (invalid_input "Numeric inputs must be non-negative.") = "invalid_input" /\
  ((details (invalid_input "Numeric inputs must be non-negative.")
      = "Numeric inputs must be non-negative." /\
    forall fld e, ~ conversion_fails fld {[ "age" := JInt (-1) ]} e) \/
   (exists fld e, conversion_fails fld {[ "age" := JInt (-1) ]} e /\
      details (invalid_input "Numeric inputs must be non-negative.")
        = "Invalid input types: " +:+ exn_str e)).
Proof.
  assert (H : classify_customer {[ "age" := JInt (-1) ]}
     = Ok (Failure (invalid_input "Numeric inputs must be non-negative.")) \/
   score_breakdown {[ "age" := JInt (-1) ]}
     = Ok (Failure (invalid_input "Numeric inputs must be non-negative.")))
    by (left; vm_compute; reflexivity).
  split; [exact H|]. exact (error_details _ _ H).
Defined.

(** X6. The exceptions of the tools: the only exception that leaves
    [classify_customer] or [score_breakdown] is the [OverflowError] of the
    engine's conversion of [work_experiences] to a float, and it is raised
    exactly when the sanitiser has accepted an experience of
    [2^1024 - 2^970] or more. *)
Theorem tool_exceptions (inputs : gmap string json) :
  (forall e, classify_customer inputs = Raise e \/ score_breakdown inputs = Raise e ->
     e = OverflowError "int too large to convert to float" /\
     exists ci, _sanitize_and_cast inputs = Ok ci /\
                float_int_limit <= work_experiences ci) /\
  (forall ci, _sanitize_and_cast inputs = Ok ci ->
     float_int_limit <= work_experiences ci ->
     classify_customer inputs = Raise (OverflowError "int too large to convert to float") /\
     score_breakdown inputs = Raise (OverflowError "int too large to convert to float")).
Proof.
  split.
  - intros e H.
    destruct (tool_run_total inputs) as [msg Hs Hcl Hbd|ci calc _ _ Hcl Hbd|ci e' Hs Hc Hcl Hbd];
      rewrite Hcl, Hbd in H; try (destruct H; discriminate).
    assert (e' = e) by (destruct H as [H|H]; inversion H; reflexivity). subst e'.
    destruct (sanitize_ok_inv inputs ci Hs) as (_ & _ & _ & _ & _ & _ & Hx & _).
    destruct (Z_lt_le_dec (work_experiences ci) float_int_limit) as [Hlt|Hge].
    + destruct (compute_scores_ok ci (conj Hx Hlt)) as [calc Hcalc]. congruence.
    + rewrite (compute_scores_overflow ci Hge) in Hc. inversion Hc. eauto.
  - intros ci Hs Hge. unfold classify_customer, score_breakdown.
    rewrite Hs, (compute_scores_overflow ci Hge). split; reflexivity.
Qed.

(** ** Bounds on what the engine returns *)

Lemma F2X_between x lo hi :
  xle (XFin lo) (F2X x) -> xle (F2X x) (XFin hi) ->
  is_finite x = true /\ (lo <= F2Q x <= hi)%Q.
Proof.
  intros Hlo Hhi. destruct (F2X x) as [| |r|] eqn:E; try discriminate.
  apply F2X_fin_inv in E. destruct E as [Hf ->].
  apply xle_fin in Hlo. apply xle_fin in Hhi. auto.
Qed.

Lemma NN_zero : NN (lit 0).
Proof. reflexivity. Qed.

(** Every result of the engine is [scores_from] at three floats that are
    not negative and not NaN. *)
Lemma scored_inv ci calc :
  _compute_scores ci = Ok calc ->
  exists a s e g, calc = scores_from a s e g /\ NN a /\ NN s /\ NN e.
Proof.
  intros H. destruct (compute_scores_inv ci calc H) as (f & _ & ->).
  do 4 eexists. split; [reflexivity|]. repeat split; apply py_max_zero_NN.
Qed.

Lemma raw_of_zero : raw_of (lit 0) (lit 0) (lit 0) = BASE_SCORE.
Proof. vm_compute. reflexivity. Qed.

Lemma raw_of_top :
  raw_of (S754_infinity false) (S754_infinity false) (S754_infinity false)
  = fadd BASE_SCORE BONUS_POOL.
Proof. vm_compute. reflexivity. Qed.

Lemma raw_of_bounds a s e :
  NN a -> NN s -> NN e ->
  is_finite (raw_of a s e) = true /\ (500 <= F2Q (raw_of a s e) <= 800)%Q.
Proof.
  intros Ha Hs He.
  destruct BASE_SCORE_val as [Hfb Hb]. destruct TOP_SCORE_val as [Hft Ht].
  assert (Hlo : xle (F2X (raw_of (lit 0) (lit 0) (lit 0))) (F2X (raw_of a s e))).
  { apply raw_of_mono; try exact NN_zero; assumption. }
  assert (Hhi : xle (F2X (raw_of a s e))
                    (F2X (raw_of (S754_infinity false) (S754_infinity false)
                                 (S754_infinity false)))).
  { apply raw_of_mono; try assumption; apply xle_posinf, NN_not_nan; assumption. }
  rewrite raw_of_zero, (F2X_finite _ Hfb) in Hlo.
  rewrite raw_of_top, (F2X_finite _ Hft) in Hhi.
  destruct (F2X_between _ _ _ Hlo Hhi) as [Hf [H1 H2]].
  split; [exact Hf|]. rewrite <- Hb, <- Ht. split; assumption.
Qed.

(** Within [[500, 800]] the clamp changes nothing. *)
Lemma clamp_inactive raw :
  is_finite raw = true -> (500 <= F2Q raw <= 800)%Q ->
  (F2Q (clamp_score raw) == F2Q raw)%Q.
Proof.
  intros Hf [Hlo Hhi].
  destruct BASE_SCORE_val as [Hfb Hb]. destruct TOP_SCORE_val as [Hft Ht].
  assert (Hmin : py_min raw (fadd BASE_SCORE BONUS_POOL) = raw).
  { unfold py_min, flt. rewrite (F2X_finite _ Hft), (F2X_finite _ Hf). unfold xltb.
    destruct (Qltb _ _) eqn:E1; [|reflexivity]. apply Qltb_true in E1. lra. }
  unfold clamp_score. rewrite Hmin. unfold py_max, fgt, flt.
  rewrite (F2X_finite _ Hfb), (F2X_finite _ Hf). unfold xltb.
  destruct (Qltb _ _) eqn:E2; [reflexivity|].
  apply Qltb_false in E2. lra.
Qed.

(** X7. The raw score that the engine returns is a finite float within
    [[500, 800]], so the clamp between the base score and the base score
    plus the bonus pool never changes its value: the credit score is
    [round] of the raw score. *)
Theorem raw_score_within_bounds (ci : CreditInputs) (calc : ComputationResult) :
  _compute_scores ci = Ok calc ->
  is_finite (raw_score calc) = true /\
  (500 <= F2Q (raw_score calc) <= 800)%Q /\
  (F2Q (clamp_score (raw_score calc)) == F2Q (raw_score calc))%Q /\
  py_round (raw_score calc) = Ok (credit_score calc).
Proof.
  intros H. destruct (scored_inv ci calc H) as (a & s & e & g & -> & Ha & Hs & He).
  unfold scores_from. cbv zeta. cbn [raw_score credit_score].
  destruct (raw_of_bounds a s e Ha Hs He) as [Hf Hr].
  pose proof (clamp_inactive _ Hf Hr) as Hc.
  split; [exact Hf|]. split; [exact Hr|]. split; [exact Hc|].
  rewrite (py_round_finite _ Hf). f_equal. symmetry. apply rne_comp, Hc.
Qed.

Lemma raw_score_within_bounds_witness :
  _compute_scores zero_inputs = Ok (scores_from (lit 0) (lit 0) (lit 0) 0) /\
  is_finite (raw_score (scores_from (lit 0) (lit 0) (lit 0) 0)) = true /\
  (500 <= F2Q (raw_score (scores_from (lit 0) (lit 0) (lit 0) 0)) <= 800)%Q /\
  (F2Q (clamp_score (raw_score (scores_from (lit 0) (lit 0) (lit 0) 0)))
     == F2Q (raw_score (scores_from (lit 0) (lit 0) (lit 0) 0)))%Q /\
  py_round (raw_score (scores_from (lit 0) (lit 0) (lit 0) 0))
    = Ok (credit_score (scores_from (lit 0) (lit 0) (lit 0) 0)).
Proof.
  assert (H : _compute_scores zero_inputs = Ok (scores_from (lit 0) (lit 0) (lit 0) 0))
    by (vm_compute; reflexivity).
  split; [exact H|]. exact (raw_score_within_bounds _ _ H).
Defined.

(** *** The entries of the breakdown *)

Lemma py_round_nd_range x n k :
  is_finite x = true -> (0 <= F2Q x <= inject_Z k)%Q ->
  is_finite (lit (inject_Z k)) = true ->
  is_finite (py_round_nd x n) = true /\
  (0 <= F2Q (py_round_nd x n) <= F2Q (lit (inject_Z k)))%Q.
Proof.
  intros Hf [H0 Hk] Hfk.
  assert (Hk0 : (0 <= inject_Z k)%Q) by lra.
  assert (Hlit : (0 <= F2Q (lit (inject_Z k)))%Q).
  { pose proof (round_Q_nonneg false _ Hk0) as Hn.
    unfold lit. unfold lit in Hfk. rewrite (F2X_finite _ Hfk) in Hn. apply xle_fin, Hn. }
  destruct x as [s|s| |s m e]; try discriminate.
  - cbn [py_round_nd]. split; [reflexivity|]. split; [exact H0 | exact Hlit].
  - cbn [py_round_nd]. set (x := S754_finite s m e) in *.
    set (p := inject_Z (10 ^ Z.of_N n)).
    assert (Hp : (0 < p)%Q).
    { unfold p. change 0%Q with (inject_Z 0). rewrite <- Zlt_Qlt.
      apply Z.pow_pos_nonneg; lia. }
    assert (Hr0 : 0 <= rne (F2Q x * p)).
    { apply rne_ge_Z. change (inject_Z 0) with 0%Q. apply Qmult_le_0_compat; lra. }
    assert (Hr1 : rne (F2Q x * p) <= k * 10 ^ Z.of_N n).
    { apply rne_le_Z. rewrite inject_Z_mult. fold p.
      apply Qmult_le_compat_r; lra. }
    set (r := rne (F2Q x * p)) in *.
    assert (Hq0 : (0 <= inject_Z r / p)%Q).
    { apply Qle_shift_div_l; [exact Hp|]. rewrite Qmult_0_l.
      change 0%Q with (inject_Z 0). rewrite <- Zle_Qle. exact Hr0. }
    assert (Hq1 : (inject_Z r / p <= inject_Z k)%Q).
    { apply Qle_shift_div_r; [exact Hp|]. unfold p. rewrite <- inject_Z_mult, <- Zle_Qle.
      exact Hr1. }
    pose proof (round_Q_nonneg s _ Hq0) as Hlo.
    pose proof (round_Q_mono s false _ _ Hq0 Hq1) as Hhi.
    fold (lit (inject_Z k)) in Hhi. rewrite (F2X_finite _ Hfk) in Hhi.
    destruct (F2X_between _ _ _ Hlo Hhi) as [Hfr Hr]. split; assumption.
Qed.

Lemma full_share f :
  score_of (S754_infinity false) (cap_of f) (weight_of f) = lit (inject_Z (max_points f)) /\
  is_finite (lit (inject_Z (max_points f))) = true /\
  (F2Q (lit (inject_Z (max_points f))) == inject_Z (max_points f))%Q.
Proof. destruct f; repeat split; vm_compute; reflexivity. Qed.

Lemma cap_of_positive f : positive_finite (cap_of f).
Proof. destruct caps_positive as (Ca & Cs & Ce). destruct f; assumption. Qed.

Lemma weight_of_share f : share_ok (weight_of f).
Proof. destruct shares_ok as (Wa & Ws & We). destruct f; assumption. Qed.

Lemma score_of_range f v :
  NN v ->
  is_finite (score_of v (cap_of f) (weight_of f)) = true /\
  (0 <= F2Q (score_of v (cap_of f) (weight_of f)) <= inject_Z (max_points f))%Q.
Proof.
  intros Hv. destruct (full_share f) as (Hfull & Hff & Hval).
  pose proof (score_of_NN v _ _ Hv (cap_of_positive f) (weight_of_share f)) as Hlo.
  assert (Hhi : xle (F2X (score_of v (cap_of f) (weight_of f)))
                    (F2X (score_of (S754_infinity false) (cap_of f) (weight_of f)))).
  { apply score_of_mono; [exact Hv | apply xle_posinf, NN_not_nan, Hv
                          | apply cap_of_positive | apply weight_of_share]. }
  rewrite Hfull, (F2X_finite _ Hff) in Hhi.
  destruct (F2X_between _ _ _ Hlo Hhi) as [Hf [H0 H1]].
  split; [exact Hf|]. rewrite <- Hval. split; assumption.
Qed.

Lemma component_scores_from f a s e g :
  component f (scores_from a s e g) =
  component_of (match f with Asset => a | Salary => s | Experience => e end)
               (cap_of f) (weight_of f).
Proof. destruct f; reflexivity. Qed.

(** X8. The entries of the breakdown, for each factor: the value is not
    negative; the cap is the configured one; the displayed ratio is a
    finite float in [[0, 1]]; the displayed points are a finite float
    between 0 and the factor's share of the bonus pool (150, 90 and 60
    points for asset, salary and experience). *)
Theorem components_bounded (f : factor) (ci : CreditInputs) (calc : ComputationResult) :
  _compute_scores ci = Ok calc ->
  NN (value (component f calc)) /\
  cap (component f calc) = cap_of f /\
  is_finite (norm (component f calc)) = true /\
  (0 <= F2Q (norm (component f calc)) <= 1)%Q /\
  is_finite (points (component f calc)) = true /\
  (0 <= F2Q (points (component f calc)) <= inject_Z (max_points f))%Q.
Proof.
  intros H. destruct (scored_inv ci calc H) as (a & s & e & g & -> & Ha & Hs & He).
  rewrite component_scores_from.
  set (v := match f with Asset => a | Salary => s | Experience => e end).
  assert (Hv : NN v) by (destruct f; assumption).
  unfold component_of. cbn [value cap norm points].
  split; [exact Hv|]. split; [reflexivity|].
  destruct (norm_of_range v (cap_of f) Hv (cap_of_positive f)) as [Hfn Hn].
  destruct (score_of_range f v Hv) as [Hfs Hs'].
  destruct (full_share f) as (_ & Hff & Hval).
  destruct lit_1_val as [Hf1 H1].
  destruct (py_round_nd_range (norm_of v (cap_of f)) 6 1 Hfn Hn Hf1) as [Hrn Hrn'].
  destruct (py_round_nd_range (score_of v (cap_of f) (weight_of f)) 2 (max_points f)
              Hfs Hs' Hff) as [Hrp Hrp'].
  split; [exact Hrn|]. split; [rewrite <- H1; exact Hrn'|].
  split; [exact Hrp|]. rewrite <- Hval. exact Hrp'.
Qed.

Lemma components_bounded_witness :
  _compute_scores zero_inputs = Ok (scores_from (lit 0) (lit 0) (lit 0) 0) /\
  NN (value (component Asset (scores_from (lit 0) (lit 0) (lit 0) 0))) /\
  cap (component Asset (scores_from (lit 0) (lit 0) (lit 0) 0)) = cap_of Asset /\
  is_finite (norm (component Asset (scores_from (lit 0) (lit 0) (lit 0) 0))) = true /\
  (0 <= F2Q (norm (component Asset (scores_from (lit 0) (lit 0) (lit 0) 0))) <= 1)%Q /\
  is_finite (points (component Asset (scores_from (lit 0) (lit 0) (lit 0) 0))) = true /\
  (0 <= F2Q (points (component Asset (scores_from (lit 0) (lit 0) (lit 0) 0)))
     <= inject_Z (max_points Asset))%Q.
Proof.
  assert (H : _compute_scores zero_inputs = Ok (scores_from (lit 0) (lit 0) (lit 0) 0))
    by (vm_compute; reflexivity).
  split; [exact H|]. exact (components_bounded Asset _ _ H).
Defined.

(** ** The sanitiser and the tools, step by step *)

Lemma sanitize_unfold d :
  _sanitize_and_cast d =
  match py_float (dict_get d "total_asset_value" (JInt 0)) with
  | Raise e => Raise (ValueError ("Invalid input types: " +:+ exn_str e))
  | Ok a =>
  match py_float (dict_get d "monthly_salary" (JInt 0)) with
  | Raise e => Raise (ValueError ("Invalid input types: " +:+ exn_str e))
  | Ok s =>
  match py_int (dict_get d "work_experiences" (JInt 0)) with
  | Raise e => Raise (ValueError ("Invalid input types: " +:+ exn_str e))
  | Ok x =>
  match py_int (dict_get d "age" (JInt 0)) with
  | Raise e => Raise (ValueError ("Invalid input types: " +:+ exn_str e))
  | Ok g =>
      if flt_int a 0 || flt_int s 0 || (x <? 0) || (g <? 0)
      then Raise (ValueError "Numeric inputs must be non-negative.")
      else Ok {| total_asset_value := a; monthly_salary := s;
                 work_experiences := x; age := g |}
  end end end end.
Proof.
  unfold _sanitize_and_cast, try_except, mbind, result_bind, mret, result_ret.
  destruct (py_float (dict_get d "total_asset_value" (JInt 0))); [|reflexivity].
  destruct (py_float (dict_get d "monthly_salary" (JInt 0))); [|reflexivity].
  destruct (py_int (dict_get d "work_experiences" (JInt 0))); [|reflexivity].
  destruct (py_int (dict_get d "age" (JInt 0))); reflexivity.
Qed.

Lemma classify_customer_unfold d :
  classify_customer d =
  match _sanitize_and_cast d with
  | Raise (ValueError msg) => Ok (Failure (invalid_input msg))
  | Raise e => Raise e
  | Ok ci =>
      match _compute_scores ci with
      | Ok calc => Ok (Success (classified_of ci calc))
      | Raise e => Raise e
      end
  end.
Proof.
  unfold classify_customer. destruct (_sanitize_and_cast d) as [ci|e]; [|reflexivity].
  destruct (_compute_scores ci); reflexivity.
Qed.

Lemma score_breakdown_unfold d :
  score_breakdown d =
  match _sanitize_and_cast d with
  | Raise (ValueError msg) => Ok (Failure (invalid_input msg))
  | Raise e => Raise e
  | Ok ci =>
      match _compute_scores ci with
      | Ok calc => Ok (Success (breakdown_of calc))
      | Raise e => Raise e
      end
  end.
Proof.
  unfold score_breakdown. destruct (_sanitize_and_cast d) as [ci|e]; [|reflexivity].
  destruct (_compute_scores ci); reflexivity.
Qed.

Lemma dict_get_insert_eq (d : gmap string json) k v def :
  dict_get (<[k := v]> d) k def = v.
Proof. unfold dict_get. rewrite lookup_insert_eq. reflexivity. Qed.

Lemma dict_get_insert_ne (d : gmap string json) k k' v def :
  k <> k' -> dict_get (<[k := v]> d) k' def = dict_get d k' def.
Proof. intros H. unfold dict_get. rewrite lookup_insert_ne by exact H. reflexivity. Qed.

(** ** The age and the score *)

Lemma breakdown_of_age a s e g g' :
  breakdown_of (scores_from a s e g) = breakdown_of (scores_from a s e g').
Proof.
  unfold breakdown_of, scores_from. cbv zeta.
  cbn [credit_score raw_score components weights base bonus_pool].
  lazymatch goal with |- ?x = ?x => reflexivity end.
Qed.

Lemma classified_of_age ci ci' a s e g g' :
  cl_credit_score (classified_of ci (scores_from a s e g))
    = cl_credit_score (classified_of ci' (scores_from a s e g')) /\
  credit_scoring (reasons (classified_of ci (scores_from a s e g)))
    = credit_scoring (reasons (classified_of ci' (scores_from a s e g'))).
Proof.
  unfold classified_of, scores_from. cbv zeta.
  cbn [cl_credit_score reasons credit_scoring credit_score components].
  split; lazymatch goal with |- ?x = ?x => reflexivity end.
Qed.

(** X9. The age has no part in the score: two inputs that differ only in
    a valid age get the same answer from [score_breakdown], and the same
    credit score and the same scoring details from [classify_customer]. *)
Theorem breakdown_ignores_age (inputs : gmap string json) (v v' : json) (a a' : Z) :
  py_int v = Ok a -> 0 <= a ->
  py_int v' = Ok a' -> 0 <= a' ->
  score_breakdown (<["age" := v]> inputs) = score_breakdown (<["age" := v']> inputs) /\
  match classify_customer (<["age" := v]> inputs),
        classify_customer (<["age" := v']> inputs) with
  | Ok (Success r), Ok (Success r') =>
      cl_credit_score r = cl_credit_score r' /\
      credit_scoring (reasons r) = credit_scoring (reasons r')
  | Ok (Failure e), Ok (Failure e') => e = e'
  | Raise e, Raise e' => e = e'
  | _, _ => False
  end.
Proof.
  intros Hv Ha Hv' Ha'.
  rewrite !score_breakdown_unfold, !classify_customer_unfold, !sanitize_unfold.
  rewrite !dict_get_insert_eq, !dict_get_insert_ne by discriminate.
  rewrite Hv, Hv'.
  destruct (py_float (dict_get inputs "total_asset_value" (JInt 0))) as [x|e];
    [|split; reflexivity].
  destruct (py_float (dict_get inputs "monthly_salary" (JInt 0))) as [s|e];
    [|split; reflexivity].
  destruct (py_int (dict_get inputs "work_experiences" (JInt 0))) as [w|e];
    [|split; reflexivity].
  replace (a <? 0) with false by (symmetry; apply Z.ltb_ge; exact Ha).
  replace (a' <? 0) with false by (symmetry; apply Z.ltb_ge; exact Ha').
  destruct (flt_int x 0 || flt_int s 0 || (w <? 0) || false); [split; reflexivity|].
  rewrite !compute_scores_unfold. cbn [work_experiences total_asset_value monthly_salary age].
  destruct (float_of_Z w) as [f|e]; [|split; reflexivity].
  split; [rewrite (breakdown_of_age _ _ _ _ (py_max_int 0 a')); reflexivity|].
  cbv beta iota. apply classified_of_age.
Qed.

Lemma breakdown_ignores_age_witness :
  py_int (JInt 30) = Ok 30 /\ 0 <= 30 /\
  py_int (JStr "75") = Ok 75 /\ 0 <= 75 /\
  score_breakdown (<["age" := JInt 30]> all_at_cap_age_30)
    = score_breakdown (<["age" := JStr "75"]> all_at_cap_age_30) /\
  match classify_customer (<["age" := JInt 30]> all_at_cap_age_30),
        classify_customer (<["age" := JStr "75"]> all_at_cap_age_30) with
  | Ok (Success r), Ok (Success r') =>
      cl_credit_score r = cl_credit_score r' /\
      credit_scoring (reasons r) = credit_scoring (reasons r')
  | Ok (Failure e), Ok (Failure e') => e = e'
  | Raise e, Raise e' => e = e'
  | _, _ => False
  end.
Proof.
  assert (H1 : py_int (JInt 30) = Ok 30) by reflexivity.
  assert (H2 : py_int (JStr "75") = Ok 75) by (vm_compute; reflexivity).
  assert (H3 : 0 <= 30) by lia. assert (H4 : 0 <= 75) by lia.
  split; [exact H1|]. split; [exact H3|]. split; [exact H2|]. split; [exact H4|].
  exact (breakdown_ignores_age all_at_cap_age_30 _ _ 30 75 H1 H3 H2 H4).
Defined.

(** ** The label and the factors *)

Lemma classify_rank_mono cs cs' a :
  cs <= cs' ->
  (label_rank (fst (classify cs a)) <= label_rank (fst (classify cs' a)))%nat.
Proof.
  intros H. unfold classify.
  destruct (Z.geb_spec cs 720), (Z.geb_spec cs' 720); try lia;
    destruct (Z.geb_spec cs 640), (Z.geb_spec cs' 640); try lia;
    destruct ((25 <=? a) && (a <=? 65)), ((21 <=? a) && (a <=? 70));
    cbn [andb fst]; vm_compute; lia.
Qed.

Lemma scores_from_label a s e g :
  classification (scores_from a s e g)
  = fst (classify (credit_score (scores_from a s e g)) g).
Proof.
  unfold scores_from. cbv zeta. cbn [classification credit_score].
  lazymatch goal with |- ?x = ?x => reflexivity end.
Qed.

(** X10. Raising a factor never costs a label: for a validated record,
    with the other fields fixed, the label after raising asset, salary or
    experience ranks at least as high as before ("risk" below "standard"
    below "high-value"). *)
Theorem label_never_downgraded (f : factor) (ci ci' : CreditInputs)
    (calc calc' : ComputationResult) :
  validated ci ->
  raised f ci ci' ->
  _compute_scores ci = Ok calc ->
  _compute_scores ci' = Ok calc' ->
  (label_rank (classification calc) <= label_rank (classification calc'))%nat.
Proof.
  intros Hv Hr Hc Hc'.
  pose proof (monotone_on_scored_records f ci ci' calc calc' Hv Hr Hc Hc') as Hm.
  destruct Hr as [Hage _].
  destruct (compute_scores_inv ci calc Hc) as (e & _ & E).
  destruct (compute_scores_inv ci' calc' Hc') as (e' & _ & E').
  clear Hc Hc'. subst calc calc'.
  rewrite !scores_from_label, Hage. rewrite Hage in Hm.
  apply classify_rank_mono. exact Hm.
Qed.

Lemma label_never_downgraded_witness :
  validated zero_inputs /\
  raised Asset zero_inputs half_asset_inputs /\
  _compute_scores zero_inputs = Ok (scores_from (lit 0) (lit 0) (lit 0) 0) /\
  _compute_scores half_asset_inputs = Ok (scores_from (lit 5000000000) (lit 0) (lit 0) 0) /\
  (label_rank (classification (scores_from (lit 0) (lit 0) (lit 0) 0))
   <= label_rank (classification (scores_from (lit 5000000000) (lit 0) (lit 0) 0)))%nat.
Proof.
  assert (Hv : validated zero_inputs) by (exists ∅; vm_compute; reflexivity).
  assert (Hr : raised Asset zero_inputs half_asset_inputs)
    by (repeat split; vm_compute; reflexivity).
  assert (Hc : _compute_scores zero_inputs = Ok (scores_from (lit 0) (lit 0) (lit 0) 0))
    by (vm_compute; reflexivity).
  assert (Hc' : _compute_scores half_asset_inputs
                = Ok (scores_from (lit 5000000000) (lit 0) (lit 0) 0))
    by (vm_compute; reflexivity).
  split; [exact Hv|]. split; [exact Hr|]. split; [exact Hc|]. split; [exact Hc'|].
  exact (label_never_downgraded Asset _ _ _ _ Hv Hr Hc Hc').
Defined.

(** ** What a single factor decides *)

Lemma credit_score_scores_from a s e g :
  credit_score (scores_from a s e g) = rne (F2Q (clamp_score (raw_of a s e))).
Proof.
  unfold scores_from. cbv zeta. cbn [credit_score].
  lazymatch goal with |- ?x = ?x => reflexivity end.
Qed.

Lemma classify_high cs g : fst (classify cs g) = "high-value" -> 720 <= cs.
Proof.
  unfold classify. destruct (Z.geb_spec cs 720); [lia|]. cbn [andb].
  destruct (_ && _); cbn [fst]; discriminate.
Qed.

Lemma classify_not_risk cs g : 640 <= cs -> 21 <= g <= 70 -> fst (classify cs g) <> "risk".
Proof.
  intros Hcs Hg. unfold classify.
  destruct ((cs >=? 720) && ((25 <=? g) && (g <=? 65))); [cbn [fst]; discriminate|].
  destruct (Z.geb_spec cs 640); [|lia].
  destruct (Z.leb_spec 21 g); [|lia]. destruct (Z.leb_spec g 70); [|lia].
  cbn [andb fst]. discriminate.
Qed.

(** The score when one factor earns nothing and the other two earn all
    they can. *)
Lemma ceiling_scores :
  rne (F2Q (clamp_score (raw_of (lit 0) (S754_infinity false) (S754_infinity false)))) = 650 /\
  rne (F2Q (clamp_score (raw_of (S754_infinity false) (lit 0) (S754_infinity false)))) = 710 /\
  rne (F2Q (clamp_score (raw_of (S754_infinity false) (S754_infinity false) (lit 0)))) = 740.
Proof. repeat split; vm_compute; reflexivity. Qed.

(** The score when one factor is at its cap and the other two earn
    nothing. *)
Lemma floor_scores :
  rne (F2Q (clamp_score (raw_of ASSET_CAP (lit 0) (lit 0)))) = 650 /\
  rne (F2Q (clamp_score (raw_of (lit 0) SALARY_CAP (lit 0)))) = 590 /\
  rne (F2Q (clamp_score (raw_of (lit 0) (lit 0) EXP_CAP))) = 560.
Proof. repeat split; vm_compute; reflexivity. Qed.

Lemma xle_top x : NN x -> xle (F2X x) (F2X (S754_infinity false)).
Proof. intros H. apply xle_posinf, NN_not_nan, H. Qed.

Lemma xle_self x : NN x -> xle (F2X x) (F2X x).
Proof. intros H. apply xle_refl, NN_not_nan, H. Qed.

Lemma py_max_zero_absent x : fgt x (lit 0) = false -> py_max (lit 0) x = lit 0.
Proof. intros H. unfold py_max. rewrite H. reflexivity. Qed.

Lemma float_of_Z_zero : float_of_Z 0 = Ok (lit 0).
Proof. reflexivity. Qed.

(** X11. A factor that earns nothing caps the score: at most 650 without
    asset, 710 without salary, 740 without experience (800 less the
    factor's share).  So a customer without asset or without salary is
    never labelled "high-value". *)
Theorem score_ceiling_without_factor (f : factor) (ci : CreditInputs)
    (calc : ComputationResult) :
  _compute_scores ci = Ok calc ->
  factor_absent f ci ->
  credit_score calc <= 800 - max_points f /\
  (f <> Experience -> classification calc <> "high-value").
Proof.
  intros Hc Habs.
  destruct (compute_scores_inv ci calc Hc) as (e & He & ->).
  destruct ceiling_scores as (C1 & C2 & C3).
  assert (Hle : credit_score (scores_from (py_max (lit 0) (total_asset_value ci))
                                (py_max (lit 0) (monthly_salary ci))
                                (py_max (lit 0) e) (py_max_int 0 (age ci)))
                <= 800 - max_points f).
  { rewrite credit_score_scores_from.
    pose proof (py_max_zero_NN (total_asset_value ci)) as Na.
    pose proof (py_max_zero_NN (monthly_salary ci)) as Ns.
    pose proof (py_max_zero_NN e) as Ne.
    destruct f; cbn [factor_absent] in Habs; cbn [max_points].
    - rewrite (py_max_zero_absent _ Habs) in *.
      change (800 - 150) with 650. rewrite <- C1. apply clamp_rne_mono.
      apply (raw_of_mono (lit 0) (lit 0));
        [exact NN_zero | exact Ns | exact Ne
        | exact NN_zero | apply xle_top, Ns | apply xle_top, Ne].
    - rewrite (py_max_zero_absent _ Habs) in *.
      change (800 - 90) with 710. rewrite <- C2. apply clamp_rne_mono.
      apply (raw_of_mono _ _ (lit 0) (lit 0));
        [exact Na | exact NN_zero | exact Ne
        | apply xle_top, Na | exact NN_zero | apply xle_top, Ne].
    - rewrite Habs, float_of_Z_zero in He. inversion He. subst e.
      replace (py_max (lit 0) (lit 0)) with (lit 0) in * by reflexivity.
      change (800 - 60) with 740. rewrite <- C3. apply clamp_rne_mono.
      apply (raw_of_mono _ _ _ _ (lit 0) (lit 0));
        [exact Na | exact Ns | exact NN_zero
        | apply xle_top, Na | apply xle_top, Ns | exact NN_zero]. }
  split; [exact Hle|].
  intros Hf Hhigh. rewrite scores_from_label in Hhigh. apply classify_high in Hhigh.
  destruct f; cbn [max_points] in Hle; [lia | lia | congruence].
Qed.

Lemma score_ceiling_without_factor_witness :
  _compute_scores no_asset_inputs
    = Ok (scores_from (lit 0) (lit 200000000) (lit 40) 30) /\
  factor_absent Asset no_asset_inputs /\
  credit_score (scores_from (lit 0) (lit 200000000) (lit 40) 30) <= 800 - max_points Asset /\
  (Asset <> Experience ->
   classification (scores_from (lit 0) (lit 200000000) (lit 40) 30) <> "high-value").
Proof.
  assert (Hc : _compute_scores no_asset_inputs
               = Ok (scores_from (lit 0) (lit 200000000) (lit 40) 30))
    by (vm_compute; reflexivity).
  assert (Ha : factor_absent Asset no_asset_inputs) by (vm_compute; reflexivity).
  split; [exact Hc|]. split; [exact Ha|].
  exact (score_ceiling_without_factor Asset _ _ Hc Ha).
Defined.

(** X12. A factor at its cap guarantees its share: the score is at least
    650 with the asset at its cap, 590 with the salary, 560 with the
    experience (500 plus the factor's share).  So a customer aged 21 to 70
    whose asset has reached the cap is never labelled "risk". *)
Theorem score_floor_at_cap (f : factor) (ci : CreditInputs) (calc : ComputationResult) :
  _compute_scores ci = Ok calc ->
  at_cap f ci ->
  500 + max_points f <= credit_score calc /\
  (f = Asset -> 21 <= age ci <= 70 -> classification calc <> "risk").
Proof.
  intros Hc Hcap.
  destruct (compute_scores_inv ci calc Hc) as (e & He & ->).
  destruct floor_scores as (F1 & F2 & F3).
  destruct caps_positive as (Ca & Cs & Ce).
  assert (Hge : 500 + max_points f
                <= credit_score (scores_from (py_max (lit 0) (total_asset_value ci))
                                   (py_max (lit 0) (monthly_salary ci))
                                   (py_max (lit 0) e) (py_max_int 0 (age ci)))).
  { rewrite credit_score_scores_from.
    pose proof (py_max_zero_NN (total_asset_value ci)) as Na.
    pose proof (py_max_zero_NN (monthly_salary ci)) as Ns.
    pose proof (py_max_zero_NN e) as Ne.
    assert (Npos : forall c, positive_finite c -> NN c).
    { intros c (Hf & _ & Hp). apply NN_finite; [exact Hf | lra]. }
    destruct f; cbn [at_cap] in Hcap; cbn [max_points].
    - change (500 + 150) with 650. rewrite <- F1. apply clamp_rne_mono.
      apply (raw_of_mono ASSET_CAP _ (lit 0) _ (lit 0) _);
        [apply Npos, Ca | exact NN_zero | exact NN_zero
        | apply capped_clamp; [exact Ca | exact Hcap] | exact Ns | exact Ne].
    - change (500 + 90) with 590. rewrite <- F2. apply clamp_rne_mono.
      apply (raw_of_mono (lit 0) _ SALARY_CAP _ (lit 0) _);
        [exact NN_zero | apply Npos, Cs | exact NN_zero
        | exact Na | apply capped_clamp; [exact Cs | exact Hcap] | exact Ne].
    - change (500 + 60) with 560. rewrite <- F3. apply clamp_rne_mono.
      apply (raw_of_mono (lit 0) _ (lit 0) _ EXP_CAP _);
        [exact NN_zero | exact NN_zero | apply Npos, Ce
        | exact Na | exact Ns
        | apply capped_clamp; [exact Ce | exact (exp_at_cap _ e Hcap He)]]. }
  split; [exact Hge|].
  intros -> Hage. cbn [max_points] in Hge.
  rewrite scores_from_label. apply classify_not_risk; [lia|].
  unfold py_max_int. destruct (Z.gtb_spec (age ci) 0); lia.
Qed.

Lemma score_floor_at_cap_witness :
  _compute_scores asset_only_inputs
    = Ok (scores_from (lit 10000000000) (lit 0) (lit 0) 30) /\
  at_cap Asset asset_only_inputs /\
  500 + max_points Asset <= credit_score (scores_from (lit 10000000000) (lit 0) (lit 0) 30) /\
  (Asset = Asset -> 21 <= age asset_only_inputs <= 70 ->
   classification (scores_from (lit 10000000000) (lit 0) (lit 0) 30) <> "risk").
Proof.
  assert (Hc : _compute_scores asset_only_inputs
               = Ok (scores_from (lit 10000000000) (lit 0) (lit 0) 30))
    by (vm_compute; reflexivity).
  assert (Ha : at_cap Asset asset_only_inputs) by (vm_compute; reflexivity).
  split; [exact Hc|]. split; [exact Ha|].
  exact (score_floor_at_cap Asset _ _ Hc Ha).
Defined.

(** ** A NaN among the inputs *)

(** Two values of the asset, or of the salary, that compare alike with
    zero and that the engine clamps to the same float get the same answers. *)
Lemma float_field_equiv (fld : field) (inputs : gmap string json) (v v' : json) (x x' : float) :
  fld = FAsset \/ fld = FSalary ->
  py_float v = Ok x -> py_float v' = Ok x' ->
  flt_int x 0 = flt_int x' 0 ->
  py_max (lit 0) x = py_max (lit 0) x' ->
  classify_customer (<[field_name fld := v]> inputs)
    = classify_customer (<[field_name fld := v']> inputs) /\
  score_breakdown (<[field_name fld := v]> inputs)
    = score_breakdown (<[field_name fld := v']> inputs).
Proof.
  intros Hfld Hv Hv' Hneg Hmax.
  rewrite !score_breakdown_unfold, !classify_customer_unfold, !sanitize_unfold.
  destruct Hfld as [-> | ->]; cbn [field_name];
    rewrite !dict_get_insert_eq, !dict_get_insert_ne by discriminate;
    rewrite Hv, Hv'.
  - destruct (py_float (dict_get inputs "monthly_salary" (JInt 0))) as [s|e];
      [|split; reflexivity].
    destruct (py_int (dict_get inputs "work_experiences" (JInt 0))) as [w|e];
      [|split; reflexivity].
    destruct (py_int (dict_get inputs "age" (JInt 0))) as [g|e];
      [|split; reflexivity].
    rewrite Hneg.
    destruct (flt_int x' 0 || flt_int s 0 || (w <? 0) || (g <? 0)); [split; reflexivity|].
    rewrite !compute_scores_unfold.
    cbn [work_experiences total_asset_value monthly_salary age].
    rewrite Hmax.
    destruct (float_of_Z w) as [f|e]; split; reflexivity.
  - destruct (py_float (dict_get inputs "total_asset_value" (JInt 0))) as [a|e];
      [|split; reflexivity].
    destruct (py_int (dict_get inputs "work_experiences" (JInt 0))) as [w|e];
      [|split; reflexivity].
    destruct (py_int (dict_get inputs "age" (JInt 0))) as [g|e];
      [|split; reflexivity].
    rewrite Hneg.
    destruct (flt_int a 0 || flt_int x' 0 || (w <? 0) || (g <? 0)); [split; reflexivity|].
    rewrite !compute_scores_unfold.
    cbn [work_experiences total_asset_value monthly_salary age].
    rewrite Hmax.
    destruct (float_of_Z w) as [f|e]; split; reflexivity.
Qed.

(** X13. A NaN passes the sanitiser as asset or salary (it is not below
    zero) and the engine counts it as zero: both tools answer exactly as
    they do when the field holds 0. *)
Theorem nan_counts_as_zero (fld : field) (inputs : gmap string json) (v : json) :
  fld = FAsset \/ fld = FSalary ->
  py_float v = Ok S754_nan ->
  classify_customer (<[field_name fld := v]> inputs)
    = classify_customer (<[field_name fld := JInt 0]> inputs) /\
  score_breakdown (<[field_name fld := v]> inputs)
    = score_breakdown (<[field_name fld := JInt 0]> inputs).
Proof.
  intros Hfld Hv.
  apply (float_field_equiv fld inputs v (JInt 0) S754_nan (S754_zero false));
    [exact Hfld | exact Hv | reflexivity | reflexivity | reflexivity].
Qed.

Lemma nan_counts_as_zero_witness :
  (FAsset = FAsset \/ FAsset = FSalary) /\
  py_float (JStr "nan") = Ok S754_nan /\
  classify_customer (<[field_name FAsset := JStr "nan"]> ∅)
    = classify_customer (<[field_name FAsset := JInt 0]> ∅) /\
  score_breakdown (<[field_name FAsset := JStr "nan"]> ∅)
    = score_breakdown (<[field_name FAsset := JInt 0]> ∅).
Proof.
  assert (H1 : FAsset = FAsset \/ FAsset = FSalary) by (left; reflexivity).
  assert (H2 : py_float (JStr "nan") = Ok S754_nan) by (vm_compute; reflexivity).
  split; [exact H1|]. split; [exact H2|].
  exact (nan_counts_as_zero FAsset ∅ (JStr "nan") H1 H2).
Defined.

(** ** The numbers of the two answers *)

(** X14. The two tools report the same numbers: the points, the ratios
    and the caps in the reasons of [classify_customer] are the [points],
    [norm] and [cap] entries of the components of [score_breakdown], and
    weights and base are the same. *)
Theorem tools_report_same_numbers (inputs : gmap string json)
    (a : Classified) (b : Breakdown) :
  classify_customer inputs = Ok (Success a) ->
  score_breakdown inputs = Ok (Success b) ->
  let cs := credit_scoring (reasons a) in
  let n := normalization cs in
  asset_score (cs_components cs) = points (c_asset (bd_components b)) /\
  salary_score (cs_components cs) = points (c_salary (bd_components b)) /\
  experience_score (cs_components cs) = points (c_experience (bd_components b)) /\
  asset_norm n = norm (c_asset (bd_components b)) /\
  salary_norm n = norm (c_salary (bd_components b)) /\
  experience_norm n = norm (c_experience (bd_components b)) /\
  asset_cap (caps n) = cap (c_asset (bd_components b)) /\
  salary_cap (caps n) = cap (c_salary (bd_components b)) /\
  experience_cap (caps n) = cap (c_experience (bd_components b)) /\
  cs_weights cs = bd_weights b /\
  cs_base cs = bd_base b.
Proof.
  intros Ha Hb.
  destruct (tool_run_total inputs) as [msg _ Hcl Hbd|ci calc _ Hc Hcl Hbd|ci e _ _ Hcl Hbd];
    rewrite Hcl in Ha; rewrite Hbd in Hb; try discriminate.
  inversion Ha. inversion Hb. clear Ha Hb. subst a b.
  destruct (compute_scores_inv ci calc Hc) as (f & _ & ->).
  unfold classified_of, breakdown_of, scores_from, component_of. cbv zeta.
  cbn [reasons credit_scoring normalization cs_components caps cs_weights cs_base
       asset_score salary_score experience_score asset_norm salary_norm experience_norm
       asset_cap salary_cap experience_cap
       bd_components bd_weights bd_base components weights base
       c_asset c_salary c_experience points norm cap].
  repeat split; lazymatch goal with |- ?x = ?x => reflexivity end.
Qed.

Lemma tools_report_same_numbers_witness :
  classify_customer ∅
    = Ok (Success (classified_of zero_inputs (scores_from (lit 0) (lit 0) (lit 0) 0))) /\
  score_breakdown ∅ = Ok (Success (breakdown_of (scores_from (lit 0) (lit 0) (lit 0) 0))) /\
  let a := classified_of zero_inputs (scores_from (lit 0) (lit 0) (lit 0) 0) in
  let b := breakdown_of (scores_from (lit 0) (lit 0) (lit 0) 0) in
  let cs := credit_scoring (reasons a) in
  let n := normalization cs in
  asset_score (cs_components cs) = points (c_asset (bd_components b)) /\
  salary_score (cs_components cs) = points (c_salary (bd_components b)) /\
  experience_score (cs_components cs) = points (c_experience (bd_components b)) /\
  asset_norm n = norm (c_asset (bd_components b)) /\
  salary_norm n = norm (c_salary (bd_components b)) /\
  experience_norm n = norm (c_experience (bd_components b)) /\
  asset_cap (caps n) = cap (c_asset (bd_components b)) /\
  salary_cap (caps n) = cap (c_salary (bd_components b)) /\
  experience_cap (caps n) = cap (c_experience (bd_components b)) /\
  cs_weights cs = bd_weights b /\
  cs_base cs = bd_base b.
Proof.
  assert (Ha : classify_customer ∅
    = Ok (Success (classified_of zero_inputs (scores_from (lit 0) (lit 0) (lit 0) 0))))
    by (vm_compute; reflexivity).
  assert (Hb : score_breakdown ∅
    = Ok (Success (breakdown_of (scores_from (lit 0) (lit 0) (lit 0) 0))))
    by (vm_compute; reflexivity).
  split; [exact Ha|]. split; [exact Hb|].
  exact (tools_report_same_numbers ∅ _ _ Ha Hb).
Defined.

(** ** Numbers written as strings *)

Lemma is_digit_cases d :
  is_digit d ->
  d = 0 \/ d = 1 \/ d = 2 \/ d = 3 \/ d = 4 \/ d = 5 \/ d = 6 \/ d = 7 \/ d = 8 \/ d = 9.
Proof. unfold is_digit. lia. Qed.

Lemma digit_char_spec d :
  is_digit d ->
  digit_of (digit_char d) = Some d /\ is_space (digit_char d) = false /\
  Ascii.eqb (digit_char d) "-" = false /\ Ascii.eqb (digit_char d) "+" = false.
Proof.
  intros H. apply is_digit_cases in H.
  repeat (destruct H as [->|H]; [repeat split|]). subst d. repeat split.
Qed.

Lemma digits_more_digits ds : Forall is_digit ds ->
  forall acc n,
    digits_more acc n (digits_string ds)
    = (fold_left (fun a d => 10 * a + d) ds acc, (n + length ds)%nat, EmptyString).
Proof.
  induction 1 as [|d ds Hd _ IH]; intros acc n.
  - cbn. rewrite Nat.add_0_r. reflexivity.
  - cbn [digits_string digits_more fold_left length].
    destruct (digit_char_spec d Hd) as (-> & _). rewrite IH.
    rewrite Nat.add_succ_r. reflexivity.
Qed.

Lemma digit_part_digits d ds : Forall is_digit (d :: ds) ->
  digit_part (digits_string (d :: ds)) = (digits_value (d :: ds), S (length ds), EmptyString).
Proof.
  intros H. inversion H as [|? ? Hd Hds]. subst.
  cbn [digits_string digit_part]. destruct (digit_char_spec d Hd) as (-> & _).
  rewrite (digits_more_digits ds Hds). unfold digits_value. cbn [fold_left].
  replace (10 * 0 + d) with d by lia. reflexivity.
Qed.

Lemma append_cons c (s t : string) : String c s +:+ t = String c (s +:+ t).
Proof. reflexivity. Qed.

Lemma append_nil (t : string) : EmptyString +:+ t = t.
Proof. reflexivity. Qed.

Lemma append_empty_inv (p t : string) : p +:+ t = EmptyString -> t = EmptyString.
Proof. destruct p; [intros H; exact H | discriminate]. Qed.

Lemma rstrip_spaces ws : all_space ws = true -> rstrip ws = EmptyString.
Proof.
  induction ws as [|c ws IH]; [reflexivity|]. cbn [all_space rstrip].
  intros H. apply andb_prop in H. destruct H as [Hc Hws].
  rewrite (IH Hws), Hc. reflexivity.
Qed.

Lemma rstrip_app_space s ws : all_space ws = true -> rstrip (s +:+ ws) = rstrip s.
Proof.
  intros H. induction s as [|c s IH]; [apply rstrip_spaces, H|].
  rewrite append_cons. cbn [rstrip]. rewrite IH. reflexivity.
Qed.

Lemma rstrip_prefix p t :
  rstrip t <> EmptyString -> rstrip (p +:+ t) = p +:+ rstrip t.
Proof.
  intros H. induction p as [|c p IH]; [reflexivity|].
  rewrite !append_cons. cbn [rstrip]. rewrite IH.
  destruct (p +:+ rstrip t) eqn:E; [|reflexivity].
  apply append_empty_inv in E. contradiction.
Qed.

Lemma rstrip_digits ds : Forall is_digit ds -> rstrip (digits_string ds) = digits_string ds.
Proof.
  induction 1 as [|d ds Hd _ IH]; [reflexivity|].
  cbn [digits_string rstrip]. rewrite IH.
  destruct (digit_char_spec d Hd) as (_ & -> & _).
  destruct (digits_string ds); reflexivity.
Qed.

Lemma lstrip_spaces ws t : all_space ws = true -> lstrip (ws +:+ t) = lstrip t.
Proof.
  induction ws as [|c ws IH]; [reflexivity|]. rewrite append_cons. cbn [all_space lstrip].
  intros H. apply andb_prop in H. destruct H as [-> Hws]. exact (IH Hws).
Qed.

(** Whitespace around a signed string of digits is stripped. *)
Lemma strip_padded ws ws' m d ds :
  all_space ws = true -> all_space ws' = true -> Forall is_digit (d :: ds) ->
  strip (ws +:+ sign_string m +:+ digits_string (d :: ds) +:+ ws')
  = sign_string m +:+ digits_string (d :: ds).
Proof.
  intros Hws Hws' Hds. unfold strip.
  assert (Hne : digits_string (d :: ds) <> EmptyString) by discriminate.
  assert (H1 : rstrip (digits_string (d :: ds) +:+ ws') = digits_string (d :: ds)).
  { rewrite rstrip_app_space by exact Hws'. apply rstrip_digits, Hds. }
  assert (H2 : rstrip (sign_string m +:+ digits_string (d :: ds) +:+ ws')
               = sign_string m +:+ digits_string (d :: ds)).
  { rewrite rstrip_prefix; rewrite H1; [reflexivity | exact Hne]. }
  rewrite rstrip_prefix; rewrite H2.
  - rewrite lstrip_spaces by exact Hws.
    inversion Hds as [|? ? Hd _]. subst.
    destruct (digit_char_spec d Hd) as (_ & Hsp & _).
    destruct m; cbn [sign_string digits_string];
      rewrite ?append_nil, ?append_cons; cbn [lstrip];
      [rewrite Hsp; reflexivity | reflexivity | reflexivity].
  - intros E. apply append_empty_inv in E. contradiction.
Qed.

Lemma split_sign_signed m d ds :
  is_digit d ->
  split_sign (sign_string m +:+ digits_string (d :: ds))
  = (match m with MinusSign => true | _ => false end, digits_string (d :: ds)).
Proof.
  intros Hd. destruct (digit_char_spec d Hd) as (_ & _ & Hm & Hp).
  destruct m; cbn [sign_string digits_string];
    rewrite ?append_nil, ?append_cons; cbn [split_sign];
    [rewrite Hm, Hp; reflexivity | reflexivity | reflexivity].
Qed.

(** X15. [int] of a string of decimal digits: the sanitiser's integer
    conversion accepts every string made of optional whitespace, an
    optional sign, one to 4300 decimal digits and optional whitespace, and
    returns the decimal value of the digits with that sign. *)
Theorem int_of_decimal_string (ws ws' : string) (m : sign_mark) (ds : list Z) :
  all_space ws = true -> all_space ws' = true ->
  Forall is_digit ds ->
  (1 <= length ds <= 4300)%nat ->
  int_of_string (ws +:+ sign_string m +:+ digits_string ds +:+ ws')
  = Ok (signed m (digits_value ds)).
Proof.
  intros Hws Hws' Hds Hlen.
  destruct ds as [|d ds]; [cbn in Hlen; lia|].
  assert (Hd : is_digit d) by (inversion Hds; assumption).
  unfold int_of_string.
  rewrite (strip_padded ws ws' m d ds Hws Hws' Hds), (split_sign_signed m d ds Hd).
  rewrite (digit_part_digits d ds Hds).
  cbn [length] in Hlen.
  replace (length ds <? int_max_str_digits)%nat with true
    by (symmetry; apply Nat.ltb_lt; unfold int_max_str_digits; lia).
  destruct m; reflexivity.
Qed.

Lemma int_of_decimal_string_witness :
  all_space " " = true /\ all_space "  " = true /\
  Forall is_digit [0; 4; 2] /\
  (1 <= length [0; 4; 2] <= 4300)%nat /\
  int_of_string (" " +:+ sign_string MinusSign +:+ digits_string [0; 4; 2] +:+ "  ")
  = Ok (signed MinusSign (digits_value [0; 4; 2])).
Proof.
  assert (H1 : all_space " " = true) by reflexivity.
  assert (H2 : all_space "  " = true) by reflexivity.
  assert (H3 : Forall is_digit [0; 4; 2]) by (repeat constructor; unfold is_digit; lia).
  assert (H4 : (1 <= length [0; 4; 2] <= 4300)%nat) by (cbn; lia).
  split; [exact H1|]. split; [exact H2|]. split; [exact H3|]. split; [exact H4|].
  exact (int_of_decimal_string " " "  " MinusSign [0; 4; 2] H1 H2 H3 H4).
Defined.

(** ** A number given as a string of digits *)

Lemma digit_of_range c d : digit_of c = Some d -> (48 <= N_of_ascii c <= 57)%N.
Proof.
  unfold digit_of. destruct (N.leb_spec 48 (N_of_ascii c)); [|discriminate].
  destruct (N.leb_spec (N_of_ascii c) 57); [|discriminate]. intros _. lia.
Qed.


(** A string that starts with a digit is none of the names of the special
    floats. *)
Lemma digit_first_not_special c d rest :
  digit_of c = Some d ->
  String.eqb (lower (String c rest)) "inf" = false /\
  String.eqb (lower (String c rest)) "infinity" = false /\
  String.eqb (lower (String c rest)) "nan" = false.
Proof.
  intros H. pose proof (digit_of_range c d H) as Hr. cbn [lower].
  replace ((65 <=? N_of_ascii c) && (N_of_ascii c <=? 90))%N with false
    by (symmetry; apply andb_false_intro1, N.leb_gt; lia).
  assert (Hi : Ascii.eqb c "i" = false).
  { destruct (Ascii.eqb_spec c "i") as [->|]; [cbn in Hr; lia | reflexivity]. }
  assert (Hn : Ascii.eqb c "n" = false).
  { destruct (Ascii.eqb_spec c "n") as [->|]; [cbn in Hr; lia | reflexivity]. }
  cbn [String.eqb]. rewrite Hi, Hn. repeat split.
Qed.






(** ** The rounding errors of the arithmetic *)

Lemma rne_error x : (- (1 # 2) <= inject_Z (rne x) - x <= 1 # 2)%Q.
Proof.
  pose proof (Qfloor_le x) as H1. pose proof (Qlt_floor x) as H2.
  rewrite inject_Z_plus in H2. change (inject_Z 1) with 1%Q in H2.
  unfold rne.
  destruct (Qcompare_spec (x - inject_Z (Qfloor x)) (1 # 2)) as [H|H|H].
  - destruct (Z.even _); [|rewrite inject_Z_plus; change (inject_Z 1) with 1%Q]; lra.
  - lra.
  - rewrite inject_Z_plus. change (inject_Z 1) with 1%Q. lra.
Qed.

Lemma Qmag_below q k : (0 < q)%Q -> (q < pow2 k)%Q -> Qmag q <= k.
Proof.
  intros Hq Hk. destruct (Qmag_spec q Hq) as [H1 _].
  assert (Qmag q - 1 < k) by (apply pow2_lt_inv; lra). lia.
Qed.

(** A rational in [[0, 2^k)] is rounded to a finite float at most
    [2^(k-54)] away. *)
Lemma round_Q_error s q k :
  (0 <= q)%Q -> (q < pow2 k)%Q -> -1000 <= k <= 1000 ->
  is_finite (round_Q s q) = true /\
  (- pow2 (k - 54) <= F2Q (round_Q s q) - q <= pow2 (k - 54))%Q.
Proof.
  intros H0 Hk Hr. pose proof (pow2_pos (k - 54)) as Hpk.
  destruct (Qeq_dec q 0) as [E|NE].
  { rewrite round_Q_zero by exact E. split; [reflexivity|]. cbn [F2Q]. lra. }
  assert (Hq : (0 < q)%Q) by lra.
  pose proof (Qmag_below q k Hq Hk) as Hmag.
  assert (He : fexp q <= k - 53) by (unfold fexp, prec, emin; lia).
  pose proof (pow2_pos (fexp q)) as HP. pose proof (pow2_pos (fexp q - 1)) as HP1.
  assert (Hhalf : (pow2 (fexp q) == 2 * pow2 (fexp q - 1))%Q).
  { rewrite <- pow2_succ. replace (fexp q - 1 + 1) with (fexp q) by lia. reflexivity. }
  assert (Hle : (pow2 (fexp q - 1) <= pow2 (k - 54))%Q) by (apply pow2_le; lia).
  pose proof (rne_error (q / pow2 (fexp q))) as Hrne.
  assert (Hx : (q / pow2 (fexp q) * pow2 (fexp q) == q)%Q) by (field; lra).
  assert (Herr : (- pow2 (fexp q - 1) <= rval q - q <= pow2 (fexp q - 1))%Q).
  { unfold rval, rmant. set (m := inject_Z (rne (q / pow2 (fexp q)))) in *.
    set (x := (q / pow2 (fexp q))%Q) in *. set (P := pow2 (fexp q)) in *.
    split; nra. }
  assert (Hfin : (rval q < pow2 1024)%Q).
  { assert (H2k : (pow2 (k + 1) == 2 * pow2 k)%Q) by apply pow2_succ.
    assert (Hkk : (pow2 (k - 54) <= pow2 k)%Q) by (apply pow2_le; lia).
    assert (Hk1 : (pow2 (k + 1) <= pow2 1024)%Q) by (apply pow2_le; lia).
    lra. }
  destruct (round_Q_pos_cases s q Hq) as [[Hov _]|(_ & Hf & Hv)]; [lra|].
  split; [exact Hf|]. rewrite Hv. lra.
Qed.

Lemma Qcap1_above x : (1 < x)%Q -> Qcap1 x = 1%Q.
Proof. intros H. unfold Qcap1. apply Qltb_true in H. rewrite H. reflexivity. Qed.

Lemma Qcap1_below x : (x <= 1)%Q -> Qcap1 x = x.
Proof. intros H. unfold Qcap1. apply Qltb_false in H. rewrite H. reflexivity. Qed.

Lemma pow2_values :
  (pow2 1 == 2)%Q /\ (pow2 8 == 256)%Q /\ (pow2 10 == 1024)%Q /\
  (pow2 (-53) == 1 # 9007199254740992)%Q /\
  (pow2 (-46) == 1 # 70368744177664)%Q /\
  (pow2 (-44) == 1 # 17592186044416)%Q.
Proof. repeat split; vm_compute; reflexivity. Qed.

(** The ratio of a finite non-negative value to its cap, capped at one, is
    computed within [2^-53]. *)
Lemma norm_error v c C :
  is_finite v = true -> (0 <= F2Q v)%Q -> positive_finite c -> (F2Q c == C)%Q ->
  (- pow2 (-53) <= F2Q (norm_of v c) - Qcap1 (F2Q v / C) <= pow2 (-53))%Q.
Proof.
  intros Hfv Hv Hc HC. pose proof (pow2_pos (-53)) as Hp.
  destruct lit_1_val as [Hf1 H1]. destruct pow2_values as (P1 & _).
  assert (HCpos : (0 < C)%Q) by (destruct Hc as (_ & _ & Hc); lra).
  destruct (Qlt_le_dec 1 (F2Q v / C)) as [Hgt|Hle].
  - rewrite (Qcap1_above _ Hgt).
    assert (Hcv : (F2Q c <= F2Q v)%Q).
    { assert (Hm : (F2Q v / C * C == F2Q v)%Q) by (field; lra).
      set (x := (F2Q v / C)%Q) in *. rewrite HC. nra. }
    rewrite (norm_saturates v c Hc).
    + lra.
    + destruct Hc as (Hfc & _). rewrite (F2X_finite _ Hfc), (F2X_finite _ Hfv).
      apply xle_fin, Hcv.
  - rewrite (Qcap1_below _ Hle).
    assert (Hx0 : (0 <= F2Q v / C)%Q) by (apply Qle_shift_div_l; lra).
    assert (Hx2 : (F2Q v / C < pow2 1)%Q) by lra.
    assert (Hdiv : fdiv_ieee v c = round_Q (xorb (fsign v) (fsign c)) (F2Q v / C)).
    { destruct Hc as (Hfc & _). rewrite (fdiv_ieee_finite v c Hfv Hfc).
      apply round_Q_comp. rewrite HC. reflexivity. }
    destruct (round_Q_error (xorb (fsign v) (fsign c)) _ 1 Hx0 Hx2) as [Hf Herr]; [lia|].
    assert (Hmin : norm_of v c = fdiv_ieee v c).
    { unfold norm_of, py_min, flt. rewrite Hdiv.
      rewrite xltb_xle_false; [reflexivity|].
      change (lit 1) with (round_Q false 1). apply round_Q_mono; assumption. }
    rewrite Hmin, Hdiv. exact Herr.
Qed.

(** The points of a factor are computed within [2^-46 + 150 * 2^-53] of
    the exact product. *)
Lemma score_error v c w C P :
  is_finite v = true -> (0 <= F2Q v)%Q -> positive_finite c -> (F2Q c == C)%Q ->
  is_finite (fmul BONUS_POOL w) = true -> (F2Q (fmul BONUS_POOL w) == P)%Q ->
  (0 <= P <= 150)%Q ->
  (- (pow2 (-46) + 150 * pow2 (-53))
   <= F2Q (score_of v c w) - Qcap1 (F2Q v / C) * P
   <= pow2 (-46) + 150 * pow2 (-53))%Q.
Proof.
  intros Hfv Hv Hc HC Hfw HP HPr.
  pose proof (norm_error v c C Hfv Hv Hc HC) as Hn.
  assert (Hnv : NN v) by (apply NN_finite; assumption).
  destruct (norm_of_range v c Hnv Hc) as [Hfn Hnr].
  destruct pow2_values as (_ & P8 & _).
  pose proof (pow2_pos (-53)) as Hp53. pose proof (pow2_pos (-46)) as Hp46.
  unfold score_of. rewrite (fmul_finite _ _ Hfn Hfw).
  set (sg := xorb _ _). set (n := F2Q (norm_of v c)) in *.
  set (N := Qcap1 (F2Q v / C)) in *.
  assert (Hq0 : (0 <= n * F2Q (fmul BONUS_POOL w))%Q).
  { rewrite HP. apply Qmult_le_0_compat; lra. }
  assert (Hq1 : (n * F2Q (fmul BONUS_POOL w) < pow2 8)%Q).
  { rewrite HP, P8. assert (n * P <= 1 * 150)%Q; [|lra].
    apply Qmult_le_compat_nonneg; split; lra. }
  destruct (round_Q_error sg _ 8 Hq0 Hq1) as [_ Herr]; [lia|].
  change (8 - 54) with (-46) in Herr.
  assert (HnS : (n * F2Q (fmul BONUS_POOL w) == n * P)%Q) by (rewrite HP; reflexivity).
  assert (Hprod : (- (150 * pow2 (-53)) <= n * P - N * P <= 150 * pow2 (-53))%Q).
  { split; nra. }
  lra.
Qed.

Lemma fadd_error x y k :
  is_finite x = true -> is_finite y = true ->
  (0 <= F2Q x + F2Q y)%Q -> (F2Q x + F2Q y < pow2 k)%Q -> -1000 <= k <= 1000 ->
  is_finite (fadd x y) = true /\
  (- pow2 (k - 54) <= F2Q (fadd x y) - (F2Q x + F2Q y) <= pow2 (k - 54))%Q.
Proof.
  intros Hx Hy H0 Hk Hr. rewrite (fadd_finite x y Hx Hy).
  apply round_Q_error; assumption.
Qed.

Lemma config_values :
  (F2Q ASSET_CAP == 10000000000)%Q /\ (F2Q SALARY_CAP == 200000000)%Q /\
  (F2Q EXP_CAP == 40)%Q /\
  (F2Q (fmul BONUS_POOL (w_asset WEIGHTS)) == 150)%Q /\
  (F2Q (fmul BONUS_POOL (w_salary WEIGHTS)) == 90)%Q /\
  (F2Q (fmul BONUS_POOL (w_experience WEIGHTS)) == 60)%Q.
Proof. repeat split; vm_compute; reflexivity. Qed.

(** The three additions of the raw score lose at most [3 * 2^-44]. *)
Lemma raw_of_sum_error a s e :
  NN a -> NN s -> NN e ->
  (- (3 * pow2 (-44))
   <= F2Q (raw_of a s e)
      - (500 + F2Q (score_of a ASSET_CAP (w_asset WEIGHTS))
             + F2Q (score_of s SALARY_CAP (w_salary WEIGHTS))
             + F2Q (score_of e EXP_CAP (w_experience WEIGHTS)))
   <= 3 * pow2 (-44))%Q.
Proof.
  intros Ha Hs He.
  destruct pow2_values as (_ & _ & P10 & _ & _ & P44).
  destruct BASE_SCORE_val as [Hfb Hb].
  destruct (score_of_range Asset a Ha) as [Hf1 R1].
  destruct (score_of_range Salary s Hs) as [Hf2 R2].
  destruct (score_of_range Experience e He) as [Hf3 R3].
  cbn [cap_of weight_of max_points] in *.
  change (inject_Z 150) with 150%Q in R1. change (inject_Z 90) with 90%Q in R2.
  change (inject_Z 60) with 60%Q in R3.
  unfold raw_of.
  set (s1 := score_of a ASSET_CAP (w_asset WEIGHTS)) in *.
  set (s2 := score_of s SALARY_CAP (w_salary WEIGHTS)) in *.
  set (s3 := score_of e EXP_CAP (w_experience WEIGHTS)) in *.
  destruct (fadd_error BASE_SCORE s1 10 Hfb Hf1) as [Hft1 E1]; [lra | lra | lia |].
  change (10 - 54) with (-44) in E1. set (t1 := fadd BASE_SCORE s1) in *.
  destruct (fadd_error t1 s2 10 Hft1 Hf2) as [Hft2 E2]; [lra | lra | lia |].
  change (10 - 54) with (-44) in E2. set (t2 := fadd t1 s2) in *.
  destruct (fadd_error t2 s3 10 Hft2 Hf3) as [Hft3 E3]; [lra | lra | lia |].
  change (10 - 54) with (-44) in E3. set (t3 := fadd t2 s3) in *.
  split; lra.
Qed.

(** The raw score of three finite non-negative values is within [10^-12]
    of the exact value of the formula. *)
Lemma raw_of_error a s e :
  is_finite a = true -> is_finite s = true -> is_finite e = true ->
  (0 <= F2Q a)%Q -> (0 <= F2Q s)%Q -> (0 <= F2Q e)%Q ->
  (- (1 # 1000000000000)
   <= F2Q (raw_of a s e) - ideal_raw_score (F2Q a) (F2Q s) (F2Q e)
   <= 1 # 1000000000000)%Q.
Proof.
  intros Hfa Hfs Hfe Ha Hs He.
  destruct caps_positive as (Ca & Cs & Ce). destruct shares_ok as (Wa & Ws & We).
  destruct config_values as (Va & Vs & Ve & Pa & Ps & Pe).
  destruct pow2_values as (_ & _ & _ & P53 & P46 & P44).
  assert (Ea := score_error a ASSET_CAP (w_asset WEIGHTS) _ _ Hfa Ha Ca Va (proj1 Wa) Pa
                ltac:(lra)).
  assert (Es := score_error s SALARY_CAP (w_salary WEIGHTS) _ _ Hfs Hs Cs Vs (proj1 Ws) Ps
                ltac:(lra)).
  assert (Ee := score_error e EXP_CAP (w_experience WEIGHTS) _ _ Hfe He Ce Ve (proj1 We) Pe
                ltac:(lra)).
  pose proof (raw_of_sum_error a s e (NN_finite _ Hfa Ha) (NN_finite _ Hfs Hs)
                (NN_finite _ Hfe He)) as Esum.
  unfold ideal_raw_score.
  set (s1 := score_of a ASSET_CAP (w_asset WEIGHTS)) in *.
  set (s2 := score_of s SALARY_CAP (w_salary WEIGHTS)) in *.
  set (s3 := score_of e EXP_CAP (w_experience WEIGHTS)) in *.
  set (N1 := Qcap1 (F2Q a / 10000000000)) in *.
  set (N2 := Qcap1 (F2Q s / 200000000)) in *.
  set (N3 := Qcap1 (F2Q e / 40)) in *.
  split; lra.
Qed.

Lemma round_Q_not_nan s q : round_Q s q <> S754_nan.
Proof.
  unfold round_Q, SFpack.
  destruct (Qnum q); [discriminate| |];
    destruct (rne _); try discriminate;
    destruct (Qle_bool _ _); try discriminate; destruct (Pos.eqb _ _); discriminate.
Qed.

Lemma float_of_Z_finite z f : float_of_Z z = Ok f -> is_finite f = true.
Proof.
  unfold float_of_Z. pose proof (round_Q_not_nan false (inject_Z z)) as Hn.
  destruct (round_Q false (inject_Z z)); intros H; inversion H; subst;
    [reflexivity | contradiction | reflexivity].
Qed.

Lemma py_max_zero_finite x : is_finite x = true -> is_finite (py_max (lit 0) x) = true.
Proof. intros H. unfold py_max. destruct (fgt x (lit 0)); [exact H | reflexivity]. Qed.

Lemma NN_finite_nonneg x : NN x -> is_finite x = true -> (0 <= F2Q x)%Q.
Proof.
  intros Hn Hf. destruct (NN_cases x Hn) as [->|[_ H]]; [discriminate | exact H].
Qed.

(** X17. Floating-point rounding does not move the score: when the asset
    and the salary are finite, the raw score that the engine returns is
    within [10^-12] of the exact rational value of the formula
    [500 + min(asset/1e10, 1) * (300 * 0.5) + min(salary/2e8, 1) * (300 * 0.3)
     + min(exp/40, 1) * (300 * 0.2)] at the values of the breakdown, and the
    credit score is within [1/2 + 10^-12] of it. *)
Theorem raw_score_accuracy (ci : CreditInputs) (calc : ComputationResult) :
  _compute_scores ci = Ok calc ->
  is_finite (value (c_asset (components calc))) = true ->
  is_finite (value (c_salary (components calc))) = true ->
  let exact := ideal_raw_score (F2Q (value (c_asset (components calc))))
                               (F2Q (value (c_salary (components calc))))
                               (F2Q (value (c_experience (components calc)))) in
  (Qabs (F2Q (raw_score calc) - exact) <= 1 # 1000000000000)%Q /\
  (Qabs (inject_Z (credit_score calc) - exact) <= (1 # 2) + (1 # 1000000000000))%Q.
Proof.
  intros Hc. destruct (compute_scores_inv ci calc Hc) as (f & Hf & ->).
  rewrite credit_score_scores_from.
  unfold scores_from, component_of. cbv zeta.
  cbn [components c_asset c_salary c_experience value raw_score].
  set (a := py_max (lit 0) (total_asset_value ci)).
  set (s := py_max (lit 0) (monthly_salary ci)).
  set (e := py_max (lit 0) f).
  intros Hfa Hfs.
  assert (Hfe : is_finite e = true) by (apply py_max_zero_finite, (float_of_Z_finite _ _ Hf)).
  pose proof (NN_finite_nonneg a (py_max_zero_NN _) Hfa) as Ha.
  pose proof (NN_finite_nonneg s (py_max_zero_NN _) Hfs) as Hs.
  pose proof (NN_finite_nonneg e (py_max_zero_NN _) Hfe) as He.
  pose proof (raw_of_error a s e Hfa Hfs Hfe Ha Hs He) as Herr.
  destruct (raw_of_bounds a s e (py_max_zero_NN _) (py_max_zero_NN _) (py_max_zero_NN _))
    as [Hfr Hr].
  pose proof (clamp_inactive _ Hfr Hr) as Hcl.
  pose proof (rne_error (F2Q (clamp_score (raw_of a s e)))) as Hrne.
  set (c := inject_Z (rne (F2Q (clamp_score (raw_of a s e))))) in *.
  split; apply Qabs_Qle_condition; split; lra.
Qed.

Lemma raw_score_accuracy_witness :
  _compute_scores sample_inputs
    = Ok (scores_from (lit 3333333333) (lit 12345678) (lit 7) 30) /\
  is_finite (value (c_asset (components
     (scores_from (lit 3333333333) (lit 12345678) (lit 7) 30)))) = true /\
  is_finite (value (c_salary (components
     (scores_from (lit 3333333333) (lit 12345678) (lit 7) 30)))) = true /\
  let calc := scores_from (lit 3333333333) (lit 12345678) (lit 7) 30 in
  let exact := ideal_raw_score (F2Q (value (c_asset (components calc))))
                               (F2Q (value (c_salary (components calc))))
                               (F2Q (value (c_experience (components calc)))) in
  (Qabs (F2Q (raw_score calc) - exact) <= 1 # 1000000000000)%Q /\
  (Qabs (inject_Z (credit_score calc) - exact) <= (1 # 2) + (1 # 1000000000000))%Q.
Proof.
  assert (Hc : _compute_scores sample_inputs
               = Ok (scores_from (lit 3333333333) (lit 12345678) (lit 7) 30))
    by (vm_compute; reflexivity).
  assert (H1 : is_finite (value (c_asset (components
     (scores_from (lit 3333333333) (lit 12345678) (lit 7) 30)))) = true)
    by (vm_compute; reflexivity).
  assert (H2 : is_finite (value (c_salary (components
     (scores_from (lit 3333333333) (lit 12345678) (lit 7) 30)))) = true)
    by (vm_compute; reflexivity).
  split; [exact Hc|]. split; [exact H1|]. split; [exact H2|].
  exact (raw_score_accuracy _ _ Hc H1 H2).
Defined.

(** ** The roundings for display *)

(** [round(x, n)] of a finite non-negative float below [2^k - 1] is within
    half a unit of the [n]-th decimal place, plus [2^(k-54)], of [x]. *)
Lemma py_round_nd_error x n k :
  is_finite x = true -> (0 <= F2Q x)%Q -> (F2Q x + 1 <= pow2 k)%Q -> -1000 <= k <= 1000 ->
  (- ((1 # 2) / inject_Z (10 ^ Z.of_N n) + pow2 (k - 54))
   <= F2Q (py_round_nd x n) - F2Q x
   <= (1 # 2) / inject_Z (10 ^ Z.of_N n) + pow2 (k - 54))%Q.
Proof.
  intros Hf H0 Hk Hr. pose proof (pow2_pos (k - 54)) as Hpk.
  set (p := inject_Z (10 ^ Z.of_N n)).
  assert (Hp1 : (1 <= p)%Q).
  { unfold p. change 1%Q with (inject_Z 1). rewrite <- Zle_Qle.
    assert (0 < 10 ^ Z.of_N n) by (apply Z.pow_pos_nonneg; lia). lia. }
  set (h := ((1 # 2) / p)%Q).
  assert (Hh : (h * p == 1 # 2)%Q) by (unfold h; field; lra).
  assert (Hh0 : (0 <= h)%Q) by (unfold h; apply Qle_shift_div_l; lra).
  assert (Hh1 : (h <= 1 # 2)%Q) by nra.
  destruct x as [s|s| |s m e]; try discriminate.
  - cbn [py_round_nd]. lra.
  - cbn [py_round_nd]. fold p. set (x := S754_finite s m e) in *.
    pose proof (rne_error (F2Q x * p)) as Hrne.
    assert (Hr0 : (0 <= inject_Z (rne (F2Q x * p)))%Q).
    { change 0%Q with (inject_Z 0). rewrite <- Zle_Qle. apply rne_ge_Z.
      change (inject_Z 0) with 0%Q. apply Qmult_le_0_compat; lra. }
    set (r := inject_Z (rne (F2Q x * p))) in *.
    assert (HD : (r / p * p == r)%Q) by (field; lra).
    set (D := (r / p)%Q) in *.
    assert (Herr : (- h <= D - F2Q x <= h)%Q) by (split; nra).
    assert (HD0 : (0 <= D)%Q) by (unfold D; apply Qle_shift_div_l; lra).
    destruct (round_Q_error s D k) as [_ HR]; [exact HD0 | lra | exact Hr |].
    lra.
Qed.

Lemma cap_value_spec f : (F2Q (cap_of f) == cap_value f)%Q.
Proof. destruct f; vm_compute; reflexivity. Qed.

Lemma share_value_spec f :
  is_finite (fmul BONUS_POOL (weight_of f)) = true /\
  (F2Q (fmul BONUS_POOL (weight_of f)) == inject_Z (max_points f))%Q /\
  (0 <= inject_Z (max_points f) <= 150)%Q.
Proof. destruct f; repeat split; try discriminate; vm_compute; reflexivity. Qed.

Lemma display_units :
  ((1 # 2) / inject_Z (10 ^ Z.of_N 6) == 1 # 2000000)%Q /\
  ((1 # 2) / inject_Z (10 ^ Z.of_N 2) == 1 # 200)%Q /\
  (pow2 (2 - 54) == 1 # 4503599627370496)%Q /\
  (pow2 (8 - 54) == 1 # 70368744177664)%Q /\
  (pow2 2 == 4)%Q /\ (pow2 8 == 256)%Q.
Proof. repeat split; vm_compute; reflexivity. Qed.

(** X18. The displayed values are the exact ones to their last digit: for
    a factor whose value is finite, the ratio in the breakdown is within
    [0.0000005 + 10^-15] of the exact ratio [min(value / cap, 1)], and the
    points are within [0.005 + 10^-12] of that ratio times the factor's
    share of the bonus pool. *)
Theorem displayed_values_accuracy (f : factor) (ci : CreditInputs)
    (calc : ComputationResult) :
  _compute_scores ci = Ok calc ->
  is_finite (value (component f calc)) = true ->
  let n := Qcap1 (F2Q (value (component f calc)) / cap_value f) in
  (Qabs (F2Q (norm (component f calc)) - n) <= (1 # 2000000) + (1 # 1000000000000000))%Q /\
  (Qabs (F2Q (points (component f calc)) - n * inject_Z (max_points f))
   <= (1 # 200) + (1 # 1000000000000))%Q.
Proof.
  intros Hc. destruct (scored_inv ci calc Hc) as (a & s & e & g & -> & Ha & Hs & He).
  rewrite component_scores_from.
  set (v := match f with Asset => a | Salary => s | Experience => e end).
  assert (Hv : NN v) by (destruct f; assumption).
  unfold component_of. cbn [value norm points]. intros Hfv. cbv zeta.
  pose proof (NN_finite_nonneg v Hv Hfv) as Hv0.
  destruct (share_value_spec f) as (Hfw & HP & HPr).
  pose proof (norm_error v (cap_of f) (cap_value f) Hfv Hv0 (cap_of_positive f)
                (cap_value_spec f)) as En.
  pose proof (score_error v (cap_of f) (weight_of f) (cap_value f) _ Hfv Hv0
                (cap_of_positive f) (cap_value_spec f) Hfw HP HPr) as Es.
  destruct (norm_of_range v (cap_of f) Hv (cap_of_positive f)) as [Hfn Hn].
  destruct (score_of_range f v Hv) as [Hfs Hsr].
  destruct display_units as (U6 & U2 & Q2 & Q8 & V2 & V8).
  destruct pow2_values as (_ & _ & _ & P53 & P46 & _).
  assert (Dn := py_round_nd_error (norm_of v (cap_of f)) 6 2 Hfn ltac:(lra) ltac:(lra)
                  ltac:(lia)).
  assert (Ds := py_round_nd_error (score_of v (cap_of f) (weight_of f)) 2 8 Hfs
                  ltac:(lra) ltac:(lra) ltac:(lia)).
  set (N := Qcap1 (F2Q v / cap_value f)) in *.
  set (P := inject_Z (max_points f)) in *.
  split; apply Qabs_Qle_condition; split; lra.
Qed.

Lemma displayed_values_accuracy_witness :
  _compute_scores sample_inputs
    = Ok (scores_from (lit 3333333333) (lit 12345678) (lit 7) 30) /\
  is_finite (value (component Asset
     (scores_from (lit 3333333333) (lit 12345678) (lit 7) 30))) = true /\
  let calc := scores_from (lit 3333333333) (lit 12345678) (lit 7) 30 in
  let n := Qcap1 (F2Q (value (component Asset calc)) / cap_value Asset) in
  (Qabs (F2Q (norm (component Asset calc)) - n)
   <= (1 # 2000000) + (1 # 1000000000000000))%Q /\
  (Qabs (F2Q (points (component Asset calc)) - n * inject_Z (max_points Asset))
   <= (1 # 200) + (1 # 1000000000000))%Q.
Proof.
  assert (Hc : _compute_scores sample_inputs
               = Ok (scores_from (lit 3333333333) (lit 12345678) (lit 7) 30))
    by (vm_compute; reflexivity).
  assert (H1 : is_finite (value (component Asset
     (scores_from (lit 3333333333) (lit 12345678) (lit 7) 30))) = true)
    by (vm_compute; reflexivity).
  split; [exact Hc|]. split; [exact H1|].
  exact (displayed_values_accuracy Asset _ _ Hc H1).
Defined.

(** ** Inputs that are always scored *)

Lemma not_below_zero x : NN x -> flt_int x 0 = false.
Proof. intros H. unfold flt_int. apply xltb_xle_false. exact H. Qed.

Lemma plain_float_field fld (inputs : gmap string json) :
  fld = FAsset \/ fld = FSalary ->
  (forall v, inputs !! field_name fld = Some v -> plain_value fld v) ->
  exists x, py_float (dict_get inputs (field_name fld) (JInt 0)) = Ok x /\
            flt_int x 0 = false.
Proof.
  intros Hfld H. unfold dict_get.
  destruct (inputs !! field_name fld) as [v|] eqn:E.
  - specialize (H v eq_refl). destruct v as [|b|z|x|s|l|l]; try destruct H.
    + destruct (float_of_Z_ok z (conj H H0)) as [f Hf].
      exists f. split; [exact Hf|].
      destruct (float_of_Z_nonneg z f H Hf) as [Hfin Hpos].
      apply not_below_zero, NN_finite; assumption.
    + exists x. split; [reflexivity | apply not_below_zero; assumption].
  - exists (S754_zero false). split; reflexivity.
Qed.

Lemma plain_int_field fld (inputs : gmap string json) :
  fld = FExperience \/ fld = FAge ->
  (forall v, inputs !! field_name fld = Some v -> plain_value fld v) ->
  exists z, py_int (dict_get inputs (field_name fld) (JInt 0)) = Ok z /\
            0 <= z < float_int_limit.
Proof.
  intros Hfld H. unfold dict_get.
  destruct (inputs !! field_name fld) as [v|] eqn:E.
  - specialize (H v eq_refl). destruct v as [|b|z|x|s|l|l]; try destruct H.
    + exists z. split; [reflexivity | lia].
    + exfalso. destruct Hfld as [-> | ->]; destruct H as [H|H]; discriminate.
  - exists 0. split; [reflexivity | vm_compute; split; [discriminate | reflexivity]].
Qed.

(** X19. Plain inputs are always scored: when each of the four fields is
    absent, or an int from 0 to below [2^1024 - 2^970], or (for asset and
    salary) a float that is neither negative nor NaN, both tools return a
    result, not an error and not an exception. *)
Theorem plain_inputs_are_scored (inputs : gmap string json) :
  (forall fld v, inputs !! field_name fld = Some v -> plain_value fld v) ->
  exists a b,
    classify_customer inputs = Ok (Success a) /\
    score_breakdown inputs = Ok (Success b).
Proof.
  intros H.
  destruct (plain_float_field FAsset inputs (or_introl eq_refl) (H FAsset))
    as (a & Ha & Na).
  destruct (plain_float_field FSalary inputs (or_intror eq_refl) (H FSalary))
    as (s & Hs & Ns).
  destruct (plain_int_field FExperience inputs (or_introl eq_refl) (H FExperience))
    as (x & Hx & Rx).
  destruct (plain_int_field FAge inputs (or_intror eq_refl) (H FAge))
    as (g & Hg & Rg).
  cbn [field_name] in Ha, Hs, Hx, Hg.
  rewrite classify_customer_unfold, score_breakdown_unfold, sanitize_unfold.
  rewrite Ha, Hs, Hx, Hg, Na, Ns.
  replace (x <? 0) with false by (symmetry; apply Z.ltb_ge; lia).
  replace (g <? 0) with false by (symmetry; apply Z.ltb_ge; lia).
  cbn [orb].
  destruct (compute_scores_ok {| total_asset_value := a; monthly_salary := s;
                                 work_experiences := x; age := g |} Rx) as [calc ->].
  eauto.
Qed.

Lemma plain_inputs_are_scored_witness :
  (forall fld v, all_at_cap_age_30 !! field_name fld = Some v -> plain_value fld v) /\
  exists a b,
    classify_customer all_at_cap_age_30 = Ok (Success a) /\
    score_breakdown all_at_cap_age_30 = Ok (Success b).
Proof.
  assert (H : forall fld v, all_at_cap_age_30 !! field_name fld = Some v -> plain_value fld v).
  { assert (L1 : all_at_cap_age_30 !! "total_asset_value" = Some (JFloat (lit 10000000000)))
      by (vm_compute; reflexivity).
    assert (L2 : all_at_cap_age_30 !! "monthly_salary" = Some (JFloat (lit 200000000)))
      by (vm_compute; reflexivity).
    assert (L3 : all_at_cap_age_30 !! "work_experiences" = Some (JInt 40))
      by (vm_compute; reflexivity).
    assert (L4 : all_at_cap_age_30 !! "age" = Some (JInt 30)) by (vm_compute; reflexivity).
    intros fld v E. destruct fld; cbn [field_name] in E;
      rewrite ?L1, ?L2, ?L3, ?L4 in E; inversion E; subst v; cbn [plain_value].
    - split; [left; reflexivity | vm_compute; reflexivity].
    - split; [right; reflexivity | vm_compute; reflexivity].
    - split; [lia | vm_compute; reflexivity].
    - split; [lia | vm_compute; reflexivity]. }
  split; [exact H|]. exact (plain_inputs_are_scored _ H).
Defined.

(** ** The validated record as an input *)

Lemma record_as_inputs_get ci :
  dict_get (record_as_inputs ci) "total_asset_value" (JInt 0) = JFloat (total_asset_value ci) /\
  dict_get (record_as_inputs ci) "monthly_salary" (JInt 0) = JFloat (monthly_salary ci) /\
  dict_get (record_as_inputs ci) "work_experiences" (JInt 0) = JInt (work_experiences ci) /\
  dict_get (record_as_inputs ci) "age" (JInt 0) = JInt (age ci).
Proof.
  unfold record_as_inputs, dict_get. repeat split.
Qed.

(** X20. Sanitising is a projection: the record that the sanitiser
    returns, written back as an input dict, is accepted and gives the same
    record again, and both tools answer on it as on the original input. *)
Theorem sanitize_round_trip (inputs : gmap string json) (ci : CreditInputs) :
  _sanitize_and_cast inputs = Ok ci ->
  _sanitize_and_cast (record_as_inputs ci) = Ok ci /\
  classify_customer (record_as_inputs ci) = classify_customer inputs /\
  score_breakdown (record_as_inputs ci) = score_breakdown inputs.
Proof.
  intros H.
  destruct (sanitize_ok_inv inputs ci H) as (_ & _ & _ & _ & Na & Ns & Nx & Ng).
  destruct (record_as_inputs_get ci) as (Ga & Gs & Gx & Gg).
  assert (Hs : _sanitize_and_cast (record_as_inputs ci) = Ok ci).
  { rewrite sanitize_unfold, Ga, Gs, Gx, Gg. cbn [py_float py_int]. rewrite Na, Ns.
    replace (work_experiences ci <? 0) with false by (symmetry; apply Z.ltb_ge; lia).
    replace (age ci <? 0) with false by (symmetry; apply Z.ltb_ge; lia).
    cbn [orb]. destruct ci; reflexivity. }
  split; [exact Hs|]. apply tools_after_sanitiser. rewrite Hs, H. reflexivity.
Qed.

Lemma sanitize_round_trip_witness :
  _sanitize_and_cast ∅ = Ok zero_inputs /\
  _sanitize_and_cast (record_as_inputs zero_inputs) = Ok zero_inputs /\
  classify_customer (record_as_inputs zero_inputs) = classify_customer ∅ /\
  score_breakdown (record_as_inputs zero_inputs) = score_breakdown ∅.
Proof.
  assert (H : _sanitize_and_cast ∅ = Ok zero_inputs) by (vm_compute; reflexivity).
  split; [exact H|]. exact (sanitize_round_trip ∅ zero_inputs H).
Defined.

(** ** The conversion of the experience to a float *)

Lemma pow2_opp e : (pow2 e * pow2 (- e) == 1)%Q.
Proof. rewrite <- pow2_add. replace (e + - e) with 0 by lia. reflexivity. Qed.

(** An int below [2^53] is a float: its rounding is exact. *)
Lemma round_Q_int_exact s z :
  0 < z < 2 ^ 53 ->
  is_finite (round_Q s (inject_Z z)) = true /\
  (F2Q (round_Q s (inject_Z z)) == inject_Z z)%Q.
Proof.
  intros [Hz0 Hz1]. set (q := inject_Z z).
  assert (Hq : (0 < q)%Q) by (unfold q; change 0%Q with (inject_Z 0); rewrite <- Zlt_Qlt; lia).
  assert (Hq53 : (q < pow2 53)%Q).
  { unfold q. rewrite <- (pow2_inject 53) by lia. rewrite <- Zlt_Qlt. exact Hz1. }
  pose proof (Qmag_below q 53 Hq Hq53) as Hmag.
  assert (He : fexp q <= 0) by (unfold fexp, prec, emin; lia).
  pose proof (pow2_pos (fexp q)) as HP. pose proof (pow2_opp (fexp q)) as Hopp.
  assert (Hinj : (inject_Z (2 ^ (- fexp q)) == pow2 (- fexp q))%Q) by (apply pow2_inject; lia).
  assert (Hx : (q / pow2 (fexp q) == inject_Z (z * 2 ^ (- fexp q)))%Q).
  { rewrite inject_Z_mult, Hinj. fold q.
    unfold Qdiv.
    assert (Hinv : (/ pow2 (fexp q) == pow2 (- fexp q))%Q).
    { apply (Qmult_inj_l _ _ (pow2 (fexp q))); [lra|].
      rewrite Qmult_inv_r by lra. rewrite Hopp. reflexivity. }
    rewrite Hinv. reflexivity. }
  assert (Hm : rmant q = z * 2 ^ (- fexp q)).
  { unfold rmant. rewrite (rne_comp _ _ Hx). apply rne_Z. }
  assert (Hv : (rval q == q)%Q).
  { unfold rval. rewrite Hm, inject_Z_mult, Hinj. fold q.
    rewrite <- Qmult_assoc, (Qmult_comm (pow2 (- fexp q))), Hopp. apply Qmult_1_r. }
  destruct (round_Q_pos_cases s q Hq) as [[Hov _]|(_ & Hf & Hval)].
  - exfalso. rewrite Hv in Hov.
    assert (pow2 53 <= pow2 1024)%Q by (apply pow2_le; lia). lra.
  - split; [exact Hf|]. rewrite Hval. exact Hv.
Qed.

Lemma float_of_Z_exact z f :
  0 <= z <= 2 ^ 53 -> float_of_Z z = Ok f ->
  is_finite f = true /\ (F2Q f == inject_Z z)%Q.
Proof.
  intros Hz Hf. pose proof (float_of_Z_finite z f Hf) as Hfin. split; [exact Hfin|].
  unfold float_of_Z in Hf.
  assert (E : f = round_Q false (inject_Z z)).
  { destruct (round_Q false (inject_Z z)); inversion Hf; reflexivity. }
  subst f.
  destruct (Z.eq_dec z 0) as [->|Hn0]; [reflexivity|].
  destruct (Z.eq_dec z (2 ^ 53)) as [->|Hn53]; [vm_compute; reflexivity|].
  apply round_Q_int_exact. lia.
Qed.

(** X21. The engine's conversion of the experience to a float loses
    nothing for experiences up to [2^53]: the experience value of the
    breakdown is exactly the validated integer. *)
Theorem experience_value_exact (ci : CreditInputs) (calc : ComputationResult) :
  _compute_scores ci = Ok calc ->
  0 <= work_experiences ci <= 2 ^ 53 ->
  is_finite (value (c_experience (components calc))) = true /\
  (F2Q (value (c_experience (components calc))) == inject_Z (work_experiences ci))%Q.
Proof.
  intros Hc Hx. destruct (compute_scores_inv ci calc Hc) as (f & Hf & ->).
  unfold scores_from, component_of. cbv zeta. cbn [components c_experience value].
  destruct (float_of_Z_exact _ f Hx Hf) as [Hfin Hval].
  split; [apply py_max_zero_finite, Hfin|].
  unfold py_max, fgt, flt. rewrite (F2X_finite _ Hfin).
  change (F2X (lit 0)) with (XFin 0). unfold xltb.
  destruct (Qltb 0 (F2Q f)) eqn:E; [exact Hval|].
  apply Qltb_false in E. rewrite Hval in E.
  assert (H0 : (0 <= inject_Z (work_experiences ci))%Q).
  { change 0%Q with (inject_Z 0). rewrite <- Zle_Qle. lia. }
  change (F2Q (lit 0)) with 0%Q. lra.
Qed.

Lemma experience_value_exact_witness :
  _compute_scores sample_inputs
    = Ok (scores_from (lit 3333333333) (lit 12345678) (lit 7) 30) /\
  0 <= work_experiences sample_inputs <= 2 ^ 53 /\
  is_finite (value (c_experience (components
     (scores_from (lit 3333333333) (lit 12345678) (lit 7) 30)))) = true /\
  (F2Q (value (c_experience (components
     (scores_from (lit 3333333333) (lit 12345678) (lit 7) 30))))
   == inject_Z (work_experiences sample_inputs))%Q.
Proof.
  assert (Hc : _compute_scores sample_inputs
               = Ok (scores_from (lit 3333333333) (lit 12345678) (lit 7) 30))
    by (vm_compute; reflexivity).
  assert (Hx : 0 <= work_experiences sample_inputs <= 2 ^ 53)
    by (vm_compute; split; discriminate).
  split; [exact Hc|]. split; [exact Hx|].
  exact (experience_value_exact _ _ Hc Hx).
Defined.

(** ** The answer of [classify_customer] explains itself *)

(** X22. Every successful answer of [classify_customer] carries what
    decides its label: the age in its reasons is the validated age, and
    the label and the rationale are those the classification rule gives for
    the credit score and the age of that same answer. *)
Theorem response_explains_label (inputs : gmap string json) (r : Classified) :
  classify_customer inputs = Ok (Success r) ->
  0 <= cr_age (r_classification (reasons r)) /\
  (cl_classification r, reason (r_classification (reasons r)))
    = classify (cl_credit_score r) (cr_age (r_classification (reasons r))) /\
  (exists ci, _sanitize_and_cast inputs = Ok ci /\
              cr_age (r_classification (reasons r)) = age ci).
Proof.
  intros H.
  destruct (tool_run_total inputs) as [msg _ Hcl _|ci calc Hs Hc Hcl _|ci e _ _ Hcl _];
    rewrite Hcl in H; try discriminate.
  inversion H. clear H. subst r.
  destruct (sanitize_ok_inv inputs ci Hs) as (_ & _ & _ & _ & _ & _ & _ & Hage).
  destruct (compute_scores_inv ci calc Hc) as (f & _ & ->).
  unfold classified_of. cbn [reasons r_classification cr_age reason cl_classification
                             cl_credit_score].
  split; [exact Hage|]. split; [|exists ci; split; [exact Hs | reflexivity]].
  rewrite credit_score_scores_from.
  unfold scores_from. cbv zeta. cbn [classification reason_class].
  assert (Ea : py_max_int 0 (age ci) = age ci).
  { unfold py_max_int. destruct (Z.gtb_spec (age ci) 0); lia. }
  rewrite Ea. symmetry. apply surjective_pairing.
Qed.

Lemma response_explains_label_witness :
  classify_customer ∅
    = Ok (Success (classified_of zero_inputs (scores_from (lit 0) (lit 0) (lit 0) 0))) /\
  let r := classified_of zero_inputs (scores_from (lit 0) (lit 0) (lit 0) 0) in
  0 <= cr_age (r_classification (reasons r)) /\
  (cl_classification r, reason (r_classification (reasons r)))
    = classify (cl_credit_score r) (cr_age (r_classification (reasons r))) /\
  (exists ci, _sanitize_and_cast ∅ = Ok ci /\
              cr_age (r_classification (reasons r)) = age ci).
Proof.
  assert (H : classify_customer ∅
    = Ok (Success (classified_of zero_inputs (scores_from (lit 0) (lit 0) (lit 0) 0))))
    by (vm_compute; reflexivity).
  split; [exact H|]. exact (response_explains_label ∅ _ H).
Defined.

(** ** The breakdown adds up *)

(** X23. The displayed points add up to the raw score: the raw score
    differs from the base plus the three displayed points by at most
    [0.015 + 10^-12] (half a cent of rounding for each factor). *)
Theorem breakdown_adds_up (ci : CreditInputs) (calc : ComputationResult) :
  _compute_scores ci = Ok calc ->
  (Qabs (F2Q (raw_score calc)
         - (500 + F2Q (points (c_asset (components calc)))
                + F2Q (points (c_salary (components calc)))
                + F2Q (points (c_experience (components calc)))))
   <= (15 # 1000) + (1 # 1000000000000))%Q.
Proof.
  intros Hc. destruct (scored_inv ci calc Hc) as (a & s & e & g & -> & Ha & Hs & He).
  unfold scores_from, component_of. cbv zeta.
  cbn [components c_asset c_salary c_experience points raw_score].
  pose proof (raw_of_sum_error a s e Ha Hs He) as Esum.
  destruct (score_of_range Asset a Ha) as [Hf1 R1].
  destruct (score_of_range Salary s Hs) as [Hf2 R2].
  destruct (score_of_range Experience e He) as [Hf3 R3].
  cbn [cap_of weight_of max_points] in *.
  change (inject_Z 150) with 150%Q in R1. change (inject_Z 90) with 90%Q in R2.
  change (inject_Z 60) with 60%Q in R3.
  destruct display_units as (_ & U2 & _ & Q8 & _ & V8).
  destruct pow2_values as (_ & _ & _ & _ & _ & P44).
  assert (D1 := py_round_nd_error _ 2 8 Hf1 ltac:(lra) ltac:(lra) ltac:(lia)).
  assert (D2 := py_round_nd_error _ 2 8 Hf2 ltac:(lra) ltac:(lra) ltac:(lia)).
  assert (D3 := py_round_nd_error _ 2 8 Hf3 ltac:(lra) ltac:(lra) ltac:(lia)).
  set (s1 := score_of a ASSET_CAP (w_asset WEIGHTS)) in *.
  set (s2 := score_of s SALARY_CAP (w_salary WEIGHTS)) in *.
  set (s3 := score_of e EXP_CAP (w_experience WEIGHTS)) in *.
  apply Qabs_Qle_condition; split; lra.
Qed.

Lemma breakdown_adds_up_witness :
  _compute_scores sample_inputs
    = Ok (scores_from (lit 3333333333) (lit 12345678) (lit 7) 30) /\
  let calc := scores_from (lit 3333333333) (lit 12345678) (lit 7) 30 in
  (Qabs (F2Q (raw_score calc)
         - (500 + F2Q (points (c_asset (components calc)))
                + F2Q (points (c_salary (components calc)))
                + F2Q (points (c_experience (components calc)))))
   <= (15 # 1000) + (1 # 1000000000000))%Q.
Proof.
  assert (Hc : _compute_scores sample_inputs
               = Ok (scores_from (lit 3333333333) (lit 12345678) (lit 7) 30))
    by (vm_compute; reflexivity).
  split; [exact Hc|]. exact (breakdown_adds_up _ _ Hc).
Defined.

(** ** The entries of the breakdown grow with their factor *)

Lemma py_round_nd_mono x y n :
  is_finite x = true -> is_finite y = true ->
  (0 <= F2Q x)%Q -> (F2Q x <= F2Q y)%Q ->
  xle (F2X (py_round_nd x n)) (F2X (py_round_nd y n)).
Proof.
  intros Hfx Hfy H0 Hxy.
  set (p := inject_Z (10 ^ Z.of_N n)).
  assert (Hp : (0 < p)%Q).
  { unfold p. change 0%Q with (inject_Z 0). rewrite <- Zlt_Qlt.
    apply Z.pow_pos_nonneg; lia. }
  assert (Hq : forall z, (0 <= F2Q z)%Q -> (0 <= inject_Z (rne (F2Q z * p)) / p)%Q).
  { intros z Hz. apply Qle_shift_div_l; [exact Hp|]. rewrite Qmult_0_l.
    change 0%Q with (inject_Z 0). rewrite <- Zle_Qle. apply rne_ge_Z.
    change (inject_Z 0) with 0%Q. apply Qmult_le_0_compat; lra. }
  destruct x as [sx|sx| |sx mx ex]; try discriminate;
    destruct y as [sy|sy| |sy my ey]; try discriminate; cbn [py_round_nd]; fold p.
  - apply xle_fin. cbn [F2Q]. lra.
  - apply round_Q_nonneg. apply Hq. lra.
  - assert (Hx0 : (F2Q (S754_finite sx mx ex) == 0)%Q).
    { change (F2Q (S754_zero sy)) with 0%Q in Hxy. lra. }
    rewrite round_Q_zero; [apply xle_fin; cbn [F2Q]; lra|].
    assert (E : (F2Q (S754_finite sx mx ex) * p == inject_Z 0)%Q)
      by (rewrite Hx0; change (inject_Z 0) with 0%Q; ring).
    rewrite (rne_comp _ _ E), rne_Z. reflexivity.
  - apply round_Q_mono; [apply Hq, H0|].
    unfold Qdiv. apply Qmult_le_compat_r; [|apply Qlt_le_weak, Qinv_lt_0_compat, Hp].
    rewrite <- Zle_Qle. apply rne_mono. apply Qmult_le_compat_r; lra.
Qed.

Lemma F2Q_le_of_xle x y :
  is_finite x = true -> is_finite y = true -> xle (F2X x) (F2X y) -> (F2Q x <= F2Q y)%Q.
Proof.
  intros Hx Hy H. rewrite (F2X_finite _ Hx), (F2X_finite _ Hy) in H. apply xle_fin, H.
Qed.

(** The displayed ratio and points of a factor grow with its value. *)
Lemma component_of_mono f v v' :
  NN v -> xle (F2X v) (F2X v') ->
  (F2Q (norm (component_of v (cap_of f) (weight_of f)))
   <= F2Q (norm (component_of v' (cap_of f) (weight_of f))))%Q /\
  (F2Q (points (component_of v (cap_of f) (weight_of f)))
   <= F2Q (points (component_of v' (cap_of f) (weight_of f))))%Q.
Proof.
  intros Hv Hvv.
  assert (Hv' : NN v') by exact (xle_trans _ _ _ Hv Hvv).
  pose proof (cap_of_positive f) as Hc. pose proof (weight_of_share f) as Hw.
  destruct (norm_of_range v _ Hv Hc) as [Hfn Hn].
  destruct (norm_of_range v' _ Hv' Hc) as [Hfn' Hn'].
  destruct (score_of_range f v Hv) as [Hfs Hs].
  destruct (score_of_range f v' Hv') as [Hfs' Hs'].
  destruct (full_share f) as (_ & Hff & _). destruct lit_1_val as [Hf1 H1].
  destruct (py_round_nd_range (norm_of v (cap_of f)) 6 1 Hfn Hn Hf1) as [Rn _].
  destruct (py_round_nd_range (norm_of v' (cap_of f)) 6 1 Hfn' Hn' Hf1) as [Rn' _].
  destruct (py_round_nd_range (score_of v (cap_of f) (weight_of f)) 2 _ Hfs Hs Hff)
    as [Rs _].
  destruct (py_round_nd_range (score_of v' (cap_of f) (weight_of f)) 2 _ Hfs' Hs' Hff)
    as [Rs' _].
  unfold component_of. cbn [norm points]. split.
  - apply F2Q_le_of_xle; [exact Rn | exact Rn'|].
    apply py_round_nd_mono; [exact Hfn | exact Hfn' | lra |].
    apply norm_of_mono; assumption.
  - apply F2Q_le_of_xle; [exact Rs | exact Rs'|].
    apply py_round_nd_mono; [exact Hfs | exact Hfs' | lra |].
    apply F2Q_le_of_xle; [exact Hfs | exact Hfs'|].
    apply score_of_mono; assumption.
Qed.

(** X24. The entries of the breakdown grow with their factor: for a
    validated record, raising asset, salary or experience with the other
    fields fixed never lowers the displayed ratio or the displayed points
    of that factor, and leaves the entries of the other two factors
    unchanged. *)
Theorem components_monotone (f : factor) (ci ci' : CreditInputs)
    (calc calc' : ComputationResult) :
  validated ci ->
  raised f ci ci' ->
  _compute_scores ci = Ok calc ->
  _compute_scores ci' = Ok calc' ->
  (F2Q (norm (component f calc)) <= F2Q (norm (component f calc')))%Q /\
  (F2Q (points (component f calc)) <= F2Q (points (component f calc')))%Q /\
  (forall g, g <> f -> component g calc' = component g calc).
Proof.
  intros [inputs Hs] [Hage Hf] Hc Hc'.
  destruct (sanitize_ok_inv inputs ci Hs) as (_ & _ & _ & _ & _ & _ & Hx & _).
  destruct (compute_scores_inv ci calc Hc) as (e & He & ->).
  destruct (compute_scores_inv ci' calc' Hc') as (e' & He' & ->).
  rewrite !component_scores_from.
  assert (Hself : forall x, xle (F2X (py_max (lit 0) x)) (F2X (py_max (lit 0) x)))
    by (intros x; apply xle_self, py_max_zero_NN).
  destruct f; destruct Hf as (H1 & H2 & H3).
  - rewrite H3, He in He'. inversion He'. subst e'. rewrite H2.
    destruct (component_of_mono Asset _ _ (py_max_zero_NN (total_asset_value ci))
                (py_max_zero_mono _ _ H1)) as [Hn Hp].
    split; [exact Hn|]. split; [exact Hp|].
    intros g Hg. rewrite !component_scores_from. destruct g; [contradiction | |]; reflexivity.
  - rewrite H3, He in He'. inversion He'. subst e'. rewrite H2.
    destruct (component_of_mono Salary _ _ (py_max_zero_NN (monthly_salary ci))
                (py_max_zero_mono _ _ H1)) as [Hn Hp].
    split; [exact Hn|]. split; [exact Hp|].
    intros g Hg. rewrite !component_scores_from. destruct g; [|contradiction|]; reflexivity.
  - rewrite H2, H3.
    assert (Hee : xle (F2X e) (F2X e'))
      by (apply (float_of_Z_mono (work_experiences ci) (work_experiences ci')); auto).
    destruct (component_of_mono Experience _ _ (py_max_zero_NN e)
                (py_max_zero_mono _ _ Hee)) as [Hn Hp].
    split; [exact Hn|]. split; [exact Hp|].
    intros g Hg. rewrite !component_scores_from. destruct g; [| |contradiction]; reflexivity.
Qed.

Lemma components_monotone_witness :
  validated zero_inputs /\
  raised Asset zero_inputs half_asset_inputs /\
  _compute_scores zero_inputs = Ok (scores_from (lit 0) (lit 0) (lit 0) 0) /\
  _compute_scores half_asset_inputs = Ok (scores_from (lit 5000000000) (lit 0) (lit 0) 0) /\
  let calc := scores_from (lit 0) (lit 0) (lit 0) 0 in
  let calc' := scores_from (lit 5000000000) (lit 0) (lit 0) 0 in
  (F2Q (norm (component Asset calc)) <= F2Q (norm (component Asset calc')))%Q /\
  (F2Q (points (component Asset calc)) <= F2Q (points (component Asset calc')))%Q /\
  (forall g, g <> Asset -> component g calc' = component g calc).
Proof.
  assert (Hv : validated zero_inputs) by (exists ∅; vm_compute; reflexivity).
  assert (Hr : raised Asset zero_inputs half_asset_inputs)
    by (repeat split; vm_compute; reflexivity).
  assert (Hc : _compute_scores zero_inputs = Ok (scores_from (lit 0) (lit 0) (lit 0) 0))
    by (vm_compute; reflexivity).
  assert (Hc' : _compute_scores half_asset_inputs
                = Ok (scores_from (lit 5000000000) (lit 0) (lit 0) 0))
    by (vm_compute; reflexivity).
  split; [exact Hv|]. split; [exact Hr|]. split; [exact Hc|]. split; [exact Hc'|].
  exact (components_monotone Asset _ _ _ _ Hv Hr Hc Hc').
Defined.

(** ** Booleans among the inputs *)

(** X25. A JSON boolean counts as a number: in each of the four fields
    [true] is treated as 1 and [false] as 0, so both tools answer as they
    do for that number. *)
Theorem boolean_counts_as_number (fld : field) (inputs : gmap string json) (b : bool) :
  classify_customer (<[field_name fld := JBool b]> inputs)
    = classify_customer (<[field_name fld := JInt (if b then 1 else 0)]> inputs) /\
  score_breakdown (<[field_name fld := JBool b]> inputs)
    = score_breakdown (<[field_name fld := JInt (if b then 1 else 0)]> inputs).
Proof.
  apply tools_after_sanitiser. rewrite !sanitize_unfold.
  destruct fld; cbn [field_name];
    rewrite !dict_get_insert_eq, !dict_get_insert_ne by discriminate;
    destruct b; reflexivity.
Qed.

(** ** Decimal strings for asset and salary *)

Lemma digits_more_digits_then ds rest :
  Forall is_digit ds ->
  rest = EmptyString \/
    (exists c r, rest = String c r /\ digit_of c = None /\ Ascii.eqb c "_" = false) ->
  forall acc n,
    digits_more acc n (digits_string ds +:+ rest)
    = (fold_left (fun a d => 10 * a + d) ds acc, (n + length ds)%nat, rest).
Proof.
  intros Hds Hrest. induction Hds as [|d ds Hd _ IH]; intros acc n.
  - cbn [digits_string fold_left length]. rewrite append_nil, Nat.add_0_r.
    destruct Hrest as [->|(c & r & -> & Hc & Hu)]; [reflexivity|].
    cbn [digits_more]. rewrite Hc, Hu. reflexivity.
  - cbn [digits_string fold_left length]. rewrite append_cons. cbn [digits_more].
    destruct (digit_char_spec d Hd) as (-> & _). rewrite IH, Nat.add_succ_r. reflexivity.
Qed.

Lemma digits_value_app ds1 ds2 :
  digits_value (ds1 ++ ds2)
  = digits_value ds1 * 10 ^ Z.of_nat (length ds2) + digits_value ds2.
Proof.
  unfold digits_value. rewrite fold_left_app.
  generalize (fold_left (fun acc d => 10 * acc + d) ds1 0). intros a.
  assert (H : forall ds acc,
    fold_left (fun acc d => 10 * acc + d) ds acc
    = acc * 10 ^ Z.of_nat (length ds) + fold_left (fun acc d => 10 * acc + d) ds 0).
  { induction ds as [|d ds IH]; intros acc; [cbn; lia|].
    cbn [fold_left length]. rewrite (IH (10 * acc + d)), (IH (10 * 0 + d)).
    rewrite Nat2Z.inj_succ, Z.pow_succ_r by lia. ring. }
  apply H.
Qed.

Lemma Qpow10_neg n :
  (Qpow10 (0 - Z.of_nat n) == / inject_Z (10 ^ Z.of_nat n))%Q.
Proof.
  unfold Qpow10. replace (0 - Z.of_nat n) with (- Z.of_nat n) by lia.
  rewrite Qpower_opp. apply Qinv_comp.
  symmetry. apply Zpower_Qpower. lia.
Qed.

Lemma digit_part_fraction ds : Forall is_digit ds ->
  digit_part (digits_string ds) = (digits_value ds, length ds, EmptyString).
Proof.
  intros H. destruct ds as [|d ds]; [reflexivity|]. apply digit_part_digits, H.
Qed.

(** X26. [float] of a decimal string: the conversion used for asset and
    salary accepts every string made of one or more decimal digits, a
    point, and any number of decimal digits, and returns the float nearest
    to the decimal number written (where the integer conversion of
    experience and age rejects every such string). *)
Theorem float_of_decimal_string (ds1 ds2 : list Z) :
  Forall is_digit ds1 -> Forall is_digit ds2 ->
  (1 <= length ds1)%nat ->
  float_of_string (digits_string ds1 +:+ "." +:+ digits_string ds2)
  = Ok (lit (inject_Z (digits_value (ds1 ++ ds2)) / inject_Z (10 ^ Z.of_nat (length ds2)))) /\
  int_of_string (digits_string ds1 +:+ "." +:+ digits_string ds2)
  = Raise (ValueError "invalid literal for int() with base 10").
Proof.
  intros H1 H2 Hlen. split.
  2: { apply (int_of_string_foreign "."); [exact dot_is_foreign|].
       clear. induction ds1 as [|d ds IH]; [reflexivity|].
       cbn [digits_string]. rewrite append_cons. cbn [has_char]. rewrite IH.
       apply orb_true_r. }
  destruct ds1 as [|d ds1]; [cbn in Hlen; lia|].
  assert (Hd : is_digit d) by (inversion H1; assumption).
  assert (Hds1 : Forall is_digit ds1) by (inversion H1; assumption).
  destruct (digit_char_spec d Hd) as (Hdig & Hsp & Hm & Hp).
  set (frac := String "." (digits_string ds2)).
  assert (Hfrac : rstrip frac = frac).
  { unfold frac. cbn [rstrip]. rewrite (rstrip_digits ds2 H2).
    destruct (digits_string ds2); reflexivity. }
  assert (Hstrip : strip (digits_string (d :: ds1) +:+ frac) = digits_string (d :: ds1) +:+ frac).
  { unfold strip. rewrite rstrip_prefix; rewrite Hfrac; [|discriminate].
    cbn [digits_string]. rewrite append_cons. cbn [lstrip]. rewrite Hsp. reflexivity. }
  assert (Hsign : split_sign (digits_string (d :: ds1) +:+ frac)
                  = (false, digits_string (d :: ds1) +:+ frac)).
  { cbn [digits_string]. rewrite append_cons. cbn [split_sign]. rewrite Hm, Hp. reflexivity. }
  assert (Hint : digit_part (digits_string (d :: ds1) +:+ frac)
                 = (digits_value (d :: ds1), S (length ds1), frac)).
  { cbn [digits_string]. rewrite append_cons. cbn [digit_part]. rewrite Hdig.
    rewrite (digits_more_digits_then ds1 frac Hds1).
    - unfold digits_value. cbn [fold_left]. replace (10 * 0 + d) with d by lia. reflexivity.
    - right. exists "."%char, (digits_string ds2). repeat split. }
  assert (Hspecial : digits_string (d :: ds1) +:+ frac
                     = String (digit_char d) (digits_string ds1 +:+ frac)) by reflexivity.
  destruct (digit_first_not_special (digit_char d) d (digits_string ds1 +:+ frac) Hdig)
    as (N1 & N2 & N3).
  change (digits_string (d :: ds1) +:+ "." +:+ digits_string ds2)
    with (digits_string (d :: ds1) +:+ frac).
  unfold float_of_string. rewrite Hstrip, Hsign. cbv beta iota zeta.
  rewrite Hspecial, N1, N2, N3. cbn [orb]. rewrite <- Hspecial, Hint. cbv beta iota zeta.
  unfold frac at 1. cbv beta iota. replace (Ascii.eqb "." ".") with true by reflexivity.
  rewrite (digit_part_fraction ds2 H2). cbv beta iota zeta.
  cbn [Nat.add exponent_part]. f_equal. unfold lit. apply round_Q_comp.
  rewrite Qpow10_neg, digits_value_app. cbn [length]. reflexivity.
Qed.

Lemma float_of_decimal_string_witness :
  Forall is_digit [2] /\ Forall is_digit [9] /\ (1 <= length [2])%nat /\
  float_of_string (digits_string [2] +:+ "." +:+ digits_string [9])
  = Ok (lit (inject_Z (digits_value ([2] ++ [9])) / inject_Z (10 ^ Z.of_nat (length [9])))) /\
  int_of_string (digits_string [2] +:+ "." +:+ digits_string [9])
  = Raise (ValueError "invalid literal for int() with base 10").
Proof.
  assert (H1 : Forall is_digit [2]) by (repeat constructor; unfold is_digit; lia).
  assert (H2 : Forall is_digit [9]) by (repeat constructor; unfold is_digit; lia).
  assert (H3 : (1 <= length [2])%nat) by (cbn; lia).
  split; [exact H1|]. split; [exact H2|]. split; [exact H3|].
  exact (float_of_decimal_string [2] [9] H1 H2 H3).
Defined.

(** ** The explanation text *)

(** The percentages that the explanation interpolates, [int(w * 100)] for
    each weight, are 50, 30 and 20. *)
Example explanation_percentages :
  int_of_float (fmul (w_asset WEIGHTS) (lit 100)) = Ok 50 /\
  int_of_float (fmul (w_salary WEIGHTS) (lit 100)) = Ok 30 /\
  int_of_float (fmul (w_experience WEIGHTS) (lit 100)) = Ok 20.
Proof. repeat split; vm_compute; reflexivity. Qed.

(** ** Every result of the arithmetic is a binary64 float

    [valid_binary 53 1024] is the Standard Library's test that mantissa and
    exponent are those of a binary64 number. *)

Lemma digits2_pos_size p : digits2_pos p = Pos.size p.
Proof. induction p as [p IH|p IH|]; cbn; congruence. Qed.

Lemma digits2_pos_log2 p : Zpos (digits2_pos p) = Z.log2 (Zpos p) + 1.
Proof.
  rewrite digits2_pos_size. destruct p as [p|p|]; cbn [Pos.size Z.log2]; lia.
Qed.

Lemma SFpack_valid s m e :
  0 <= m <= 2 ^ 53 -> (emin < e -> 2 ^ 52 <= m) -> emin <= e ->
  valid_binary 53 1024 (SFpack s m e) = true.
Proof.
  intros [Hm0 Hm1] Hnorm He. destruct m as [|p|p]; [reflexivity| |lia].
  unfold SFpack. destruct (Qle_bool _ _) eqn:Hov; [reflexivity|].
  assert (Hlt : (inject_Z (Zpos p) * pow2 e < pow2 1024)%Q).
  { destruct (Qlt_le_dec (inject_Z (Zpos p) * pow2 e) (pow2 1024)) as [|Hge]; [assumption|].
    apply Qle_bool_iff in Hge. congruence. }
  pose proof (pow2_pos e) as Hpe.
  unfold emin in *.
  destruct (Pos.eqb_spec p (2 ^ 53)%positive) as [E|NE].
  - subst p. assert (Hexp : 53 + e < 1024).
    { apply pow2_lt_inv. rewrite pow2_add, <- (pow2_inject 53) by lia. exact Hlt. }
    unfold valid_binary, bounded, canonical_mantissa, SpecFloat.fexp, SpecFloat.emin.
    rewrite digits2_pos_log2.
    replace (Z.log2 (Z.pos (2 ^ 52))) with 52 by reflexivity.
    apply andb_true_intro. split; [apply Z.eqb_eq | apply Z.leb_le]; lia.
  - assert (Hp : Zpos p < 2 ^ 53).
    { assert (Zpos p <> 2 ^ 53) by (intros E; apply NE; apply Pos2Z.inj; exact E). lia. }
    assert (Hlog : Z.log2 (Zpos p) <= 52).
    { assert (Z.log2 (Zpos p) < 53); [|lia]. apply Z.log2_lt_pow2; lia. }
    unfold valid_binary, bounded, canonical_mantissa, SpecFloat.fexp, SpecFloat.emin.
    rewrite digits2_pos_log2.
    destruct (Z_le_gt_dec e (-1074)) as [Hle|Hgt].
    + apply andb_true_intro. split; [apply Z.eqb_eq | apply Z.leb_le]; lia.
    + assert (H52 : 2 ^ 52 <= Zpos p) by (apply Hnorm; lia).
      assert (Hl52 : 52 <= Z.log2 (Zpos p)) by (apply Z.log2_le_pow2; lia).
      assert (Hexp : 52 + e < 1024).
      { apply pow2_lt_inv. rewrite pow2_add, <- (pow2_inject 52) by lia.
        eapply Qle_lt_trans; [|exact Hlt].
        apply Qmult_le_compat_r; [rewrite <- Zle_Qle; exact H52 | lra]. }
      apply andb_true_intro. split; [apply Z.eqb_eq | apply Z.leb_le]; lia.
Qed.

Lemma fexp_emin q : emin <= fexp q.
Proof. unfold fexp. lia. Qed.

Lemma round_Q_valid s q : valid_binary 53 1024 (round_Q s q) = true.
Proof.
  destruct (Qlt_le_dec 0 q) as [Hq|Hq].
  - rewrite round_Q_pos by exact Hq. apply SFpack_valid.
    + split; [apply rmant_nonneg | apply rmant_upper]; exact Hq.
    + apply rmant_lower, Hq.
    + apply fexp_emin.
  - destruct (Qeq_dec q 0) as [Hz|Hnz]; [rewrite round_Q_zero by exact Hz; reflexivity|].
    assert (Hn : (0 < - q)%Q) by lra.
    assert (E : round_Q s q = SFpack true (rmant (- q)) (fexp (- q))).
    { unfold round_Q. destruct q as [[|n|n] d]; cbn [Qnum];
        try (unfold Qlt, Qle, Qeq, Qopp in *; cbn in *; lia). reflexivity. }
    rewrite E. apply SFpack_valid.
    + split; [apply rmant_nonneg | apply rmant_upper]; exact Hn.
    + apply rmant_lower, Hn.
    + apply fexp_emin.
Qed.

(** Sums, products, quotients, literals, parsed strings, converted ints and
    roundings to decimals are binary64 floats. *)
Lemma arithmetic_valid x y :
  valid_binary 53 1024 (fadd x y) = true /\
  valid_binary 53 1024 (fmul x y) = true /\
  valid_binary 53 1024 (fdiv_ieee x y) = true.
Proof.
  repeat split.
  - destruct x as [s|s| |s m e], y as [s'|s'| |s' m' e']; cbn [fadd];
      try reflexivity; try apply round_Q_valid; destruct (Bool.eqb _ _); reflexivity.
  - destruct x as [s|s| |s m e], y as [s'|s'| |s' m' e']; cbn [fmul];
      try reflexivity; apply round_Q_valid.
  - destruct x as [s|s| |s m e], y as [s'|s'| |s' m' e']; cbn [fdiv_ieee];
      try reflexivity; apply round_Q_valid.
Qed.

Lemma conversions_valid :
  (forall q, valid_binary 53 1024 (lit q) = true) /\
  (forall z f, float_of_Z z = Ok f -> valid_binary 53 1024 f = true) /\
  (forall s f, float_of_string s = Ok f -> valid_binary 53 1024 f = true) /\
  (forall x n, valid_binary 53 1024 x = true -> valid_binary 53 1024 (py_round_nd x n) = true).
Proof.
  split; [intros q; apply round_Q_valid|]. split; [|split].
  - intros z f. unfold float_of_Z. pose proof (round_Q_valid false (inject_Z z)) as H.
    destruct (round_Q false (inject_Z z)); intros E; inversion E; subst; exact H.
  - intros s f. unfold float_of_string.
    destruct (split_sign _) as [neg body].
    destruct (_ || _); [intros E; inversion E; reflexivity|].
    destruct (String.eqb _ _); [intros E; inversion E; reflexivity|].
    destruct (digit_part body) as [[iv ni] r1].
    destruct (match r1 with String c r => _ | EmptyString => _ end) as [[fv nf] r2].
    destruct (ni + nf)%nat; [discriminate|].
    destruct (exponent_part r2); [|discriminate].
    intros E. inversion E. apply round_Q_valid.
  - intros x n Hx. destruct x; try exact Hx. cbn [py_round_nd]. apply round_Q_valid.
Qed.

(** ** The float model against the Standard Library and the machine *)

(** On the program's constants the operations of this model give the
    floats that the Standard Library's binary64 operations give. *)
Example arithmetic_agrees_with_SpecFloat :
  fmul BONUS_POOL (w_asset WEIGHTS) = SFmul 53 1024 BONUS_POOL (w_asset WEIGHTS) /\
  fmul BONUS_POOL (w_salary WEIGHTS) = SFmul 53 1024 BONUS_POOL (w_salary WEIGHTS) /\
  fmul BONUS_POOL (w_experience WEIGHTS) = SFmul 53 1024 BONUS_POOL (w_experience WEIGHTS) /\
  fadd BASE_SCORE BONUS_POOL = SFadd 53 1024 BASE_SCORE BONUS_POOL /\
  fdiv_ieee (lit 33334000) ASSET_CAP = SFdiv 53 1024 (lit 33334000) ASSET_CAP /\
  fdiv_ieee (lit 7) EXP_CAP = SFdiv 53 1024 (lit 7) EXP_CAP /\
  fadd (lit (1 # 10)) (lit (2 # 10)) = SFadd 53 1024 (lit (1 # 10)) (lit (2 # 10)) /\
  flt (lit 1) (fdiv_ieee (lit 33334000) ASSET_CAP)
    = SFltb (lit 1) (fdiv_ieee (lit 33334000) ASSET_CAP).
Proof. repeat split; vm_compute; reflexivity. Qed.

(** The raw score of the model is the raw score that the machine computes. *)
Example raw_score_agrees_with_machine :
  FloatOps.Prim2SF (hw_raw_score (hw_of_Z 33334000) (hw_of_Z 0) (hw_of_Z 0))
    = raw_of (lit 33334000) (lit 0) (lit 0) /\
  FloatOps.Prim2SF (hw_raw_score (hw_of_Z 3333333333) (hw_of_Z 12345678) (hw_of_Z 7))
    = raw_of (lit 3333333333) (lit 12345678) (lit 7) /\
  FloatOps.Prim2SF (hw_raw_score (hw_of_Z 10000000000) (hw_of_Z 200000000) (hw_of_Z 40))
    = raw_of (lit 10000000000) (lit 200000000) (lit 40) /\
  FloatOps.Prim2SF (hw_raw_score (hw_of_Z 123456789012) (hw_of_Z 77777777) (hw_of_Z 39))
    = raw_of (lit 123456789012) (lit 77777777) (lit 39).
Proof. repeat split; vm_compute; reflexivity. Qed.

(** The parsers and the engine on sample values, with the results that
    CPython 3.11 gives (mantissa and exponent of each float). *)
Example parsing_examples :
  float_of_string "2.9" = Ok (S754_finite false 6530219459687219 (-51)) /\
  float_of_string " -1_0.5e1 " = Ok (S754_finite true 7388718138654720 (-46)) /\
  float_of_string "+.5e-3" = Ok (S754_finite false 4611686018427388 (-63)) /\
  float_of_string "2.5e-324" = Ok (S754_finite false 1 (-1074)) /\
  float_of_string "1.7976931348623159e308" = Ok (S754_infinity false) /\
  float_of_string "-Infinity" = Ok (S754_infinity true) /\
  float_of_string "NaN" = Ok S754_nan /\
  float_of_string "-0" = Ok (S754_zero true) /\
  float_of_string "1._5" = Raise (ValueError "could not convert string to float") /\
  float_of_string "." = Raise (ValueError "could not convert string to float") /\
  float_of_string "1_e5" = Raise (ValueError "could not convert string to float") /\
  int_of_string " +1_000 " = Ok 1000 /\
  int_of_string "0012" = Ok 12 /\
  int_of_string "-17" = Ok (-17) /\
  int_of_string "1__0" = Raise (ValueError "invalid literal for int() with base 10") /\
  int_of_string "+ 5" = Raise (ValueError "invalid literal for int() with base 10") /\
  int_of_string "" = Raise (ValueError "invalid literal for int() with base 10") /\
  int_of_float (lit (29 # 10)) = Ok 2 /\
  int_of_float (lit (-29 # 10)) = Ok (-2) /\
  py_round (lit (5 # 2)) = Ok 2 /\
  py_round (lit (7 # 2)) = Ok 4 /\
  py_round_nd (lit (1 # 8)) 2 = lit (12 # 100) /\
  py_round_nd (lit (2675 # 1000)) 2 = lit (267 # 100).
Proof. repeat split; vm_compute; reflexivity. Qed.

Example engine_examples :
  let calc := scores_from (lit 3333333333) (lit 12345678) (lit 7) 30 in
  credit_score calc = 566 /\
  raw_score calc = S754_finite false 4979077318353206 (-43) /\
  norm (c_asset (components calc)) = S754_finite false 6004793498361158 (-54) /\
  points (c_asset (components calc)) = S754_finite false 7036874417766400 (-47) /\
  norm (c_salary (components calc)) = S754_finite false 8895942329546431 (-57) /\
  points (c_salary (components calc)) = S754_finite false 6260003482044989 (-50) /\
  norm (c_experience (components calc)) = S754_finite false 6305039478318694 (-55) /\
  points (c_experience (components calc)) = S754_finite false 5910974510923776 (-49).
Proof. repeat split; vm_compute; reflexivity. Qed.
